(** * Verification of the summary/report engine of amass ([format/print.go])

    The development embeds, shallowly, the parts of package [format] that
    the specification talks about:

    - the record parser that [PrintEnumerationSummary] runs over the flat
      text lines (the loop at the top of the function),
    - [SaveASNDetailsToFile], the persisted report,
    - [UpdateSummaryData], the structured aggregation path,
    - [censorString] and its three callers [censorDomain], [censorIP] and
      [censorNetBlock],
    - [FprintEnumerationSummary], the summary on the terminal,
    - [OutputLineParts], [OutputLinePartsOld] and [DesiredAddrTypes].

    Go values are modelled as the program has them.  A Go [string] is a
    sequence of bytes: Rocq's [string] (a list of 8-bit [ascii]).  A Go
    [int] is a [Z]; a [rune] is a [Z] too.  Go maps are [gmap]s; a nil map
    reads as the empty map, and where the program writes to a map that
    may be nil, the map is an [option] whose [None] is nil.  A run-time
    panic (index out of range, slice bounds out of range, failed type
    assertion, nil dereference, assignment to an entry of a nil map) is
    the [None] of the [option] monad.

    The functions of Go's standard library that the program calls
    ([strings.Split], [strings.TrimSpace], [strings.HasSuffix],
    [strings.TrimSuffix], [strings.Index], [strings.LastIndex], the
    conversions [[]rune(s)] and [string(runes)]) are modelled after the
    library's sources, in modules [utf8] and [GoStrings]. *)

From Stdlib Require Import ZArith Ascii.
From stdpp Require Import gmap strings list fin_maps pretty.

Local Open Scope Z_scope.

(** ** Bytes and slices of Go strings *)

(** The value of a byte. *)
Definition byte_val (c : ascii) : Z := Z.of_N (N_of_ascii c).

(** [byte(z)] for [0 <= z < 256]. *)
Definition byte_of (z : Z) : ascii := ascii_of_N (Z.to_N z).

(** [len(s)]: the number of bytes of [s]. *)
Definition len (s : string) : Z := Z.of_nat (String.length s).

Fixpoint str_drop (n : nat) (s : string) : string :=
  match n, s with
  | O, _ => s
  | S n', String _ s' => str_drop n' s'
  | S _, EmptyString => EmptyString
  end.

Fixpoint str_take (n : nat) (s : string) : string :=
  match n, s with
  | O, _ => EmptyString
  | S n', String c s' => String c (str_take n' s')
  | S _, EmptyString => EmptyString
  end.

(** The slice expression [s[lo:hi]]; it panics unless
    [0 <= lo <= hi <= len(s)]. *)
Definition slice (s : string) (lo hi : Z) : option string :=
  if (0 <=? lo) && (lo <=? hi) && (hi <=? len s)
  then Some (str_take (Z.to_nat (hi - lo)) (str_drop (Z.to_nat lo) s))
  else None.

(** [s[i]], with the zero byte standing in out of range; only used below
    at indices that the surrounding code has checked. *)
Definition byte_at (s : string) (i : Z) : Z :=
  match str_drop (Z.to_nat i) s with
  | String c _ => byte_val c
  | EmptyString => 0
  end.

(** ** Package [unicode/utf8] *)

Module utf8.

Definition RuneError : Z := 0xFFFD.
Definition RuneSelf : Z := 0x80.
Definition MaxRune : Z := 0x10FFFF.
Definition UTFMax : Z := 4.

Definition surrogateMin : Z := 0xD800.
Definition surrogateMax : Z := 0xDFFF.

Definition t2 : Z := 0xC0.
Definition t3 : Z := 0xE0.
Definition t4 : Z := 0xF0.
Definition tx : Z := 0x80.

Definition maskx : Z := 0x3F.
Definition mask2 : Z := 0x1F.
Definition mask3 : Z := 0x0F.
Definition mask4 : Z := 0x07.

Definition rune1Max : Z := 0x7F.
Definition rune2Max : Z := 0x7FF.
Definition rune3Max : Z := 0xFFFF.

Definition locb : Z := 0x80.
Definition hicb : Z := 0xBF.

(** What the table [first] together with [acceptRanges] says about a
    leading byte: ASCII, invalid, or the start of a sequence of [size]
    bytes whose second byte lies in [lo..hi]. *)
Inductive firstInfo : Type :=
| AS
| XX
| Lead (size : Z) (lo hi : Z).

Definition first (b : Z) : firstInfo :=
  if b <? 0x80 then AS
  else if b <? 0xC2 then XX
  else if b <? 0xE0 then Lead 2 locb hicb
  else if b =? 0xE0 then Lead 3 0xA0 hicb
  else if b <? 0xED then Lead 3 locb hicb
  else if b =? 0xED then Lead 3 locb 0x9F
  else if b <? 0xF0 then Lead 3 locb hicb
  else if b =? 0xF0 then Lead 4 0x90 hicb
  else if b <? 0xF4 then Lead 4 locb hicb
  else if b =? 0xF4 then Lead 4 locb 0x8F
  else XX.

Definition outside (b lo hi : Z) : bool := (b <? lo) || (hi <? b).

(** [utf8.DecodeRuneInString]: the first rune of [s] and its width in
    bytes; an invalid encoding gives [(RuneError, 1)], the empty string
    [(RuneError, 0)]. *)
Definition DecodeRuneInString (s : string) : Z * Z :=
  match s with
  | EmptyString => (RuneError, 0)
  | String c0 r0 =>
    let s0 := byte_val c0 in
    match first s0 with
    | AS => (s0, 1)
    | XX => (RuneError, 1)
    | Lead sz lo hi =>
      if len s <? sz then (RuneError, 1) else
      match r0 with
      | EmptyString => (RuneError, 1)
      | String c1 r1 =>
        let s1 := byte_val c1 in
        if outside s1 lo hi then (RuneError, 1) else
        if sz <=? 2 then
          (Z.lor (Z.shiftl (Z.land s0 mask2) 6) (Z.land s1 maskx), 2)
        else
        match r1 with
        | EmptyString => (RuneError, 1)
        | String c2 r2 =>
          let s2 := byte_val c2 in
          if outside s2 locb hicb then (RuneError, 1) else
          if sz <=? 3 then
            (Z.lor (Z.lor (Z.shiftl (Z.land s0 mask3) 12)
                          (Z.shiftl (Z.land s1 maskx) 6))
                   (Z.land s2 maskx), 3)
          else
          match r2 with
          | EmptyString => (RuneError, 1)
          | String c3 _ =>
            let s3 := byte_val c3 in
            if outside s3 locb hicb then (RuneError, 1) else
            (Z.lor (Z.lor (Z.lor (Z.shiftl (Z.land s0 mask4) 18)
                                 (Z.shiftl (Z.land s1 maskx) 12))
                          (Z.shiftl (Z.land s2 maskx) 6))
                   (Z.land s3 maskx), 4)
          end
        end
      end
    end
  end.

(** [utf8.RuneStart]. *)
Definition RuneStart (b : Z) : bool := negb (Z.land b 0xC0 =? 0x80).

(** The backwards scan of [DecodeLastRuneInString]:
    [for start--; start >= lim; start-- { if RuneStart(s[start]) { break } }],
    entered with [start] already decremented. *)
Fixpoint scan_back (fuel : nat) (s : string) (lim start : Z) : Z :=
  match fuel with
  | O => start
  | S fuel' =>
    if start <? lim then start
    else if RuneStart (byte_at s start) then start
    else scan_back fuel' s lim (start - 1)
  end.

(** [utf8.DecodeLastRuneInString]. *)
Definition DecodeLastRuneInString (s : string) : Z * Z :=
  let end_ := len s in
  if end_ =? 0 then (RuneError, 0) else
  let start := end_ - 1 in
  let r := byte_at s start in
  if r <? RuneSelf then (r, 1) else
  let lim := Z.max 0 (end_ - UTFMax) in
  let start := scan_back 4 s lim (start - 1) in
  let start := Z.max 0 start in
  let '(r, size) :=
    DecodeRuneInString (str_drop (Z.to_nat start) s) in
  if start + size =? end_ then (r, size) else (RuneError, 1).

(** [utf8.EncodeRune], as the bytes it writes.  A rune that is not a
    Unicode scalar value is written as [RuneError]. *)
Definition enc3 (r : Z) : list Z :=
  [Z.lor t3 (Z.shiftr r 12);
   Z.lor tx (Z.land (Z.shiftr r 6) maskx);
   Z.lor tx (Z.land r maskx)].

Definition EncodeRune (r : Z) : list Z :=
  if (0 <=? r) && (r <=? rune1Max) then [r]
  else if (0 <=? r) && (r <=? rune2Max) then
    [Z.lor t2 (Z.shiftr r 6); Z.lor tx (Z.land r maskx)]
  else if (r <? 0) || (MaxRune <? r)
          || ((surrogateMin <=? r) && (r <=? surrogateMax)) then
    enc3 RuneError
  else if r <=? rune3Max then enc3 r
  else
    [Z.lor t4 (Z.shiftr r 18);
     Z.lor tx (Z.land (Z.shiftr r 12) maskx);
     Z.lor tx (Z.land (Z.shiftr r 6) maskx);
     Z.lor tx (Z.land r maskx)].

End utf8.

(** The conversion [[]rune(s)]: decode rune after rune; every byte that
    starts no valid encoding becomes one [RuneError]. *)
Fixpoint decode_runes (fuel : nat) (s : string) : list Z :=
  match fuel with
  | O => []
  | S fuel' =>
    match s with
    | EmptyString => []
    | String _ _ =>
      let '(r, size) := utf8.DecodeRuneInString s in
      r :: decode_runes fuel' (str_drop (Z.to_nat size) s)
    end
  end.

Definition runes_of_string (s : string) : list Z :=
  decode_runes (String.length s) s.

Fixpoint string_of_bytes (bs : list Z) : string :=
  match bs with
  | [] => EmptyString
  | b :: bs' => String (byte_of b) (string_of_bytes bs')
  end.

(** The conversion [string(runes)]. *)
Definition string_of_runes (rs : list Z) : string :=
  string_of_bytes (flat_map utf8.EncodeRune rs).

(** ** Package [unicode] *)

(** [unicode.IsSpace]: the Latin-1 cases and the [White_Space] table. *)
Definition IsSpace (r : Z) : bool :=
  if (0 <=? r) && (r <=? 0xFF) then
    (r =? 9) || (r =? 10) || (r =? 11) || (r =? 12) || (r =? 13)
    || (r =? 32) || (r =? 0x85) || (r =? 0xA0)
  else
    (r =? 0x1680) || ((0x2000 <=? r) && (r <=? 0x200A))
    || (r =? 0x2028) || (r =? 0x2029) || (r =? 0x202F)
    || (r =? 0x205F) || (r =? 0x3000).

(** ** Package [strings] *)

Module GoStrings.

(** [strings.HasPrefix]. *)
Fixpoint HasPrefix (s prefix : string) {struct prefix} : bool :=
  match prefix, s with
  | EmptyString, _ => true
  | String _ _, EmptyString => false
  | String p prefix', String c s' =>
    if decide (p = c) then HasPrefix s' prefix' else false
  end.

(** [strings.HasSuffix]:
    [len(s) >= len(suffix) && s[len(s)-len(suffix):] == suffix]. *)
Definition HasSuffix (s suffix : string) : bool :=
  (len suffix <=? len s)
  && bool_decide
       (str_drop (Z.to_nat (len s - len suffix)) s = suffix).

(** [strings.TrimSuffix]. *)
Definition TrimSuffix (s suffix : string) : string :=
  if HasSuffix s suffix
  then str_take (Z.to_nat (len s - len suffix)) s
  else s.

(** The position of the first occurrence of [substr] in [s]. *)
Fixpoint index_nat (s substr : string) : option nat :=
  if HasPrefix s substr then Some O
  else match s with
       | EmptyString => None
       | String _ s' => S <$> index_nat s' substr
       end.

(** [strings.Index]: [-1] when [substr] does not occur. *)
Definition Index (s substr : string) : Z :=
  match index_nat s substr with
  | Some i => Z.of_nat i
  | None => -1
  end.

(** The position of the last occurrence of [substr] in [s]. *)
Fixpoint last_index_nat (s substr : string) : option nat :=
  match s with
  | EmptyString => if HasPrefix s substr then Some O else None
  | String _ s' =>
    match last_index_nat s' substr with
    | Some i => Some (S i)
    | None => if HasPrefix s substr then Some O else None
    end
  end.

(** [strings.LastIndex]: [-1] when [substr] does not occur. *)
Definition LastIndex (s substr : string) : Z :=
  match last_index_nat s substr with
  | Some i => Z.of_nat i
  | None => -1
  end.

(** [explode]: [s] cut into its UTF-8 sequences. *)
Fixpoint explode (fuel : nat) (s : string) : list string :=
  match fuel with
  | O => []
  | S fuel' =>
    match s with
    | EmptyString => []
    | String _ _ =>
      let '(_, size) := utf8.DecodeRuneInString s in
      str_take (Z.to_nat size) s
        :: explode fuel' (str_drop (Z.to_nat size) s)
    end
  end.

(** The loop of [genSplit] for a separator that is not empty: cut at the
    first occurrence, go on behind it.  Every round consumes at least one
    byte, so [length s] rounds are enough. *)
Fixpoint genSplit (fuel : nat) (s sep : string) : list string :=
  match fuel with
  | O => [s]
  | S fuel' =>
    match index_nat s sep with
    | None => [s]
    | Some m =>
      str_take m s
        :: genSplit fuel' (str_drop (m + String.length sep) s) sep
    end
  end.

(** [strings.Split]. *)
Definition Split (s sep : string) : list string :=
  match sep with
  | EmptyString => explode (String.length s) s
  | String _ _ => genSplit (String.length s) s sep
  end.

(** [strings.Join]. *)
Fixpoint Join (elems : list string) (sep : string) : string :=
  match elems with
  | [] => ""
  | [e] => e
  | e :: rest => e +:+ sep +:+ Join rest sep
  end.

(** [strings.TrimLeftFunc]: drop leading runes that satisfy [f]. *)
Fixpoint TrimLeftFunc (fuel : nat) (s : string) (f : Z → bool) : string :=
  match fuel with
  | O => ""
  | S fuel' =>
    match s with
    | EmptyString => ""
    | String _ _ =>
      let '(r, size) := utf8.DecodeRuneInString s in
      if f r then TrimLeftFunc fuel' (str_drop (Z.to_nat size) s) f
      else s
    end
  end.

(** [lastIndexFunc(s, f, false)]: the byte index of the last rune that
    does not satisfy [f], or [-1]. *)
Fixpoint lastIndexFunc (fuel : nat) (s : string) (f : Z → bool) (i : Z)
  : Z :=
  match fuel with
  | O => -1
  | S fuel' =>
    if i <=? 0 then -1 else
    let '(r, size) :=
      utf8.DecodeLastRuneInString (str_take (Z.to_nat i) s) in
    let i := i - size in
    if f r then lastIndexFunc fuel' s f i else i
  end.

(** [strings.TrimRightFunc]. *)
Definition TrimRightFunc (s : string) (f : Z → bool) : string :=
  let i := lastIndexFunc (String.length s) s f (len s) in
  let i :=
    if (0 <=? i) && (utf8.RuneSelf <=? byte_at s i)
    then i + snd (utf8.DecodeRuneInString (str_drop (Z.to_nat i) s))
    else i + 1 in
  str_take (Z.to_nat i) s.

(** [strings.TrimFunc]. *)
Definition TrimFunc (s : string) (f : Z → bool) : string :=
  TrimRightFunc (TrimLeftFunc (String.length s) s f) f.

(** The table [asciiSpace]. *)
Definition asciiSpace (c : Z) : bool :=
  (c =? 9) || (c =? 10) || (c =? 11) || (c =? 12) || (c =? 13)
  || (c =? 32).

(** The second loop of [TrimSpace], on [s = s[start:]]: walk [stop] down
    from [len(s)]; a byte that is not ASCII hands over to
    [TrimRightFunc]. *)
Fixpoint trim_stop (fuel : nat) (s : string) (stop : Z) : string :=
  match fuel with
  | O => str_take (Z.to_nat stop) s
  | S fuel' =>
    if stop <=? 0 then str_take (Z.to_nat stop) s else
    let c := byte_at s (stop - 1) in
    if utf8.RuneSelf <=? c
    then TrimRightFunc (str_take (Z.to_nat stop) s) IsSpace
    else if asciiSpace c then trim_stop fuel' s (stop - 1)
    else str_take (Z.to_nat stop) s
  end.

(** [strings.TrimSpace]: the first loop walks [start] up over ASCII
    white space; a byte that is not ASCII hands over to [TrimFunc]. *)
Fixpoint TrimSpace (s : string) : string :=
  match s with
  | EmptyString => ""
  | String c s' =>
    if utf8.RuneSelf <=? byte_val c then TrimFunc s IsSpace
    else if asciiSpace (byte_val c) then TrimSpace s'
    else trim_stop (String.length s) s (len s)
  end.

End GoStrings.

Import GoStrings.

(** ** Package [fmt] *)

Definition nl : string := String "010"%char "".
Definition tab : string := String "009"%char "".

(** The verb [%d] applied to an [int]. *)
Definition fmt_d (n : Z) : string := pretty n.

(** ** Package [format]: the record parser of [PrintEnumerationSummary] *)

(** A value of the interface type [interface{}], as far as the program
    stores one: a [string] or a [[]string]. *)
Inductive iface : Type :=
| IString (s : string)
| IStrings (l : list string).

(** The type assertion [v.(string)] on the result of a map index; a
    missing key yields the nil interface, on which the assertion panics. *)
Definition assert_string (v : option iface) : option string :=
  match v with
  | Some (IString s) => Some s
  | _ => None
  end.

(** The type assertion [v.([]string)]. *)
Definition assert_strings (v : option iface) : option (list string) :=
  match v with
  | Some (IStrings l) => Some l
  | _ => None
  end.

(** The two maps that the parser fills:
    [asns : map[string]map[string]interface{}] and
    [fqdns : map[string]string]. *)
Record parser_state : Type := ParserState {
  asns : gmap string (gmap string iface);
  fqdns : gmap string string
}.

Definition empty_state : parser_state :=
  {| asns := ∅; fqdns := ∅ |}.

(** [asns[asnID][field] = append(asns[asnID][field].([]string), x)].
    The inner maps are Go references, updated in place; each one comes
    from its own map literal in the ASN branch, so no two keys share an
    inner map and the update in place is the update of that one entry. *)
Definition append_field (field x asnID : string)
    (a : gmap string (gmap string iface))
  : option (gmap string (gmap string iface)) :=
  d ← a !! asnID;
  l ← assert_strings (d !! field);
  Some (<[asnID := <[field := IStrings (l ++ [x])]> d]> a).

(** [for asnID := range asns { ... append ... }], the keys visited in the
    order [keys]. *)
Fixpoint range_append (field x : string) (keys : list string)
    (a : gmap string (gmap string iface))
  : option (gmap string (gmap string iface)) :=
  match keys with
  | [] => Some a
  | asnID :: keys' =>
    a' ← append_field field x asnID a;
    range_append field x keys' a'
  end.

(** The keys of a map in the order in which [range] visits them.  Go
    leaves the order open; the loops of the parser do not depend on it
    (lemma [range_append_order] below). *)
Definition range_keys {V} (m : gmap string V) : list string :=
  (map_to_list m).*1.

(** The map literal built for a new ASN. *)
Definition new_asn (organization : string) : gmap string iface :=
  <["organization" := IString organization]>
  (<["netblocks" := IStrings []]>
  (<["fqdns" := IStrings []]> ∅)).

(** The classification of a record (the [if] chain of the loop body),
    given [left] and [value]. *)
Definition relation (st : parser_state) (left value : string)
  : option parser_state :=
  if HasSuffix value " (Netblock)" then
    let ntblocks := TrimSuffix value " (Netblock)" in
    a ← range_append "netblocks" ntblocks (range_keys (asns st)) (asns st);
    Some {| asns := a; fqdns := fqdns st |}
  else if HasSuffix left "(ASN)" then
    asnID ← slice left 0 (len left - len " (ASN)");
    let asnDetails := Split value " " in
    if (2 <=? Z.of_nat (length asnDetails))
       && HasSuffix value "(RIROrganization)"
    then
      Some {| asns :=
                <[asnID := new_asn (TrimSuffix value " (RIROrganization)")]>
                  (asns st);
              fqdns := fqdns st |}
    else Some st
  else if HasSuffix left "(FQDN)" then
    if HasSuffix left "(FQDN)" && HasSuffix value "(IPAddress)" then
      let f := <[left := value]> (fqdns st) in
      a ← range_append "fqdns" left (range_keys (asns st)) (asns st);
      Some {| asns := a; fqdns := f |}
    else
      Some {| asns := asns st; fqdns := <[left := value]> (fqdns st) |}
  else Some st.

(** The body of the loop [for _, record := range records]: split, skip
    what has fewer than three parts, trim, classify. *)
Definition process_record (st : parser_state) (record : string)
  : option parser_state :=
  let parts := Split record " --> " in
  if Z.of_nat (length parts) <? 3 then Some st else
  p0 ← parts !! 0%nat;
  p2 ← parts !! 2%nat;
  let left := TrimSpace p0 in
  let value := TrimSpace p2 in
  relation st left value.

(** The whole loop, from a given state. *)
Fixpoint parse_from (st : parser_state) (records : list string)
  : option parser_state :=
  match records with
  | [] => Some st
  | record :: records' =>
    st' ← process_record st record;
    parse_from st' records'
  end.

(** The loop as [PrintEnumerationSummary] runs it, on fresh maps. *)
Definition parse_records (records : list string) : option parser_state :=
  parse_from empty_state records.

(** Reading a summary: the organization, the netblocks and the FQDNs of
    an ASN. *)
Definition organization_of (st : parser_state) (asnID : string)
  : option string :=
  d ← asns st !! asnID; assert_string (d !! "organization").

(** [asns[asnID][field].([]string)] *)
Definition strings_of (a : gmap string (gmap string iface))
    (field asnID : string) : option (list string) :=
  d ← a !! asnID; assert_strings (d !! field).

Definition netblocks_of (st : parser_state) (asnID : string)
  : option (list string) :=
  strings_of (asns st) "netblocks" asnID.

Definition fqdns_of (st : parser_state) (asnID : string)
  : option (list string) :=
  strings_of (asns st) "fqdns" asnID.

(** ** [fmt.Sprintf], for the verbs the program uses *)

Inductive fmt_arg : Type :=
| ArgS (s : string)
| ArgD (n : Z).

(** [%s] and [%v] print a string operand as it is, [%d] an [int] in
    decimal.  A verb without a fitting operand is printed the way [fmt]
    reports it. *)
Fixpoint Sprintf (format : string) (args : list fmt_arg) : string :=
  match format with
  | EmptyString => ""
  | String "%"%char (String v rest) =>
    match args with
    | ArgS s :: args' =>
      if bool_decide (v = "s"%char) || bool_decide (v = "v"%char)
      then s +:+ Sprintf rest args'
      else "%!" +:+ String v ("(string=" +:+ s +:+ ")" +:+ Sprintf rest args')
    | ArgD n :: args' =>
      if bool_decide (v = "d"%char) || bool_decide (v = "v"%char)
      then fmt_d n +:+ Sprintf rest args'
      else "%!" +:+ String v ("(int=" +:+ fmt_d n +:+ ")" +:+ Sprintf rest args')
    | [] => "%!" +:+ String v ("(MISSING)" +:+ Sprintf rest [])
    end
  | String c rest => String c (Sprintf rest args)
  end.

(** ** The file system under [SaveASNDetailsToFile] *)

(** What the report needs of the operating system: the files by name,
    the names that [os.Create] refuses (with the error it gives), and how
    many more writes the device takes before [WriteString] fails. *)
Record fsys : Type := FSys {
  files : gmap string string;
  create_errors : gmap string string;
  writes_left : nat;
  write_error : string
}.

(** [os.Create]: truncates or creates the file. *)
Definition os_Create (fs : fsys) (name : string) : fsys * option string :=
  match create_errors fs !! name with
  | Some e => (fs, Some e)
  | None =>
    ({| files := <[name := ""]> (files fs);
        create_errors := create_errors fs;
        writes_left := writes_left fs;
        write_error := write_error fs |}, None)
  end.

(** [file.WriteString]: appends to the file. *)
Definition WriteString (fs : fsys) (name s : string) : fsys * option string :=
  match writes_left fs with
  | O => (fs, Some (write_error fs))
  | S n =>
    ({| files := <[name := default "" (files fs !! name) +:+ s]> (files fs);
        create_errors := create_errors fs;
        writes_left := n;
        write_error := write_error fs |}, None)
  end.

(** The line written for one entry of [fqdns]. *)
Definition fqdn_line (fqdns : gmap string string) (fqdn ip : string)
  : string :=
  if HasSuffix ip "(FQDN)" then
    let tmpIP := default "" (fqdns !! ip) in
    Sprintf ("%s: %s" +:+ nl)
      [ArgS (TrimSuffix fqdn " (FQDN)"); ArgS (TrimSuffix tmpIP " (IPAddress)")]
  else
    Sprintf ("%s: %s" +:+ nl)
      [ArgS (TrimSuffix fqdn " (FQDN)"); ArgS (TrimSuffix ip " (IPAddress)")].

(** The inner loop [for fqdn, ip := range fqdns], the entries visited in
    the order [entries]; the result is the file system and the error
    returned, if any. *)
Fixpoint write_fqdns (entries : list (string * string))
    (fqdns : gmap string string) (filename : string) (fs : fsys)
  : fsys * option string :=
  match entries with
  | [] => (fs, None)
  | (fqdn, ip) :: entries' =>
    match WriteString fs filename (fqdn_line fqdns fqdn ip) with
    | (fs', Some err) =>
      (fs', Some (Sprintf "failed to write FQDN details: %v" [ArgS err]))
    | (fs', None) => write_fqdns entries' fqdns filename fs'
    end
  end.

(** The outer loop [for asnID, details := range asns].  [range_asns] is
    the order in which the ASNs are visited and [range_fqdns asnID] the
    order of the inner loop run for [asnID]: Go fixes neither. *)
Fixpoint write_asns (range_asns : list (string * gmap string iface))
    (range_fqdns : string → list (string * string))
    (fqdns : gmap string string) (filename : string) (fs : fsys)
  : option (fsys * option string) :=
  match range_asns with
  | [] => Some (fs, None)
  | (asnID, details) :: range_asns' =>
    org ← assert_string (details !! "organization");
    nbs ← assert_strings (details !! "netblocks");
    let netblocks := Join nbs ", " in
    match WriteString fs filename
            (Sprintf ("ASN: %s - %s" +:+ nl +:+ tab +:+ "Netblocks: %s"
                      +:+ nl +:+ tab +:+ "Subdomains: %d" +:+ nl)
               [ArgS asnID; ArgS org; ArgS netblocks;
                ArgD (Z.of_nat (size fqdns))]) with
    | (fs', Some err) =>
      Some (fs', Some (Sprintf "failed to write ASN details: %v" [ArgS err]))
    | (fs', None) =>
      match write_fqdns (range_fqdns asnID) fqdns filename fs' with
      | (fs'', Some err) => Some (fs'', Some err)
      | (fs'', None) =>
        write_asns range_asns' range_fqdns fqdns filename fs''
      end
    end
  end.

(** [SaveASNDetailsToFile]; [None] is a panic, otherwise the file system
    afterwards and the error returned ([None] for [nil]). *)
Definition SaveASNDetailsToFile
    (range_asns : list (string * gmap string iface))
    (range_fqdns : string → list (string * string))
    (filename : string) (fqdns : gmap string string) (fs : fsys)
  : option (fsys * option string) :=
  match os_Create fs filename with
  | (fs', Some err) =>
    Some (fs', Some (Sprintf "failed to create file: %v" [ArgS err]))
  | (fs', None) => write_asns range_asns range_fqdns fqdns filename fs'
  end.

(** [color.Red] and [color.Green] of package [color]: a line break is
    appended to the format unless it ends with one, the format is filled
    in when there are arguments, and the text goes to standard output in
    the colour.  [paint] stands for the colouring, which depends on the
    terminal. *)
Definition colorPrint (paint : string → string) (format : string)
    (args : list fmt_arg) : string :=
  let format := if HasSuffix format nl then format else format +:+ nl in
  match args with
  | [] => paint format
  | _ => paint (Sprintf format args)
  end.

(** [PrintEnumerationSummary]: parse the records, then save the report
    under [<target>_<date>.txt]; the result carries what the call of
    [color.Red] or [color.Green] at the end prints.  [currentDate] stands
    for [time.Now().Format("2006-01-02")], [red] and [green] for the
    colouring of the two functions. *)
Definition PrintEnumerationSummary
    (red green : string → string)
    (range_asns : gmap string (gmap string iface)
                  → list (string * gmap string iface))
    (range_fqdns : gmap string string → string → list (string * string))
    (currentDate : string)
    (total : Z) (records : list string) (target : string) (fs : fsys)
  : option (fsys * string) :=
  st ← parse_records records;
  let filename := Sprintf "%s_%s.txt" [ArgS target; ArgS currentDate] in
  r ← SaveASNDetailsToFile (range_asns (asns st)) (range_fqdns (fqdns st))
        filename (fqdns st) fs;
  match r with
  | (fs', Some err) =>
    Some (fs', colorPrint red (nl +:+ "[!] Error saving file: %v")
                 [ArgS err])
  | (fs', None) =>
    Some (fs', colorPrint green (nl +:+ "[+] Details saved to %s")
                 [ArgS filename])
  end.

(** ** The structured path: [UpdateSummaryData] *)

(** Go's [int] is 64 bits wide; [wrap64] is the wrap-around of an
    arithmetic result. *)
Definition wrap64 (z : Z) : Z := (z + 2 ^ 63) mod 2 ^ 64 - 2 ^ 63.

(** Modelled from the spec: the type [requests.AddressInfo], declared in
    package [requests], which is not among the sources: an IP address, the
    CIDR string (maybe empty), the ASN and the description of the
    organization.  The IP address is kept as its bytes. *)
Record AddressInfo : Type := {
  Address : list Z;
  ASN : Z;
  CIDRStr : string;
  Description : string
}.

(** Modelled from the spec: the type [requests.Output], of which
    [UpdateSummaryData] reads [Addresses] and [OutputLineParts] reads
    [Name] as well. *)
Record Output : Type := {
  Name : string;
  Addresses : list AddressInfo
}.

(** [ASNSummaryData]; a [Netblocks] of [None] is the nil map. *)
Record ASNSummaryData : Type := {
  SName : string;
  Netblocks : option (gmap string Z)
}.

(** A [*ASNSummaryData]. *)
Inductive ptr : Type :=
| Nil
| Addr (l : positive).

(** The argument [asns : map[int]*ASNSummaryData], a made map, together
    with the objects its pointers refer to.  For reading, the empty map
    stands for Go's nil map as well; [summary_arg] below is the argument
    of [UpdateSummaryData] when it may be nil. *)
Record store : Type := Store {
  asnmap : gmap Z ptr;
  heap : gmap positive ASNSummaryData
}.

Definition empty_store : store := {| asnmap := ∅; heap := ∅ |}.

(** [data.Netblocks[cidr]++]: panics on a nil [data] and on a nil map. *)
Definition increment (data : ptr) (cidr : string) (st : store)
  : option store :=
  match data with
  | Nil => None
  | Addr l =>
    d ← heap st !! l;
    nb ← Netblocks d;
    let ips := default 0 (nb !! cidr) in
    Some {| asnmap := asnmap st;
            heap := <[l := {| SName := SName d;
                              Netblocks :=
                                Some (<[cidr := wrap64 (ips + 1)]> nb) |}]>
                      (heap st) |}
  end.

(** The body of the loop [for _, addr := range output.Addresses]. *)
Definition update_one (st : store) (addr : AddressInfo) : option store :=
  if bool_decide (CIDRStr addr = "") then Some st else
  match asnmap st !! ASN addr with
  | Some data => increment data (CIDRStr addr) st
  | None =>
    let l := fresh (dom (heap st)) in
    let st' :=
      {| asnmap := <[ASN addr := Addr l]> (asnmap st);
         heap := <[l := {| SName := Description addr;
                           Netblocks := Some ∅ |}]> (heap st) |} in
    data ← asnmap st' !! ASN addr;
    increment data (CIDRStr addr) st'
  end.

Fixpoint update_all (st : store) (addrs : list AddressInfo) : option store :=
  match addrs with
  | [] => Some st
  | addr :: addrs' => st' ← update_one st addr; update_all st' addrs'
  end.

(** [UpdateSummaryData]. *)
Definition UpdateSummaryData (output : Output) (st : store) : option store :=
  update_all st (Addresses output).

(** Reading [asns[asn]] and [asns[asn].Netblocks[cidr]]. *)
Definition summary_of (st : store) (asn : Z) : option ASNSummaryData :=
  data ← asnmap st !! asn;
  match data with
  | Nil => None
  | Addr l => heap st !! l
  end.

Definition netblock_count (st : store) (asn : Z) (cidr : string)
  : option Z :=
  d ← summary_of st asn; nb ← Netblocks d; nb !! cidr.

(** ** The redactor: [censorString] and its callers *)

(** The runes that [censorString] lets through: ['.'], ['/'], ['-'] and
    [' ']. *)
Definition kept (r : Z) : bool :=
  (r =? 46) || (r =? 47) || (r =? 45) || (r =? 32).

(** [runes[i]]; an index out of range panics. *)
Definition rune_at (runes : list Z) (i : Z) : option Z :=
  if i <? 0 then None else runes !! Z.to_nat i.

(** The loop [for i := start; i < end; i++] with [n] rounds to go. *)
Fixpoint censor_loop (n : nat) (i : Z) (runes : list Z)
  : option (list Z) :=
  match n with
  | O => Some runes
  | S n' =>
    r ← rune_at runes i;
    if kept r then censor_loop n' (i + 1) runes
    else censor_loop n' (i + 1) (<[Z.to_nat i := 120]> runes)
  end.

(** [censorString]; [None] is the panic of an index out of range. *)
Definition censorString (input : string) (start end_ : Z) : option string :=
  let runes := runes_of_string input in
  string_of_runes <$> censor_loop (Z.to_nat (end_ - start)) start runes.

Definition censorDomain (input : string) : option string :=
  censorString input (Index input ".") (len input).

Definition censorIP (input : string) : option string :=
  censorString input 0 (LastIndex input ".").

Definition censorNetBlock (input : string) : option string :=
  censorString input 0 (Index input "/").

(** ** The shape of the summaries the parser builds *)
(** Every summary that the parser stores is the map literal of
    [process_record] with elements appended to its two slices: the three
    keys are there, with values of the types the assertions expect. *)
Definition wf_details (d : gmap string iface) : Prop :=
  (∃ o, d !! "organization" = Some (IString o))
  ∧ (∃ l, d !! "netblocks" = Some (IStrings l))
  ∧ (∃ l, d !! "fqdns" = Some (IStrings l)).

Definition wf_state (st : parser_state) : Prop :=
  map_Forall (λ _ d, wf_details d) (asns st).

(** What one round of the fan-out loop does to a summary. *)
Definition attach (field x : string) (d : gmap string iface)
  : gmap string iface :=
  match d !! field with
  | Some (IStrings l) => <[field := IStrings (l ++ [x])]> d
  | _ => d
  end.


(** ** The layout of the report *)

(** The report as the specification lays it out, with the number on the
    ["Subdomains:"] lines as a parameter [n]: per ASN the header, the
    netblocks, the subdomain count and one line per entry of [fqdns]. *)
Definition subdomains_line (n : Z) : string :=
  tab +:+ "Subdomains: " +:+ fmt_d n +:+ nl.

Definition asn_header (asnID org : string) (nbs : list string) (n : Z)
  : string :=
  "ASN: " +:+ asnID +:+ " - " +:+ org +:+ nl
  +:+ tab +:+ "Netblocks: " +:+ Join nbs ", " +:+ nl
  +:+ subdomains_line n.

Fixpoint fqdn_lines (fqdns : gmap string string)
    (entries : list (string * string)) : string :=
  match entries with
  | [] => ""
  | (fqdn, ip) :: entries' =>
    fqdn_line fqdns fqdn ip +:+ fqdn_lines fqdns entries'
  end.

Fixpoint report (range_asns : list (string * gmap string iface))
    (range_fqdns : string → list (string * string))
    (fqdns : gmap string string) (n : Z) : string :=
  match range_asns with
  | [] => ""
  | (asnID, details) :: range_asns' =>
    asn_header asnID
      (default "" (assert_string (details !! "organization")))
      (default [] (assert_strings (details !! "netblocks"))) n
    +:+ fqdn_lines fqdns (range_fqdns asnID)
    +:+ report range_asns' range_fqdns fqdns n
  end.

(** The number of [WriteString] calls of a full report. *)
Fixpoint report_writes (range_asns : list (string * gmap string iface))
    (range_fqdns : string → list (string * string)) : nat :=
  match range_asns with
  | [] => O
  | (asnID, _) :: range_asns' =>
    S (length (range_fqdns asnID) + report_writes range_asns' range_fqdns)
  end.

(** ** Sample inputs *)

(** The two lines of the example of the specification. *)
Definition akamai_asn_line : string :=
  "15133 (ASN) --> is --> Akamai Technologies (RIROrganization)".

Definition bare_netblock_line : string := "93.184.0.0/16 (Netblock)".

(** A netblock relation in the three-segment form. *)
Definition akamai_netblock_line : string :=
  "15133 (ASN) --> announces --> 93.184.0.0/16 (Netblock)".

(** The state after [akamai_asn_line]. *)
Definition akamai_state : parser_state :=
  {| asns := {[ "15133" := new_asn "Akamai Technologies" ]}; fqdns := ∅ |}.

(** A state with two ASNs. *)
Definition two_asns : parser_state :=
  {| asns := <["64512" := new_asn "Example Net"]> (asns akamai_state);
     fqdns := ∅ |}.

Definition www_ip_line : string :=
  "www.example.com (FQDN) --> a_record --> 93.184.216.34 (IPAddress)".

Definition www_alias_line : string :=
  "www.example.com (FQDN) --> cname_record --> edge.example.net (FQDN)".

(** Three records after which ASN 15133 has one attributed FQDN and ASN
    64512, created later, has none, while [fqdns] has one entry. *)
Definition report_records : list string :=
  [akamai_asn_line; www_ip_line;
   "64512 (ASN) --> is --> Example Net (RIROrganization)"].

Definition report_state : parser_state :=
  {| asns := <["64512" := new_asn "Example Net"]>
               (attach "fqdns" "www.example.com (FQDN)"
                  <$> asns akamai_state);
     fqdns := {[ "www.example.com (FQDN)" := "93.184.216.34 (IPAddress)" ]} |}.

(** A file system with nothing on it that takes ten writes. *)
Definition blank_disk : fsys :=
  {| files := ∅; create_errors := ∅; writes_left := 10;
     write_error := "input/output error" |}.

(** An [AddressInfo] in netblock 10.0.0.0/24 of ASN 64512. *)
Definition private_addr (ip : list Z) (description : string) : AddressInfo :=
  {| Address := ip; ASN := 64512; CIDRStr := "10.0.0.0/24";
     Description := description |}.

(** Idempotence of a redactor at an input: it returns a masked string,
    and masking that string again returns it unchanged. *)
Definition idempotent_at (censor : string → option string) (s : string)
  : Prop :=
  ∃ t, censor s = Some t ∧ censor t = Some t.

(** ** Redaction of ASCII text *)

(** The bytes of a string. *)
Fixpoint bytes_of (s : string) : list Z :=
  match s with
  | EmptyString => []
  | String c s' => byte_val c :: bytes_of s'
  end.

(** Strings of ASCII bytes only; host names, IP addresses and CIDRs as
    the tools print them are such strings. *)
Definition is_ascii (s : string) : bool :=
  forallb (λ b, b <? utf8.RuneSelf) (bytes_of s).

(** What the loop of [censorString] does to one rune. *)
Definition mask (r : Z) : Z := if kept r then r else 120.

(** The runes after the loop has covered the window of [n] runes from
    index [lo]. *)
Definition mask_window (lo n : nat) (runes : list Z) : list Z :=
  imap (λ k r, if decide (lo ≤ k < lo + n)%nat then mask r else r) runes.

(** The first and the last position of a byte in a list of bytes. *)
Fixpoint find_first (b : Z) (bs : list Z) : option nat :=
  match bs with
  | [] => None
  | x :: bs' => if x =? b then Some O else S <$> find_first b bs'
  end.

Fixpoint find_last (b : Z) (bs : list Z) : option nat :=
  match bs with
  | [] => None
  | x :: bs' =>
    match find_last b bs' with
    | Some i => Some (S i)
    | None => if x =? b then Some O else None
    end
  end.

(** Two lists that have the byte [b] at the same positions. *)
Definition same_positions (b : Z) : list Z → list Z → Prop :=
  Forall2 (λ x y, (x =? b) = (y =? b)).

(** ** More about the record parser *)

(** The records on which the loop body panics: at least three segments,
    the trimmed first one the bare tag ["(ASN)"], the trimmed third one
    without the Netblock tag. *)
Definition bare_asn_record (record : string) : bool :=
  match Split record " --> " with
  | p0 :: _ :: p2 :: _ =>
    negb (HasSuffix (TrimSpace p2) " (Netblock)")
    && bool_decide (TrimSpace p0 = "(ASN)")
  | _ => false
  end.

(** What the parser keeps true of the FQDN resolution map: its keys carry
    the FQDN tag, its values are not netblocks, and every FQDN attributed
    to an ASN is one of its keys. *)
Definition fqdn_index_ok (st : parser_state) : Prop :=
  (∀ k v, fqdns st !! k = Some v →
          HasSuffix k "(FQDN)" = true
          ∧ HasSuffix v " (Netblock)" = false)
  ∧ (∀ asnID l x, fqdns_of st asnID = Some l → x ∈ l →
                  is_Some (fqdns st !! x)).

(** The state after [akamai_asn_line] and [akamai_netblock_line]. *)
Definition akamai_with_netblock : parser_state :=
  {| asns := attach "netblocks" "93.184.0.0/16" <$> asns akamai_state;
     fqdns := ∅ |}.

(** A file system whose device takes one more write. *)
Definition worn_disk : fsys :=
  {| files := ∅; create_errors := ∅; writes_left := 1;
     write_error := "no space left on device" |}.

(** ** More about the structured path *)

(** A summary map as Go code builds it: every pointer in it refers to a
    summary whose [Netblocks] map has been made. *)
Definition wf_store (st : store) : Prop :=
  ∀ asn p, asnmap st !! asn = Some p →
    ∃ l d nb, p = Addr l ∧ heap st !! l = Some d ∧ Netblocks d = Some nb.

(** No two ASNs share one summary object. *)
Definition unshared (st : store) : Prop :=
  ∀ a1 a2 l,
    asnmap st !! a1 = Some (Addr l) → asnmap st !! a2 = Some (Addr l) →
    a1 = a2.

(** The number of records of [addrs] for [asn] in netblock [cidr]. *)
Definition occurrences (asn : Z) (cidr : string) (addrs : list AddressInfo)
  : nat :=
  length (filter (λ a, ASN a = asn ∧ CIDRStr a = cidr) addrs).

(** The description of the first record of [addrs] for [asn] that has a
    CIDR. *)
Definition first_description (asn : Z) (addrs : list AddressInfo)
  : option string :=
  Description <$> head (filter (λ a, ASN a = asn ∧ CIDRStr a ≠ "") addrs).

(** What a record with a CIDR does to the summary of its ASN ([old] is
    the summary before, if there is one). *)
Definition bump (addr : AddressInfo) (old : option ASNSummaryData)
  : ASNSummaryData :=
  let nb := default ∅ (old ≫= Netblocks) in
  {| SName := default (Description addr) (SName <$> old);
     Netblocks :=
       Some (<[CIDRStr addr :=
                 wrap64 (default 0 (nb !! CIDRStr addr) + 1)]> nb) |}.

(** A summary map in which ASN 64512 and ASN 64513 point to one summary
    object. *)
Definition shared_store : store :=
  {| asnmap := <[64512 := Addr 1%positive]> {[ 64513 := Addr 1%positive ]};
     heap := {[ 1%positive := {| SName := "Example Net";
                                 Netblocks := Some ∅ |} ]} |}.

(** A summary map that holds a nil pointer for ASN 64512. *)
Definition nil_store : store :=
  {| asnmap := {[ 64512 := Nil ]}; heap := ∅ |}.

(** ** [OutputLineParts], [OutputLinePartsOld] and [DesiredAddrTypes] *)

(** The loop [for i, a := range out.Addresses] of [OutputLineParts],
    entered at index [i] with [ips] built so far.  [IPString] stands for
    the method [net.IP.String] of Go's library. *)
Fixpoint ips_loop (IPString : list Z → string) (demo : bool) (i : nat)
    (ips : string) (addrs : list AddressInfo) : option string :=
  match addrs with
  | [] => Some ips
  | a :: addrs' =>
    let ips := if bool_decide (i ≠ O) then ips +:+ "," else ips in
    s ← (if demo then censorIP (IPString (Address a))
         else Some (IPString (Address a)));
    ips_loop IPString demo (S i) (ips +:+ s) addrs'
  end.

(** [OutputLineParts]: the pair [(name, ips)]; [None] is a panic. *)
Definition OutputLineParts (IPString : list Z → string) (out : Output)
    (addrs demo : bool) : option (string * string) :=
  ips ← (if addrs then ips_loop IPString demo 0 "" (Addresses out)
         else Some "");
  name ← (if demo then censorDomain (Name out) else Some (Name out));
  Some (name, ips).

Fixpoint spaces (n : nat) : string :=
  match n with
  | O => ""
  | S n' => String " "%char (spaces n')
  end.

(** The verb [%-18s] and its like: the operand, then blanks up to the
    width, which [fmt] counts in runes. *)
Definition pad_right (width : nat) (s : string) : string :=
  s +:+ spaces (width - length (runes_of_string s)).

(** [OutputLinePartsOld]: the triple [(source, name, ips)].  [sources]
    stands for the field [out.Sources], which the record [Output] above
    does not carry. *)
Definition OutputLinePartsOld (IPString : list Z → string)
    (sources : list string) (out : Output) (src addrs demo : bool)
  : option (string * string * string) :=
  source ← (if src then
              s0 ← sources !! 0%nat;
              Some (pad_right 18 ("[" +:+ s0 +:+ "] "))
            else Some "");
  ips ← (if addrs then
           ips ← ips_loop IPString demo 0 "" (Addresses out);
           Some (if bool_decide (ips = "") then "N/A" else ips)
         else Some "");
  name ← (if demo then censorDomain (Name out) else Some (Name out));
  Some (source, name, ips).

(** The loop of [DesiredAddrTypes] with [kept] built so far.  [IsIPv4]
    and [IsIPv6] stand for the functions of package [amassnet], which is
    not among the sources. *)
Fixpoint desired_loop (IsIPv4 IsIPv6 : list Z → bool) (ipv4 ipv6 : bool)
    (kept addrs : list AddressInfo) : list AddressInfo :=
  match addrs with
  | [] => kept
  | addr :: addrs' =>
    if ipv4 && IsIPv4 (Address addr) then
      desired_loop IsIPv4 IsIPv6 ipv4 ipv6 (kept ++ [addr]) addrs'
    else if ipv6 && IsIPv6 (Address addr) then
      desired_loop IsIPv4 IsIPv6 ipv4 ipv6 (kept ++ [addr]) addrs'
    else desired_loop IsIPv4 IsIPv6 ipv4 ipv6 kept addrs'
  end.

(** [DesiredAddrTypes]. *)
Definition DesiredAddrTypes (IsIPv4 IsIPv6 : list Z → bool)
    (addrs : list AddressInfo) (ipv4 ipv6 : bool) : list AddressInfo :=
  desired_loop IsIPv4 IsIPv6 ipv4 ipv6 [] addrs.

(** Whether [DesiredAddrTypes] wants an address. *)
Definition desired (IsIPv4 IsIPv6 : list Z → bool) (ipv4 ipv6 : bool)
    (addr : AddressInfo) : bool :=
  (ipv4 && IsIPv4 (Address addr)) || (ipv6 && IsIPv6 (Address addr)).

(** The strings that the loop of [OutputLineParts] joins: per address
    its text, masked by [censorIP] in demo mode. *)
Fixpoint ip_texts (IPString : list Z → string) (demo : bool)
    (addrs : list AddressInfo) : option (list string) :=
  match addrs with
  | [] => Some []
  | a :: addrs' =>
    s ← (if demo then censorIP (IPString (Address a))
         else Some (IPString (Address a)));
    l ← ip_texts IPString demo addrs';
    Some (s :: l)
  end.

(** A sample rendering of addresses for the examples: four bytes in
    dotted decimal, anything else as ["::1"]. *)
Definition sample_IPString (ip : list Z) : string :=
  match ip with
  | [a; b; c; d] =>
    pretty a +:+ "." +:+ pretty b +:+ "." +:+ pretty c +:+ "." +:+ pretty d
  | _ => "::1"
  end.

Definition sample_output : Output :=
  {| Name := "www.example.com";
     Addresses := [private_addr [10; 0; 0; 1] "Example Net";
                   private_addr [10; 0; 0; 2] "Example Net"] |}.

(** ** [FprintEnumerationSummary] *)

(** The colours.  Package [color], which is not among the sources, wraps
    a text in the escape sequences of a colour, or leaves it as it is
    when colours are off; the three colours that the summary uses are
    taken as parameters.  [b.Fprint] and [blue] write the same bytes. *)
Record palette : Type := Palette {
  blue : string → string;
  yellow : string → string;
  green : string → string
}.

Definition Version : string := "v4.2.2".

(** [strconv.Itoa]. *)
Definition Itoa (n : Z) : string := pretty n.

(** The closure [pad]: [for i := 0; i < num; i++ { b.Fprint(out, chr) }];
    [out] is what has been written to the writer so far. *)
Fixpoint pad_loop (pal : palette) (n : nat) (chr out : string) : string :=
  match n with
  | O => out
  | S n' => pad_loop pal n' chr (out +:+ blue pal chr)
  end.

Definition pad (pal : palette) (num : Z) (chr out : string) : string :=
  pad_loop pal (Z.to_nat num) chr out.

(** The header and the line with the number of names, which are printed
    in every case. *)
Definition summary_header (pal : palette) (total : Z) (out : string)
  : string :=
  let out := out +:+ nl in
  let title := "OWASP Amass " in
  let site := "https://github.com/insomn14/amass" in
  let out := out +:+ blue pal (title +:+ Version) in
  let num := 80 - (len title + len Version + len site) in
  let out := pad pal num " " out in
  let out := out +:+ blue pal (Sprintf ("%s" +:+ nl) [ArgS site]) in
  let out := pad pal 8 "----------" out in
  let out :=
    out +:+ Sprintf (nl +:+ "%s%s")
              [ArgS (yellow pal (Itoa total));
               ArgS (green pal " names discovered")] in
  out +:+ nl.

(** The pointer dereference [data.Name]; nil panics. *)
Definition deref (st : store) (data : ptr) : option ASNSummaryData :=
  match data with
  | Nil => None
  | Addr l => heap st !! l
  end.

(** The loop [for cidr, ips := range data.Netblocks], the entries
    visited in the order [entries]. *)
Fixpoint netblock_lines (pal : palette) (demo : bool)
    (entries : list (string * Z)) (out : string) : option string :=
  match entries with
  | [] => Some out
  | (cidr, ips) :: entries' =>
    let countstr := Itoa ips in
    cidrstr ← (if demo then censorNetBlock cidr else Some cidr);
    let countstr := tab +:+ pad_right 4 countstr in
    let cidrstr := tab +:+ pad_right 18 cidrstr in
    netblock_lines pal demo entries'
      (out +:+ Sprintf ("%s%s %s" +:+ nl)
                 [ArgS (yellow pal cidrstr); ArgS (yellow pal countstr);
                  ArgS (blue pal "Subdomain Name(s)")])
  end.

(** The loop [for asn, data := range asns].  [range_asns] is the order in
    which the ASNs are visited and [range_netblocks asn] the order of the
    inner loop run for [asn]. *)
Fixpoint asn_blocks (pal : palette) (demo : bool) (st : store)
    (range_asns : list (Z * ptr)) (range_netblocks : Z → list (string * Z))
    (out : string) : option string :=
  match range_asns with
  | [] => Some out
  | (asn, data) :: range_asns' =>
    d ← deref st data;
    let asnstr := Itoa asn in
    let datastr := SName d in
    strs ← (if demo && (0 <? asn) then
              a ← censorString asnstr 0 (len asnstr);
              n ← censorString datastr 0 (len datastr);
              Some (a, n)
            else Some (asnstr, datastr));
    let out :=
      out +:+ Sprintf ("%s%s %s %s" +:+ nl)
                [ArgS (blue pal "ASN: "); ArgS (yellow pal strs.1);
                 ArgS (green pal "-"); ArgS (green pal strs.2)] in
    out ← netblock_lines pal demo (range_netblocks asn) out;
    asn_blocks pal demo st range_asns' range_netblocks out
  end.

(** [FprintEnumerationSummary]: what the writer has received at the end;
    [None] is a panic.  The errors of the writer are not looked at by
    the code. *)
Definition FprintEnumerationSummary (pal : palette)
    (range_asns : list (Z * ptr)) (range_netblocks : Z → list (string * Z))
    (out : string) (total : Z) (st : store) (demo : bool) : option string :=
  let out := summary_header pal total out in
  if bool_decide (size (asnmap st) = O) then Some out else
  let out := pad pal 8 "----------" out in
  let out := out +:+ nl in
  asn_blocks pal demo st range_asns range_netblocks out.

(** Colours switched off. *)
Definition no_colour : palette :=
  {| blue := λ s, s; yellow := λ s, s; green := λ s, s |}.

(** A summary map whose only organization has a name that is not
    ASCII. *)
Definition accent_store : store :=
  {| asnmap := {[ 3215 := Addr 1%positive ]};
     heap := {[ 1%positive := {| SName := "France Télécom";
                                 Netblocks := Some ∅ |} ]} |}.

(** ** Lines on the edge of the netblock test *)

(** A relation whose third segment is the Netblock tag and nothing else:
    two spaces follow the last arrow. *)
Definition tag_only_netblock_line : string :=
  "15133 (ASN) --> announces -->  (Netblock)".

(** A relation with the left label of [www_ip_line] and a netblock for
    its value. *)
Definition www_netblock_line : string :=
  "www.example.com (FQDN) --> contains --> 10.0.0.0/8 (Netblock)".

(** ** [UpdateSummaryData] on a map that may be nil *)

(** The argument [asns : map[int]*ASNSummaryData] as a caller may pass
    it: [arg_map] is [None] for Go's nil map and [Some m] for a made
    map; [arg_heap] holds the objects the pointers refer to.  A [store]
    is the case of a made map. *)
Record summary_arg : Type := SummaryArg {
  arg_map : option (gmap Z ptr);
  arg_heap : gmap positive ASNSummaryData
}.

Definition made (st : store) : summary_arg :=
  {| arg_map := Some (asnmap st); arg_heap := heap st |}.

(** The body of the loop on such an argument.  Reading a nil map finds
    nothing, so a record with a CIDR reaches the assignment
    [asns[addr.ASN] = &ASNSummaryData{...}], which panics on a nil
    map. *)
Definition update_one_arg (arg : summary_arg) (addr : AddressInfo)
  : option summary_arg :=
  match arg_map arg with
  | Some m =>
    made <$> update_one {| asnmap := m; heap := arg_heap arg |} addr
  | None => if bool_decide (CIDRStr addr = "") then Some arg else None
  end.

Fixpoint update_all_arg (arg : summary_arg) (addrs : list AddressInfo)
  : option summary_arg :=
  match addrs with
  | [] => Some arg
  | addr :: addrs' =>
    arg' ← update_one_arg arg addr; update_all_arg arg' addrs'
  end.

Definition UpdateSummaryDataArg (output : Output) (arg : summary_arg)
  : option summary_arg :=
  update_all_arg arg (Addresses output).

(** Two records of ASN 64512, the first of them without a CIDR. *)
Definition mixed_output : Output :=
  {| Name := "www.example.com";
     Addresses :=
       [ {| Address := [10; 0; 0; 1]; ASN := 64512; CIDRStr := "";
            Description := "Example Net" |};
         private_addr [10; 0; 0; 2] "Example Net" ] |}.

(** ** Summary maps that [FprintEnumerationSummary] can read *)

(** Every pointer in the map is non-nil and refers to a summary; the
    [Netblocks] map of a summary may be nil. *)
Definition pointers_valid (st : store) : Prop :=
  ∀ asn p, asnmap st !! asn = Some p → is_Some (deref st p).

(** A summary map whose only summary has a nil [Netblocks] map. *)
Definition unmade_netblocks_store : store :=
  {| asnmap := {[ 64512 := Addr 1%positive ]};
     heap := {[ 1%positive := {| SName := "Example Net";
                                 Netblocks := None |} ]} |}.

(** * Properties *)

(** ** The fan-out loop *)

Section fan_out.

Variables field x : string.

Lemma append_field_attach asnID a d l :
  a !! asnID = Some d →
  d !! field = Some (IStrings l) →
  append_field field x asnID a = Some (<[asnID := attach field x d]> a).
Proof.
  intros Ha Hd. unfold append_field, attach.
  rewrite Ha. simpl. rewrite Hd. reflexivity.
Qed.

(** The loop over any duplicate-free list of keys whose summaries have
    the slice: it returns, and it has changed exactly the summaries of
    the keys visited. *)
Lemma range_append_lookup keys :
  ∀ a : gmap string (gmap string iface),
    NoDup keys →
    (∀ k, k ∈ keys →
          ∃ d l, a !! k = Some d ∧ d !! field = Some (IStrings l)) →
    ∃ a', range_append field x keys a = Some a'
          ∧ ∀ k, a' !! k = if decide (k ∈ keys)
                           then attach field x <$> a !! k
                           else a !! k.
Proof.
  induction keys as [|k0 keys IH]; intros a Hnd Hall.
  - exists a. split; [reflexivity|]. intros k.
    destruct (decide (k ∈ [])) as [Hin|_]; [inversion Hin | reflexivity].
  - apply NoDup_cons in Hnd as [Hk0 Hnd].
    destruct (Hall k0) as (d0 & l0 & Ha0 & Hd0); [left|].
    simpl. rewrite (append_field_attach _ _ _ _ Ha0 Hd0). simpl.
    destruct (IH (<[k0 := attach field x d0]> a) Hnd) as (a' & Hrun & Hlk).
    { intros k Hk. destruct (Hall k) as (d & l & Ha & Hd); [by right|].
      exists d, l. split; [|exact Hd].
      rewrite lookup_insert_ne; [exact Ha|]. intros ->. contradiction. }
    exists a'. split; [exact Hrun|]. intros k. rewrite Hlk.
    destruct (decide (k = k0)) as [->|Hne].
    + rewrite decide_False by exact Hk0.
      rewrite decide_True by left.
      rewrite lookup_insert_eq, Ha0. reflexivity.
    + rewrite lookup_insert_ne by congruence.
      destruct (decide (k ∈ keys)) as [Hin|Hnin].
      * rewrite decide_True by (by right). reflexivity.
      * rewrite decide_False; [reflexivity|].
        intros Hin. apply elem_of_cons in Hin as [?|?]; contradiction.
Qed.

(** Visiting all keys, in whatever order, maps [attach] over the
    index. *)
Lemma range_append_all keys (a : gmap string (gmap string iface)) :
  keys ≡ₚ range_keys a →
  (∀ k d, a !! k = Some d → ∃ l, d !! field = Some (IStrings l)) →
  range_append field x keys a = Some (attach field x <$> a).
Proof.
  intros Hperm Hwf.
  assert (Hmem : ∀ k, k ∈ keys ↔ is_Some (a !! k)).
  { intros k. rewrite Hperm. unfold range_keys.
    rewrite list_elem_of_fmap. split.
    - intros ([k' d] & -> & Hin). apply elem_of_map_to_list in Hin. eauto.
    - intros [d Hd]. exists (k, d). split; [reflexivity|].
      by apply elem_of_map_to_list. }
  destruct (range_append_lookup keys a) as (a' & Hrun & Hlk).
  - rewrite Hperm. apply NoDup_fst_map_to_list.
  - intros k Hk. apply Hmem in Hk as [d Hd].
    destruct (Hwf k d Hd) as [l Hl]. eauto.
  - rewrite Hrun. f_equal. apply map_eq. intros k.
    rewrite Hlk, lookup_fmap.
    destruct (decide (k ∈ keys)) as [Hin|Hnin]; [reflexivity|].
    destruct (a !! k) as [d|] eqn:Hd; [|reflexivity].
    exfalso. apply Hnin, Hmem. eauto.
Qed.

(** The order in which [range] visits the ASNs does not matter. *)
Lemma range_append_order keys (a : gmap string (gmap string iface)) :
  keys ≡ₚ range_keys a →
  (∀ k d, a !! k = Some d → ∃ l, d !! field = Some (IStrings l)) →
  range_append field x keys a = range_append field x (range_keys a) a.
Proof.
  intros Hperm Hwf.
  rewrite (range_append_all keys a Hperm Hwf).
  symmetry. by apply range_append_all.
Qed.

End fan_out.

(** ** Go strings *)

Lemma str_drop_add a b s : str_drop (a + b) s = str_drop b (str_drop a s).
Proof.
  revert s. induction a as [|a IH]; intros s; [reflexivity|].
  destruct s as [|c s]; simpl.
  - destruct b; reflexivity.
  - apply IH.
Qed.

Lemma HasSuffix_true s suffix :
  HasSuffix s suffix = true ↔
  len suffix <= len s
  ∧ str_drop (Z.to_nat (len s - len suffix)) s = suffix.
Proof.
  unfold HasSuffix. rewrite andb_true_iff, Z.leb_le, bool_decide_eq_true.
  reflexivity.
Qed.

(** A label that carries the FQDN tag does not carry the ASN tag. *)
Lemma HasSuffix_FQDN_not_ASN s :
  HasSuffix s "(FQDN)" = true → HasSuffix s "(ASN)" = false.
Proof.
  intros [Hlen Hs]%HasSuffix_true.
  apply not_true_is_false. intros [_ Hs']%HasSuffix_true.
  change (len "(FQDN)") with 6 in *. change (len "(ASN)") with 5 in *.
  replace (Z.to_nat (len s - 5)) with (Z.to_nat (len s - 6) + 1)%nat in Hs'
    by lia.
  rewrite str_drop_add, Hs in Hs'. discriminate Hs'.
Qed.

(** The slice [left[:len(left)-len(" (ASN)")]] of an ASN-tagged label
    panics exactly when the label is the bare tag. *)
Lemma slice_ASN_None left :
  HasSuffix left "(ASN)" = true →
  slice left 0 (len left - len " (ASN)") = None ↔ left = "(ASN)".
Proof.
  intros [Hlen Hs]%HasSuffix_true.
  change (len "(ASN)") with 5 in *. change (len " (ASN)") with 6.
  unfold slice. split.
  - destruct (_ && _) eqn:Hc; [discriminate|]. intros _.
    assert (len left = 5) as Hl.
    { destruct (decide (6 <= len left)) as [H6|]; [|lia].
      exfalso. revert Hc.
      rewrite !andb_false_iff, !Z.leb_gt. lia. }
    rewrite Hl in Hs. exact Hs.
  - intros ->. reflexivity.
Qed.

(** ** The invariant of the parser *)

Lemma wf_details_new_asn o : wf_details (new_asn o).
Proof. unfold wf_details, new_asn. repeat split; eexists; by simplify_map_eq. Qed.

Lemma attach_lookup field x d k :
  attach field x d !! k =
  if decide (k = field)
  then match d !! field with
       | Some (IStrings l) => Some (IStrings (l ++ [x]))
       | o => o
       end
  else d !! k.
Proof.
  unfold attach. destruct (decide (k = field)) as [->|Hne].
  - destruct (d !! field) as [[s|l]|] eqn:Hd; rewrite ?Hd; try done.
    by rewrite lookup_insert_eq.
  - destruct (d !! field) as [[s|l]|] eqn:Hd; try done.
    by rewrite lookup_insert_ne.
Qed.

Lemma wf_details_attach field x d :
  field ≠ "organization" → wf_details d → wf_details (attach field x d).
Proof.
  intros Hf ([o Ho] & [nb Hnb] & [fq Hfq]). unfold wf_details.
  rewrite !attach_lookup. repeat split.
  - exists o. by rewrite decide_False.
  - case_decide as Hk; [|eauto]. rewrite <- Hk, Hnb. eauto.
  - case_decide as Hk; [|eauto]. rewrite <- Hk, Hfq. eauto.
Qed.

Lemma wf_state_empty : wf_state empty_state.
Proof. apply map_Forall_empty. Qed.

(** On a well-formed index the fan-out loops return, having appended to
    the slice of every ASN. *)
Lemma fan_out_netblocks st x :
  wf_state st →
  range_append "netblocks" x (range_keys (asns st)) (asns st)
  = Some (attach "netblocks" x <$> asns st).
Proof.
  intros Hwf. apply range_append_all; [reflexivity|].
  intros k d Hd. by destruct (Hwf k d Hd) as (_ & ? & _).
Qed.

Lemma fan_out_fqdns st x :
  wf_state st →
  range_append "fqdns" x (range_keys (asns st)) (asns st)
  = Some (attach "fqdns" x <$> asns st).
Proof.
  intros Hwf. apply range_append_all; [reflexivity|].
  intros k d Hd. by destruct (Hwf k d Hd) as (_ & _ & ?).
Qed.

Lemma wf_state_attach field x st f :
  field ≠ "organization" →
  wf_state st →
  wf_state {| asns := attach field x <$> asns st; fqdns := f |}.
Proof.
  intros Hf Hwf k d. simpl. rewrite lookup_fmap.
  destruct (asns st !! k) as [d0|] eqn:Hd0; [|discriminate].
  intros [= <-]. apply wf_details_attach; [exact Hf|]. exact (Hwf k d0 Hd0).
Qed.

(** What [relation] does, branch by branch, on a well-formed state. *)
Lemma relation_netblock st left value :
  wf_state st →
  HasSuffix value " (Netblock)" = true →
  relation st left value
  = Some {| asns := attach "netblocks" (TrimSuffix value " (Netblock)")
                      <$> asns st;
            fqdns := fqdns st |}.
Proof.
  intros Hwf Hv. unfold relation. rewrite Hv.
  rewrite fan_out_netblocks by exact Hwf. reflexivity.
Qed.

Lemma relation_fqdn_ip st left value :
  wf_state st →
  HasSuffix value " (Netblock)" = false →
  HasSuffix left "(FQDN)" = true →
  HasSuffix value "(IPAddress)" = true →
  relation st left value
  = Some {| asns := attach "fqdns" left <$> asns st;
            fqdns := <[left := value]> (fqdns st) |}.
Proof.
  intros Hwf Hv Hl Hip. unfold relation.
  rewrite Hv, (HasSuffix_FQDN_not_ASN _ Hl), Hl, Hip. simpl.
  rewrite fan_out_fqdns by exact Hwf. reflexivity.
Qed.

Lemma relation_fqdn_alias st left value :
  HasSuffix value " (Netblock)" = false →
  HasSuffix left "(FQDN)" = true →
  HasSuffix value "(IPAddress)" = false →
  relation st left value
  = Some {| asns := asns st; fqdns := <[left := value]> (fqdns st) |}.
Proof.
  intros Hv Hl Hip. unfold relation.
  rewrite Hv, (HasSuffix_FQDN_not_ASN _ Hl), Hl, Hip. reflexivity.
Qed.

(** [relation] keeps the invariant. *)
Lemma relation_wf st left value st' :
  wf_state st → relation st left value = Some st' → wf_state st'.
Proof.
  intros Hwf. unfold relation.
  destruct (HasSuffix value " (Netblock)") eqn:Hv.
  { rewrite fan_out_netblocks by exact Hwf. intros [= <-].
    by apply wf_state_attach. }
  destruct (HasSuffix left "(ASN)") eqn:Ha.
  { destruct (slice left 0 _) as [asnID|]; [simpl|discriminate].
    destruct (_ && _); intros [= <-]; [|exact Hwf].
    apply map_Forall_insert_2; [apply wf_details_new_asn | exact Hwf]. }
  destruct (HasSuffix left "(FQDN)") eqn:Hl; [|by intros [= <-]].
  destruct (HasSuffix value "(IPAddress)") eqn:Hip; simpl.
  - rewrite fan_out_fqdns by exact Hwf. intros [= <-].
    by apply wf_state_attach.
  - intros [= <-]. exact Hwf.
Qed.

Lemma process_record_wf st record st' :
  wf_state st → process_record st record = Some st' → wf_state st'.
Proof.
  intros Hwf. unfold process_record.
  destruct (_ <? 3); [by intros [= <-]|].
  destruct (_ !! 0%nat); [simpl|discriminate].
  destruct (_ !! 2%nat); [simpl|discriminate].
  by apply relation_wf.
Qed.

Lemma parse_from_wf records :
  ∀ st st', wf_state st → parse_from st records = Some st' → wf_state st'.
Proof.
  induction records as [|r rs IH]; intros st st' Hwf; simpl.
  - by intros [= <-].
  - destruct (process_record st r) as [st1|] eqn:H1; [simpl|discriminate].
    apply IH. by eapply process_record_wf.
Qed.

(** Every state that the parser reaches is well formed. *)
Lemma parse_records_wf records st :
  parse_records records = Some st → wf_state st.
Proof. apply parse_from_wf, wf_state_empty. Qed.

(** The only panic of the loop body: a left label that is the bare tag
    ["(ASN)"], on a record that is not a netblock relation. *)
Lemma relation_None st left value :
  wf_state st →
  relation st left value = None ↔
  HasSuffix value " (Netblock)" = false ∧ left = "(ASN)".
Proof.
  intros Hwf. unfold relation.
  destruct (HasSuffix value " (Netblock)") eqn:Hv.
  { rewrite fan_out_netblocks by exact Hwf. simpl. split; [discriminate|].
    intros [? _]. discriminate. }
  destruct (HasSuffix left "(ASN)") eqn:Ha.
  { destruct (slice left 0 _) as [asnID|] eqn:Hs; simpl.
    - split.
      + destruct (_ && _); discriminate.
      + intros [_ Hl]. apply (slice_ASN_None _ Ha) in Hl. congruence.
    - split; [|done]. intros _. split; [done|].
      by apply (slice_ASN_None _ Ha). }
  assert (left ≠ "(ASN)") as Hne by (intros ->; discriminate Ha).
  destruct (HasSuffix left "(FQDN)") eqn:Hl.
  - destruct (HasSuffix value "(IPAddress)"); simpl.
    + rewrite fan_out_fqdns by exact Hwf. simpl. split; [discriminate|]. tauto.
    + split; [discriminate|]. tauto.
  - split; [discriminate|]. tauto.
Qed.

(** ** The record parser *)

Lemma process_record_relation st record p0 p1 p2 rest :
  Split record " --> " = p0 :: p1 :: p2 :: rest →
  process_record st record = relation st (TrimSpace p0) (TrimSpace p2).
Proof.
  intros Hs. unfold process_record. rewrite Hs. simpl length.
  replace (Z.of_nat (S (S (S (length rest)))) <? 3) with false
    by (symmetry; apply Z.ltb_ge; lia).
  reflexivity.
Qed.

Lemma strings_of_attach a field x field' asnID :
  strings_of (attach field x <$> a) field' asnID
  = if decide (field' = field)
    then (λ l, l ++ [x]) <$> strings_of a field' asnID
    else strings_of a field' asnID.
Proof.
  unfold strings_of. rewrite lookup_fmap.
  destruct (a !! asnID) as [d|]; simpl; [|by case_decide].
  rewrite attach_lookup. case_decide as Hf; [subst field'|reflexivity].
  by destruct (d !! field) as [[s|l]|].
Qed.

(** The guard [if len(parts) < 3 { continue }]. *)
Lemma process_record_short st record :
  Z.of_nat (length (Split record " --> ")) < 3 →
  process_record st record = Some st.
Proof.
  intros Hlen. unfold process_record.
  by rewrite (proj2 (Z.ltb_lt _ _) Hlen).
Qed.

(** C9: a line that splits into fewer than three segments on [" --> "]
    leaves the parser state, that is the ASN mapping and the FQDN
    resolution map, exactly as it was. *)
Theorem short_line_no_mutation (st : parser_state) (record : string) :
  (length (Split record " --> ") < 3)%nat →
  process_record st record = Some st.
Proof.
  intros Hlen. apply process_record_short. lia.
Qed.

Lemma short_line_no_mutation_witness :
  process_record empty_state "93.184.0.0/16 (Netblock)" = Some empty_state.
Proof.
  apply (short_line_no_mutation empty_state "93.184.0.0/16 (Netblock)").
  vm_compute. lia.
Defined.

(** C5, as stated, fails: the third segment of
    ["15133 (ASN) --> announces -->  (Netblock)"] is [" (Netblock)"] and
    ends with the Netblock tag, but the code tests the trimmed segment
    ["(Netblock)"], which does not.  The line is not a netblock relation
    for the parser, and no netblock is appended for ASN 15133. *)
Lemma tag_only_netblock_is_not_attached :
  Split tag_only_netblock_line " --> "
  = ["15133 (ASN)"; "announces"; " (Netblock)"]
  ∧ HasSuffix " (Netblock)" " (Netblock)" = true
  ∧ ¬ ∃ st' l nb,
        process_record akamai_state tag_only_netblock_line = Some st'
        ∧ netblocks_of akamai_state "15133" = Some l
        ∧ netblocks_of st' "15133" = Some (l ++ [nb]).
Proof.
  split; [vm_compute; reflexivity|]. split; [vm_compute; reflexivity|].
  intros (st' & l & nb & Hrun & Hl & Hl').
  vm_compute in Hrun. injection Hrun as <-.
  vm_compute in Hl. injection Hl as <-.
  vm_compute in Hl'. discriminate.
Qed.

(** C5, amended: on every well-formed parser state (every state the
    parser can reach is one), a line of at least three segments whose
    trimmed third segment ends with the Netblock tag is processed without
    fault; the extracted netblock is appended to the netblock collection
    of every ASN in the index, no ASN entry is created or removed, and
    the FQDN resolution map is untouched. *)
Theorem netblock_fan_out
    (st : parser_state) (record p0 p1 p2 : string) (rest : list string) :
  wf_state st →
  Split record " --> " = p0 :: p1 :: p2 :: rest →
  HasSuffix (TrimSpace p2) " (Netblock)" = true →
  ∃ st', process_record st record = Some st'
    ∧ dom (asns st') = dom (asns st)
    ∧ fqdns st' = fqdns st
    ∧ ∀ asnID, asnID ∈ dom (asns st) →
        ∃ l, netblocks_of st asnID = Some l
           ∧ netblocks_of st' asnID
             = Some (l ++ [TrimSuffix (TrimSpace p2) " (Netblock)"]).
Proof.
  intros Hwf Hsplit Hv.
  rewrite (process_record_relation _ _ _ _ _ _ Hsplit).
  rewrite (relation_netblock _ _ _ Hwf Hv).
  eexists. split; [reflexivity|]. simpl. split; [apply dom_fmap_L|].
  split; [reflexivity|].
  intros asnID [d Hd]%elem_of_dom.
  destruct (Hwf asnID d Hd) as (_ & [l Hl] & _).
  exists l. unfold netblocks_of.
  assert (strings_of (asns st) "netblocks" asnID = Some l) as Hst.
  { unfold strings_of. rewrite Hd. simpl. by rewrite Hl. }
  split; [exact Hst|]. simpl.
  rewrite strings_of_attach, decide_True by reflexivity.
  by rewrite Hst.
Qed.

Lemma wf_akamai_state : wf_state akamai_state.
Proof. apply map_Forall_singleton, wf_details_new_asn. Qed.

Lemma wf_two_asns : wf_state two_asns.
Proof.
  apply map_Forall_insert_2; [apply wf_details_new_asn | apply wf_akamai_state].
Qed.

Lemma netblock_fan_out_witness :
  wf_state two_asns
  ∧ ∃ st', process_record two_asns akamai_netblock_line = Some st'
    ∧ dom (asns st') = dom (asns two_asns)
    ∧ fqdns st' = fqdns two_asns
    ∧ ∀ asnID, asnID ∈ dom (asns two_asns) →
        ∃ l, netblocks_of two_asns asnID = Some l
           ∧ netblocks_of st' asnID
             = Some (l ++ [TrimSuffix (TrimSpace "93.184.0.0/16 (Netblock)")
                                      " (Netblock)"]).
Proof.
  split; [apply wf_two_asns|].
  apply (netblock_fan_out two_asns akamai_netblock_line
           "15133 (ASN)" "announces" "93.184.0.0/16 (Netblock)" []).
  - apply wf_two_asns.
  - vm_compute. reflexivity.
  - vm_compute. reflexivity.
Defined.

(** The example of the specification, run. *)
Lemma parse_akamai_asn_line :
  parse_records [akamai_asn_line] = Some akamai_state.
Proof. vm_compute. reflexivity. Qed.

(** C1, as the specification states it, fails: the line
    ["93.184.0.0/16 (Netblock)"] has no [" --> "] in it, splits into one
    segment and is skipped, so the netblock never reaches ASN 15133. *)
Lemma akamai_example_as_stated_fails :
  ¬ ∃ st l,
      parse_records [akamai_asn_line; bare_netblock_line] = Some st
      ∧ organization_of st "15133" = Some "Akamai Technologies"
      ∧ netblocks_of st "15133" = Some l
      ∧ ∀ x, x ∈ l ↔ x = "93.184.0.0/16".
Proof.
  intros (st & l & Hparse & _ & Hnb & Hl).
  vm_compute in Hparse. injection Hparse as <-.
  vm_compute in Hnb. injection Hnb as <-.
  specialize (Hl "93.184.0.0/16"). apply proj2 in Hl.
  specialize (Hl eq_refl). inversion Hl.
Qed.

(** C1, amended: the two lines of the example leave an entry keyed
    ["15133"] with organization ["Akamai Technologies"] and an empty
    netblock collection; when the netblock comes as a three-segment
    relation, the collection is exactly [["93.184.0.0/16"]]. *)
Theorem akamai_example :
  (∃ st, parse_records [akamai_asn_line; bare_netblock_line] = Some st
     ∧ dom (asns st) = {["15133"]}
     ∧ organization_of st "15133" = Some "Akamai Technologies"
     ∧ netblocks_of st "15133" = Some [])
  ∧ (∃ st, parse_records [akamai_asn_line; akamai_netblock_line] = Some st
     ∧ dom (asns st) = {["15133"]}
     ∧ organization_of st "15133" = Some "Akamai Technologies"
     ∧ netblocks_of st "15133" = Some ["93.184.0.0/16"]).
Proof.
  split; eexists; (split; [vm_compute; reflexivity|]);
    repeat split; vm_compute; reflexivity.
Qed.

(** C3 fails on the code: a record whose left label is empty, so that
    the trimmed left segment is the bare tag ["(ASN)"], passes the test
    [HasSuffix(left, "(ASN)")] (five bytes), and then the slice
    [left[:len(left)-len(" (ASN)")]] (six bytes) has the bound [-1]: the
    loop body panics, whatever the state. *)
Theorem bare_ASN_tag_panics (st : parser_state) :
  process_record st " (ASN) --> managed_by --> Example Org (RIROrganization)"
  = None.
Proof. reflexivity. Qed.

(** The panic above is the only one: on a state the parser can reach, the
    loop body faults exactly on the records of at least three segments
    whose trimmed left segment is ["(ASN)"] and whose value does not end
    with the Netblock tag. *)
Lemma process_record_None st record :
  wf_state st →
  process_record st record = None ↔
  ∃ p0 p1 p2 rest,
    Split record " --> " = p0 :: p1 :: p2 :: rest
    ∧ HasSuffix (TrimSpace p2) " (Netblock)" = false
    ∧ TrimSpace p0 = "(ASN)".
Proof.
  intros Hwf. split.
  - destruct (Split record " --> ") as [|p0 [|p1 [|p2 rest]]] eqn:Hs;
      try (rewrite process_record_short by (rewrite Hs; simpl; lia);
           discriminate).
    rewrite (process_record_relation _ _ _ _ _ _ Hs).
    intros [Hv Hl]%relation_None; [|exact Hwf]. eauto 10.
  - intros (p0 & p1 & p2 & rest & Hs & Hv & Hl).
    rewrite (process_record_relation _ _ _ _ _ _ Hs).
    by apply relation_None.
Qed.

(** C7, as stated, fails: the collections are slices that [append] grows;
    processing the netblock relation a second time stores the netblock a
    second time. *)
Lemma netblock_twice_is_stored_twice :
  ¬ ∃ st1 st2 l,
      process_record akamai_state akamai_netblock_line = Some st1
      ∧ process_record st1 akamai_netblock_line = Some st2
      ∧ netblocks_of st1 "15133" = Some l
      ∧ netblocks_of st2 "15133" = Some l
      ∧ NoDup l.
Proof.
  intros (st1 & st2 & l & H1 & H2 & Hl1 & Hl2 & _).
  vm_compute in H1. injection H1 as <-.
  vm_compute in H2. injection H2 as <-.
  vm_compute in Hl1. vm_compute in Hl2. congruence.
Qed.

(** C7, amended: the netblock and FQDN fields of a summary are
    append-only lists.  Processing the same netblock relation twice
    against an unchanged ASN population appends the netblock twice to
    the netblock list of every ASN, and processing the same FQDN-to-IP
    relation twice appends the FQDN label twice to the FQDN list of every
    ASN: duplicates are kept. *)
Theorem repeated_relation_appends_twice
    (st : parser_state) (record p0 p1 p2 : string) (rest : list string) :
  wf_state st →
  Split record " --> " = p0 :: p1 :: p2 :: rest →
  (HasSuffix (TrimSpace p2) " (Netblock)" = true →
   ∃ st1 st2,
     process_record st record = Some st1
     ∧ process_record st1 record = Some st2
     ∧ ∀ asnID l, netblocks_of st asnID = Some l →
         let nb := TrimSuffix (TrimSpace p2) " (Netblock)" in
         netblocks_of st1 asnID = Some (l ++ [nb])
         ∧ netblocks_of st2 asnID = Some (l ++ [nb; nb]))
  ∧ (HasSuffix (TrimSpace p2) " (Netblock)" = false →
     HasSuffix (TrimSpace p0) "(FQDN)" = true →
     HasSuffix (TrimSpace p2) "(IPAddress)" = true →
     ∃ st1 st2,
       process_record st record = Some st1
       ∧ process_record st1 record = Some st2
       ∧ ∀ asnID l, fqdns_of st asnID = Some l →
           fqdns_of st1 asnID = Some (l ++ [TrimSpace p0])
           ∧ fqdns_of st2 asnID = Some (l ++ [TrimSpace p0; TrimSpace p0])).
Proof.
  intros Hwf Hsplit. split.
  - intros Hv.
    rewrite (process_record_relation _ _ _ _ _ _ Hsplit).
    rewrite (relation_netblock _ _ _ Hwf Hv).
    eexists. eexists. split; [reflexivity|].
    rewrite (process_record_relation _ _ _ _ _ _ Hsplit).
    rewrite relation_netblock; [|by apply wf_state_attach|exact Hv].
    split; [reflexivity|]. simpl. intros asnID l Hl.
    unfold netblocks_of in *. simpl.
    rewrite !strings_of_attach, !decide_True by reflexivity.
    rewrite Hl. simpl. by rewrite <- app_assoc.
  - intros Hv Hl Hip.
    rewrite (process_record_relation _ _ _ _ _ _ Hsplit).
    rewrite (relation_fqdn_ip _ _ _ Hwf Hv Hl Hip).
    eexists. eexists. split; [reflexivity|].
    rewrite (process_record_relation _ _ _ _ _ _ Hsplit).
    rewrite relation_fqdn_ip;
      [|by apply wf_state_attach|exact Hv|exact Hl|exact Hip].
    split; [reflexivity|]. simpl. intros asnID l Hfq.
    unfold fqdns_of in *. simpl.
    rewrite !strings_of_attach, !decide_True by reflexivity.
    rewrite Hfq. simpl. by rewrite <- app_assoc.
Qed.

Lemma repeated_relation_appends_twice_witness :
  (∃ st1 st2,
     process_record akamai_state akamai_netblock_line = Some st1
     ∧ process_record st1 akamai_netblock_line = Some st2
     ∧ ∀ asnID l, netblocks_of akamai_state asnID = Some l →
         let nb := TrimSuffix (TrimSpace "93.184.0.0/16 (Netblock)")
                              " (Netblock)" in
         netblocks_of st1 asnID = Some (l ++ [nb])
         ∧ netblocks_of st2 asnID = Some (l ++ [nb; nb]))
  ∧ (∃ st1 st2,
       process_record akamai_state www_ip_line = Some st1
       ∧ process_record st1 www_ip_line = Some st2
       ∧ ∀ asnID l, fqdns_of akamai_state asnID = Some l →
           fqdns_of st1 asnID
           = Some (l ++ [TrimSpace "www.example.com (FQDN)"])
           ∧ fqdns_of st2 asnID
             = Some (l ++ [TrimSpace "www.example.com (FQDN)";
                           TrimSpace "www.example.com (FQDN)"])).
Proof.
  split.
  - apply (repeated_relation_appends_twice akamai_state akamai_netblock_line
             "15133 (ASN)" "announces" "93.184.0.0/16 (Netblock)" []).
    + apply wf_akamai_state.
    + vm_compute. reflexivity.
    + vm_compute. reflexivity.
  - apply (repeated_relation_appends_twice akamai_state www_ip_line
             "www.example.com (FQDN)" "a_record"
             "93.184.216.34 (IPAddress)" []).
    + apply wf_akamai_state.
    + vm_compute. reflexivity.
    + vm_compute. reflexivity.
    + vm_compute. reflexivity.
    + vm_compute. reflexivity.
Defined.

(** What a record with an FQDN-tagged left label does to the FQDN
    resolution map: it stores the value under the label, whatever was
    stored there before. *)
Lemma relation_fqdn_store st left value :
  wf_state st →
  HasSuffix value " (Netblock)" = false →
  HasSuffix left "(FQDN)" = true →
  ∃ st', relation st left value = Some st'
         ∧ fqdns st' = <[left := value]> (fqdns st).
Proof.
  intros Hwf Hv Hl.
  destruct (HasSuffix value "(IPAddress)") eqn:Hip.
  - rewrite (relation_fqdn_ip _ _ _ Hwf Hv Hl Hip). eauto.
  - rewrite (relation_fqdn_alias _ _ _ Hv Hl Hip). eauto.
Qed.

(** C10, as stated, fails: a line whose value ends with the Netblock tag
    is classified as a netblock relation before its left label is looked
    at.  After [www_ip_line], the later line [www_netblock_line] with the
    same FQDN-tagged left label leaves the resolution of the earlier line
    in the map. *)
Lemma later_netblock_value_is_not_stored :
  Split www_netblock_line " --> "
  = ["www.example.com (FQDN)"; "contains"; "10.0.0.0/8 (Netblock)"]
  ∧ HasSuffix "www.example.com (FQDN)" "(FQDN)" = true
  ∧ (∃ st, parse_records [www_ip_line; www_netblock_line] = Some st
        ∧ fqdns st !! "www.example.com (FQDN)"
          = Some "93.184.216.34 (IPAddress)")
  ∧ ¬ ∃ st, parse_records [www_ip_line; www_netblock_line] = Some st
        ∧ fqdns st !! "www.example.com (FQDN)"
          = Some "10.0.0.0/8 (Netblock)".
Proof.
  split; [vm_compute; reflexivity|]. split; [vm_compute; reflexivity|].
  split.
  - eexists. split; vm_compute; reflexivity.
  - intros (st & Hrun & Hlookup).
    vm_compute in Hrun. injection Hrun as <-.
    vm_compute in Hlookup. discriminate.
Qed.

(** C10, amended: FQDN resolution is last-write-wins among the lines that
    are not netblock relations.  Take two records of at least three
    segments with the same trimmed, FQDN-tagged left label, neither of
    them with a value that ends with the Netblock tag.  From a
    well-formed state the first one is processed and stores its value
    under the label; after any records in between, the second one is
    processed and the label then maps to the value of the second
    record. *)
Theorem fqdn_last_write_wins
    (st : parser_state) (record1 record2 l1 m1 v1 l2 m2 v2 : string)
    (rest1 rest2 : list string) :
  wf_state st →
  Split record1 " --> " = l1 :: m1 :: v1 :: rest1 →
  Split record2 " --> " = l2 :: m2 :: v2 :: rest2 →
  TrimSpace l2 = TrimSpace l1 →
  HasSuffix (TrimSpace l1) "(FQDN)" = true →
  HasSuffix (TrimSpace v1) " (Netblock)" = false →
  HasSuffix (TrimSpace v2) " (Netblock)" = false →
  ∃ st1,
    process_record st record1 = Some st1
    ∧ fqdns st1 !! TrimSpace l1 = Some (TrimSpace v1)
    ∧ ∀ between st2,
        parse_from st1 between = Some st2 →
        ∃ st3,
          parse_from st (record1 :: between ++ [record2]) = Some st3
          ∧ fqdns st3 !! TrimSpace l1 = Some (TrimSpace v2).
Proof.
  intros Hwf Hs1 Hs2 Hl Hfq Hv1 Hv2.
  rewrite (process_record_relation _ _ _ _ _ _ Hs1).
  destruct (relation_fqdn_store st _ _ Hwf Hv1 Hfq) as (st1 & Hr1 & Hf1).
  exists st1. split; [exact Hr1|].
  split; [by rewrite Hf1, lookup_insert_eq|].
  intros between st2 Hbetween.
  assert (wf_state st2) as Hwf2.
  { eapply parse_from_wf; [|exact Hbetween].
    eapply relation_wf; [exact Hwf|exact Hr1]. }
  destruct (relation_fqdn_store st2 (TrimSpace l1) (TrimSpace v2))
    as (st3 & Hr3 & Hf3); [done..|].
  exists st3. split; [|by rewrite Hf3, lookup_insert_eq].
  change (parse_from st (record1 :: between ++ [record2]))
    with (process_record st record1
            ≫= λ st', parse_from st' (between ++ [record2])).
  rewrite (process_record_relation _ _ _ _ _ _ Hs1), Hr1. simpl.
  clear Hr1 Hf1. revert st1 Hbetween.
  induction between as [|r rs IH]; intros st1; simpl.
  - intros [= ->].
    rewrite (process_record_relation _ _ _ _ _ _ Hs2), Hl, Hr3. reflexivity.
  - destruct (process_record st1 r) as [st1'|]; [simpl|discriminate].
    apply IH.
Qed.

Lemma fqdn_last_write_wins_witness :
  ∃ st1,
    process_record akamai_state www_ip_line = Some st1
    ∧ fqdns st1 !! TrimSpace "www.example.com (FQDN)"
      = Some (TrimSpace "93.184.216.34 (IPAddress)")
    ∧ ∀ between st2,
        parse_from st1 between = Some st2 →
        ∃ st3,
          parse_from akamai_state (www_ip_line :: between ++ [www_alias_line])
          = Some st3
          ∧ fqdns st3 !! TrimSpace "www.example.com (FQDN)"
            = Some (TrimSpace "edge.example.net (FQDN)").
Proof.
  apply (fqdn_last_write_wins akamai_state www_ip_line www_alias_line
           "www.example.com (FQDN)" "a_record" "93.184.216.34 (IPAddress)"
           "www.example.com (FQDN)" "cname_record" "edge.example.net (FQDN)"
           [] []).
  - apply wf_akamai_state.
  - vm_compute. reflexivity.
  - vm_compute. reflexivity.
  - reflexivity.
  - vm_compute. reflexivity.
  - vm_compute. reflexivity.
  - vm_compute. reflexivity.
Defined.

(** ** The persisted report *)

Lemma str_app_assoc (s1 s2 s3 : string) :
  (s1 +:+ s2) +:+ s3 = s1 +:+ (s2 +:+ s3).
Proof.
  induction s1 as [|c s1 IH]; [reflexivity|].
  change (String c ((s1 +:+ s2) +:+ s3) = String c (s1 +:+ (s2 +:+ s3))).
  by rewrite IH.
Qed.

Lemma str_app_nil_r (s : string) : s +:+ "" = s.
Proof.
  induction s as [|c s IH]; [reflexivity|].
  change (String c (s +:+ "") = String c s). by rewrite IH.
Qed.

(** The code's header is the header of the layout with the size of the
    whole FQDN map on the ["Subdomains:"] line. *)
Lemma Sprintf_asn_header asnID org nbs n :
  Sprintf ("ASN: %s - %s" +:+ nl +:+ tab +:+ "Netblocks: %s"
           +:+ nl +:+ tab +:+ "Subdomains: %d" +:+ nl)
    [ArgS asnID; ArgS org; ArgS (Join nbs ", "); ArgD n]
  = asn_header asnID org nbs n.
Proof. reflexivity. Qed.

Lemma WriteString_ok fs name s n :
  writes_left fs = S n →
  WriteString fs name s
  = ({| files := <[name := default "" (files fs !! name) +:+ s]> (files fs);
        create_errors := create_errors fs;
        writes_left := n;
        write_error := write_error fs |}, None).
Proof. intros H. unfold WriteString. by rewrite H. Qed.

(** The inner loop, when the device takes all its writes: it returns no
    error and has appended the lines of the entries, in the order
    visited. *)
Lemma write_fqdns_ok entries fqdns filename :
  ∀ fs content,
    files fs !! filename = Some content →
    (length entries ≤ writes_left fs)%nat →
    ∃ fs',
      write_fqdns entries fqdns filename fs = (fs', None)
      ∧ files fs' !! filename = Some (content +:+ fqdn_lines fqdns entries)
      ∧ writes_left fs' = (writes_left fs - length entries)%nat.
Proof.
  induction entries as [|[fqdn ip] entries IH]; intros fs content Hc Hq.
  - exists fs. simpl. rewrite str_app_nil_r, Nat.sub_0_r. done.
  - simpl in Hq. destruct (writes_left fs) as [|n] eqn:Hn; [lia|].
    simpl. rewrite (WriteString_ok _ _ _ _ Hn), Hc. simpl.
    match goal with
    | |- context [write_fqdns entries fqdns filename ?f] =>
      destruct (IH f (content +:+ fqdn_line fqdns fqdn ip))
        as (fs' & Hrun & Hfile & Hleft)
    end.
    { simpl. apply lookup_insert_eq. }
    { simpl. lia. }
    exists fs'. split; [exact Hrun|]. split.
    + rewrite Hfile. f_equal. apply str_app_assoc.
    + rewrite Hleft. simpl. lia.
Qed.

Lemma write_asns_cons asnID details rest range_fqdns fqdns filename fs
    org nbs :
  details !! "organization" = Some (IString org) →
  details !! "netblocks" = Some (IStrings nbs) →
  write_asns ((asnID, details) :: rest) range_fqdns fqdns filename fs
  = match WriteString fs filename
            (asn_header asnID org nbs (Z.of_nat (size fqdns))) with
    | (fs', Some err) =>
      Some (fs', Some (Sprintf "failed to write ASN details: %v" [ArgS err]))
    | (fs', None) =>
      match write_fqdns (range_fqdns asnID) fqdns filename fs' with
      | (fs'', Some err) => Some (fs'', Some err)
      | (fs'', None) => write_asns rest range_fqdns fqdns filename fs''
      end
    end.
Proof. intros Horg Hnbs. cbn [write_asns]. rewrite Horg, Hnbs. reflexivity. Qed.

(** The outer loop, on well-formed summaries and with enough writes. *)
Lemma write_asns_ok range_asns range_fqdns fqdns filename :
  ∀ fs content,
    Forall (λ kd, wf_details kd.2) range_asns →
    files fs !! filename = Some content →
    (report_writes range_asns range_fqdns ≤ writes_left fs)%nat →
    ∃ fs',
      write_asns range_asns range_fqdns fqdns filename fs = Some (fs', None)
      ∧ files fs' !! filename
        = Some (content
                +:+ report range_asns range_fqdns fqdns
                      (Z.of_nat (size fqdns))).
Proof.
  induction range_asns as [|[asnID details] range_asns IH];
    intros fs content Hwf Hc Hq.
  - exists fs. simpl. by rewrite str_app_nil_r.
  - apply Forall_cons in Hwf as [([org Horg] & [nbs Hnbs] & _) Hwf].
    simpl in Horg, Hnbs, Hq.
    destruct (writes_left fs) as [|n] eqn:Hn; [lia|].
    rewrite (write_asns_cons _ _ _ _ _ _ _ _ _ Horg Hnbs).
    rewrite (WriteString_ok _ _ _ _ Hn), Hc.
    cbn [default report]. rewrite Horg, Hnbs. cbn [assert_string assert_strings default].
    match goal with
    | |- context [write_fqdns (range_fqdns asnID) fqdns filename ?f] =>
      destruct (write_fqdns_ok (range_fqdns asnID) fqdns filename f
                  (content +:+ asn_header asnID org nbs
                                 (Z.of_nat (size fqdns))))
        as (fs1 & Hrun1 & Hfile1 & Hleft1)
    end.
    { simpl. apply lookup_insert_eq. }
    { simpl. lia. }
    rewrite Hrun1.
    destruct (IH fs1 _ Hwf Hfile1) as (fs' & Hrun & Hfile);
      [rewrite Hleft1; simpl; lia|].
    exists fs'. split; [exact Hrun|].
    rewrite Hfile. f_equal. by rewrite !str_app_assoc.
Qed.

(** C6: in the file that [SaveASNDetailsToFile] writes, every ASN block
    carries the same number on its ["Subdomains:"] line, the size of the
    whole FQDN map, whatever FQDNs the ASN itself has attributed.
    Whenever [os.Create] accepts the name and the device takes the
    writes, the function returns no error and the file holds the report
    laid out with that one number [size fqdns]. *)
Theorem subdomains_line_is_total_count
    (asns : gmap string (gmap string iface)) (fqdns : gmap string string)
    (range_asns : list (string * gmap string iface))
    (range_fqdns : string → list (string * string))
    (filename : string) (fs : fsys) :
  map_Forall (λ _ d, wf_details d) asns →
  range_asns ≡ₚ map_to_list asns →
  (∀ asnID, range_fqdns asnID ≡ₚ map_to_list fqdns) →
  create_errors fs !! filename = None →
  (size asns * S (size fqdns) ≤ writes_left fs)%nat →
  ∃ fs',
    SaveASNDetailsToFile range_asns range_fqdns filename fqdns fs
    = Some (fs', None)
    ∧ files fs' !! filename
      = Some (report range_asns range_fqdns fqdns (Z.of_nat (size fqdns))).
Proof.
  intros Hwf Hasns Hfqdns Hcreate Hquota.
  unfold SaveASNDetailsToFile, os_Create. rewrite Hcreate.
  match goal with
  | |- context [write_asns range_asns range_fqdns fqdns filename ?f] =>
    destruct (write_asns_ok range_asns range_fqdns fqdns filename f "")
      as (fs' & Hrun & Hfile)
  end.
  - rewrite Hasns. apply Forall_forall. intros [k d] Hkd.
    apply elem_of_map_to_list in Hkd. exact (Hwf k d Hkd).
  - simpl. apply lookup_insert_eq.
  - simpl.
    assert (report_writes range_asns range_fqdns
            = (length range_asns * S (size fqdns))%nat) as ->.
    { clear -Hfqdns. induction range_asns as [|[k d] l IH]; [reflexivity|].
      simpl. rewrite IH, (Hfqdns k), length_map_to_list. lia. }
    rewrite Hasns, length_map_to_list. exact Hquota.
  - exists fs'. split; [exact Hrun|]. exact Hfile.
Qed.

Lemma parse_report_records : parse_records report_records = Some report_state.
Proof. vm_compute. reflexivity. Qed.

Lemma subdomains_line_is_total_count_witness :
  ∃ fs',
    SaveASNDetailsToFile (map_to_list (asns report_state))
      (λ _, map_to_list (fqdns report_state))
      "example.com_2026-11-02.txt" (fqdns report_state) blank_disk
    = Some (fs', None)
    ∧ files fs' !! "example.com_2026-11-02.txt"
      = Some (report (map_to_list (asns report_state))
                (λ _, map_to_list (fqdns report_state))
                (fqdns report_state)
                (Z.of_nat (size (fqdns report_state)))).
Proof.
  apply (subdomains_line_is_total_count (asns report_state)).
  - exact (parse_records_wf _ _ parse_report_records).
  - reflexivity.
  - intros _. reflexivity.
  - reflexivity.
  - vm_compute. lia.
Defined.

(** The report of [report_state]: both blocks say ["Subdomains: 1"],
    also the block of ASN 64512, to which no FQDN is attributed. *)
Lemma report_example :
  fqdns_of report_state "64512" = Some []
  ∧ report (map_to_list (asns report_state))
      (λ _, map_to_list (fqdns report_state))
      (fqdns report_state) (Z.of_nat (size (fqdns report_state)))
    = "ASN: 15133 - Akamai Technologies" +:+ nl
      +:+ tab +:+ "Netblocks: " +:+ nl
      +:+ tab +:+ "Subdomains: 1" +:+ nl
      +:+ "www.example.com: 93.184.216.34" +:+ nl
      +:+ "ASN: 64512 - Example Net" +:+ nl
      +:+ tab +:+ "Netblocks: " +:+ nl
      +:+ tab +:+ "Subdomains: 1" +:+ nl
      +:+ "www.example.com: 93.184.216.34" +:+ nl.
Proof. split; vm_compute; reflexivity. Qed.

(** ** The structured path *)

Lemma update_one_skip st addr :
  CIDRStr addr = "" → update_one st addr = Some st.
Proof. intros H. unfold update_one. by rewrite H. Qed.

Lemma update_all_skip st before addr after :
  CIDRStr addr = "" →
  update_all st (before ++ addr :: after) = update_all st (before ++ after).
Proof.
  intros H. revert st. induction before as [|a before IH]; intros st; simpl.
  - by rewrite update_one_skip.
  - destruct (update_one st a) as [st'|]; [simpl; apply IH | reflexivity].
Qed.

(** C8: a record with an empty CIDR string is skipped: processed alone it
    leaves the summary map and the summaries as they were, and in a batch
    the result is that of the batch without it.  Three records with CIDR
    ["10.0.0.0/24"] and ASN 64512, whatever their addresses and
    descriptions, fed to an empty summary map, give a summary for ASN
    64512 whose counter for ["10.0.0.0/24"] is 3. *)
Theorem structured_aggregation :
  (∀ st name addr,
     CIDRStr addr = "" →
     UpdateSummaryData {| Name := name; Addresses := [addr] |} st = Some st)
  ∧ (∀ st name before addr after,
       CIDRStr addr = "" →
       UpdateSummaryData
         {| Name := name; Addresses := before ++ addr :: after |} st
       = UpdateSummaryData
           {| Name := name; Addresses := before ++ after |} st)
  ∧ (∀ name ip1 ip2 ip3 d1 d2 d3,
       ∃ st',
         UpdateSummaryData
           {| Name := name;
              Addresses := [private_addr ip1 d1; private_addr ip2 d2;
                            private_addr ip3 d3] |} empty_store
         = Some st'
         ∧ netblock_count st' 64512 "10.0.0.0/24" = Some 3).
Proof.
  split; [|split].
  - intros st name addr H. unfold UpdateSummaryData. simpl.
    by rewrite update_one_skip.
  - intros st name before addr after H. by apply update_all_skip.
  - intros name ip1 ip2 ip3 d1 d2 d3.
    eexists. split; vm_compute; reflexivity.
Qed.

Lemma structured_aggregation_witness :
  UpdateSummaryData
    {| Name := "www.example.com";
       Addresses := [{| Address := [192; 0; 2; 1]; ASN := 0; CIDRStr := "";
                        Description := "" |}] |} empty_store
  = Some empty_store.
Proof.
  destruct structured_aggregation as [Hskip _].
  apply Hskip. reflexivity.
Defined.

(** ** The redactor *)

Lemma censorString_empty_window input start end_ :
  end_ <= start →
  censorString input start end_
  = Some (string_of_runes (runes_of_string input)).
Proof.
  intros H. unfold censorString.
  replace (Z.to_nat (end_ - start)) with O by lia. reflexivity.
Qed.

(** Where the separator is missing, [censorIP] and [censorNetBlock] get
    the window [0, -1): the loop does not run and the runes are written
    back as they are. *)
Lemma censorIP_without_dot input :
  LastIndex input "." = -1 →
  censorIP input = Some (string_of_runes (runes_of_string input)).
Proof.
  intros H. unfold censorIP. rewrite H.
  by apply censorString_empty_window.
Qed.

Lemma censorNetBlock_without_slash input :
  Index input "/" = -1 →
  censorNetBlock input = Some (string_of_runes (runes_of_string input)).
Proof.
  intros H. unfold censorNetBlock. rewrite H.
  by apply censorString_empty_window.
Qed.

(** C2 fails on the code for [censorDomain]: without a ['.'] in the
    input, [strings.Index] gives [-1] as the start of the window, the
    window [-1, len(input)) is not empty, and the first round of the loop
    reads [runes[-1]]: the function panics on every such input. *)
Theorem censorDomain_without_dot_panics (input : string) :
  Index input "." = -1 → censorDomain input = None.
Proof.
  intros H. unfold censorDomain, censorString. rewrite H.
  replace (Z.to_nat (len input - -1)) with (S (String.length input))
    by (unfold len; lia).
  reflexivity.
Qed.

Lemma censorDomain_without_dot_panics_witness :
  censorDomain "localhost" = None.
Proof.
  apply (censorDomain_without_dot_panics "localhost").
  vm_compute. reflexivity.
Defined.

(** C4 fails on the code for [censorDomain]: on an input without ['.']
    there is no masked output to re-mask, the first call panics. *)
Theorem censorDomain_not_idempotent :
  ¬ idempotent_at censorDomain "localhost".
Proof. intros (t & H & _). vm_compute in H. discriminate H. Qed.

(** *** Bytes, runes and ASCII strings *)

Lemma byte_val_range c : 0 <= byte_val c < 256.
Proof.
  unfold byte_val. pose proof (N_ascii_bounded c). lia.
Qed.

Lemma byte_of_val c : byte_of (byte_val c) = c.
Proof.
  unfold byte_of, byte_val. rewrite N2Z.id. apply ascii_N_embedding.
Qed.

Lemma byte_val_of z : 0 <= z < 256 → byte_val (byte_of z) = z.
Proof.
  intros H. unfold byte_of, byte_val.
  rewrite N_ascii_embedding by lia. lia.
Qed.

Lemma byte_val_inj c d : byte_val c = byte_val d → c = d.
Proof.
  intros H. rewrite <- (byte_of_val c), <- (byte_of_val d). by rewrite H.
Qed.

Lemma length_bytes_of s : length (bytes_of s) = String.length s.
Proof. induction s as [|c s IH]; simpl; [reflexivity|]. by rewrite IH. Qed.

Lemma string_of_bytes_of s : string_of_bytes (bytes_of s) = s.
Proof.
  induction s as [|c s IH]; simpl; [reflexivity|].
  by rewrite byte_of_val, IH.
Qed.

Lemma bytes_of_string_of bs :
  Forall (λ b, 0 <= b < 256) bs → bytes_of (string_of_bytes bs) = bs.
Proof.
  induction 1 as [|b bs Hb _ IH]; simpl; [reflexivity|].
  by rewrite byte_val_of, IH.
Qed.

Lemma is_ascii_Forall s :
  is_ascii s = true ↔ Forall (λ b, 0 <= b < 128) (bytes_of s).
Proof.
  unfold is_ascii. induction s as [|c s IH]; simpl.
  - split; [constructor|reflexivity].
  - rewrite andb_true_iff, IH, Forall_cons, Z.ltb_lt.
    pose proof (byte_val_range c). unfold utf8.RuneSelf. intuition lia.
Qed.

(** On ASCII text [[]rune(s)] is the list of the bytes. *)
Lemma decode_runes_ascii s :
  ∀ fuel, (String.length s ≤ fuel)%nat →
          Forall (λ b, 0 <= b < 128) (bytes_of s) →
          decode_runes fuel s = bytes_of s.
Proof.
  induction s as [|c s IH]; intros fuel Hfuel Hs.
  - by destruct fuel.
  - destruct fuel as [|fuel]; [simpl in Hfuel; lia|].
    simpl in Hs. apply Forall_cons in Hs as [Hc Hs].
    cbn [decode_runes utf8.DecodeRuneInString]. unfold utf8.first.
    replace (byte_val c <? 128) with true by (symmetry; apply Z.ltb_lt; lia).
    cbn [str_drop Z.to_nat Pos.to_nat Pos.iter_op Nat.add bytes_of].
    f_equal. apply IH; [simpl in Hfuel; lia | exact Hs].
Qed.

Lemma runes_of_string_ascii s :
  is_ascii s = true → runes_of_string s = bytes_of s.
Proof.
  intros H%is_ascii_Forall. by apply decode_runes_ascii.
Qed.

(** Runes below [RuneSelf] are written as one byte each. *)
Lemma string_of_runes_ascii rs :
  Forall (λ r, 0 <= r < 128) rs → string_of_runes rs = string_of_bytes rs.
Proof.
  unfold string_of_runes. induction 1 as [|r rs Hr _ IH]; [reflexivity|].
  cbn [flat_map]. unfold utf8.EncodeRune at 1.
  replace ((0 <=? r) && (r <=? utf8.rune1Max)) with true; [simpl; by rewrite IH|].
  symmetry. apply andb_true_iff. unfold utf8.rune1Max.
  rewrite !Z.leb_le. lia.
Qed.

Lemma string_of_runes_of_string s :
  is_ascii s = true → string_of_runes (runes_of_string s) = s.
Proof.
  intros H. rewrite runes_of_string_ascii by exact H.
  rewrite string_of_runes_ascii by (by apply is_ascii_Forall).
  apply string_of_bytes_of.
Qed.

(** *** [Index] and [LastIndex] of a single byte *)

Lemma HasPrefix_byte s ch :
  HasPrefix s (String ch "")
  = match bytes_of s with
    | [] => false
    | x :: _ => x =? byte_val ch
    end.
Proof.
  destruct s as [|c s]; simpl; [reflexivity|].
  destruct (decide (ch = c)) as [->|Hne].
  - by rewrite Z.eqb_refl.
  - symmetry. apply Z.eqb_neq. intros H. apply Hne. symmetry.
    by apply byte_val_inj.
Qed.

Lemma index_nat_byte s ch :
  index_nat s (String ch "") = find_first (byte_val ch) (bytes_of s).
Proof.
  induction s as [|c s IH].
  - reflexivity.
  - cbn [index_nat]. rewrite HasPrefix_byte. cbn [bytes_of find_first].
    destruct (byte_val c =? byte_val ch); [reflexivity|]. by rewrite IH.
Qed.

Lemma last_index_nat_byte s ch :
  last_index_nat s (String ch "") = find_last (byte_val ch) (bytes_of s).
Proof.
  induction s as [|c s IH].
  - reflexivity.
  - cbn [last_index_nat]. rewrite HasPrefix_byte, IH. reflexivity.
Qed.

Lemma find_first_lt b bs i : find_first b bs = Some i → (i < length bs)%nat.
Proof.
  revert i. induction bs as [|x bs IH]; intros i; simpl; [discriminate|].
  destruct (x =? b); [intros [= <-]; lia|].
  destruct (find_first b bs) as [j|]; [|discriminate].
  intros [= <-]. specialize (IH j eq_refl). lia.
Qed.

Lemma find_last_lt b bs i : find_last b bs = Some i → (i < length bs)%nat.
Proof.
  revert i. induction bs as [|x bs IH]; intros i; simpl; [discriminate|].
  destruct (find_last b bs) as [j|].
  - intros [= <-]. specialize (IH j eq_refl). lia.
  - destruct (x =? b); [intros [= <-]; lia | discriminate].
Qed.

Lemma find_first_same b bs bs' :
  same_positions b bs bs' → find_first b bs = find_first b bs'.
Proof.
  induction 1 as [|x y bs bs' Hxy _ IH]; simpl; [reflexivity|].
  by rewrite Hxy, IH.
Qed.

Lemma find_last_same b bs bs' :
  same_positions b bs bs' → find_last b bs = find_last b bs'.
Proof.
  induction 1 as [|x y bs bs' Hxy _ IH]; simpl; [reflexivity|].
  by rewrite Hxy, IH.
Qed.

(** *** The loop of [censorString] *)

Lemma mask_idem r : mask (mask r) = mask r.
Proof.
  unfold mask. destruct (kept r) eqn:Hr; [by rewrite Hr | reflexivity].
Qed.

Lemma mask_range r : 0 <= r < 128 → 0 <= mask r < 128.
Proof. unfold mask. destruct (kept r); lia. Qed.

(** Masking neither removes nor creates a byte that is let through. *)
Lemma mask_eqb b r : kept b = true → (mask r =? b) = (r =? b).
Proof.
  intros Hb. unfold mask. destruct (kept r) eqn:Hr; [reflexivity|].
  assert (r ≠ b) by congruence.
  assert (120 ≠ b) by (intros <-; discriminate Hb).
  transitivity false; [apply Z.eqb_neq | symmetry; apply Z.eqb_neq]; done.
Qed.

Lemma mask_window_lookup lo n rs k :
  mask_window lo n rs !! k
  = (λ r, if decide (lo ≤ k < lo + n)%nat then mask r else r) <$> rs !! k.
Proof. unfold mask_window. apply list_lookup_imap. Qed.

Lemma length_mask_window lo n rs : length (mask_window lo n rs) = length rs.
Proof. apply length_imap. Qed.

(** The loop, started at an index [lo] with [n] rounds that stay inside
    the runes, returns them with the window masked. *)
Lemma censor_loop_spec n :
  ∀ lo rs,
    (lo + n ≤ length rs)%nat →
    censor_loop n (Z.of_nat lo) rs = Some (mask_window lo n rs).
Proof.
  induction n as [|n IH]; intros lo rs Hlen.
  - simpl. f_equal. apply list_eq. intros k.
    rewrite mask_window_lookup. destruct (rs !! k); simpl; [|reflexivity].
    by rewrite decide_False by lia.
  - destruct (lookup_lt_is_Some_2 rs lo) as [r Hr]; [lia|].
    cbn [censor_loop]. unfold rune_at.
    replace (Z.of_nat lo <? 0) with false by (symmetry; apply Z.ltb_ge; lia).
    rewrite Nat2Z.id, Hr. cbn [mbind option_bind].
    replace (Z.of_nat lo + 1) with (Z.of_nat (S lo)) by lia.
    assert ((if kept r then censor_loop n (Z.of_nat (S lo)) rs
             else censor_loop n (Z.of_nat (S lo)) (<[lo := 120]> rs))
            = censor_loop n (Z.of_nat (S lo)) (<[lo := mask r]> rs)) as ->.
    { unfold mask. destruct (kept r); [|reflexivity].
      by rewrite list_insert_id. }
    rewrite IH by (rewrite length_insert; lia).
    f_equal. apply list_eq. intros k.
    rewrite !mask_window_lookup.
    destruct (decide (k = lo)) as [->|Hne].
    + rewrite list_lookup_insert_eq by lia. rewrite Hr. simpl.
      rewrite decide_False by lia. by rewrite decide_True by lia.
    + rewrite list_lookup_insert_ne by congruence.
      destruct (rs !! k); simpl; [|reflexivity].
      repeat case_decide; try reflexivity; lia.
Qed.

Lemma mask_window_ascii lo n bs :
  Forall (λ b, 0 <= b < 128) bs →
  Forall (λ b, 0 <= b < 128) (mask_window lo n bs).
Proof.
  intros H. apply Forall_lookup. intros k x.
  rewrite mask_window_lookup.
  destruct (bs !! k) as [b|] eqn:Hb; simpl; [|discriminate].
  intros [= <-]. pose proof (Forall_lookup_1 _ _ _ _ H Hb) as Hr.
  simpl in Hr. case_decide; [by apply mask_range | exact Hr].
Qed.

Lemma mask_window_same_positions b lo n bs :
  kept b = true → same_positions b bs (mask_window lo n bs).
Proof.
  intros Hb. apply Forall2_same_length_lookup.
  split; [by rewrite length_mask_window|].
  intros k x y Hx. rewrite mask_window_lookup, Hx. simpl. intros [= <-].
  case_decide; [by rewrite mask_eqb | reflexivity].
Qed.

Lemma mask_window_idem lo n bs :
  mask_window lo n (mask_window lo n bs) = mask_window lo n bs.
Proof.
  apply list_eq. intros k. rewrite !mask_window_lookup.
  destruct (bs !! k); simpl; [|reflexivity].
  case_decide; [by rewrite mask_idem | reflexivity].
Qed.

(** [censorString] on ASCII text with a window inside the text. *)
Lemma censorString_ascii s lo n :
  is_ascii s = true →
  (lo + n ≤ String.length s)%nat →
  censorString s (Z.of_nat lo) (Z.of_nat (lo + n))
  = Some (string_of_bytes (mask_window lo n (bytes_of s))).
Proof.
  intros Hs Hlen. unfold censorString.
  rewrite runes_of_string_ascii by exact Hs.
  replace (Z.to_nat (Z.of_nat (lo + n) - Z.of_nat lo)) with n by lia.
  rewrite censor_loop_spec by (rewrite length_bytes_of; lia).
  simpl. f_equal. apply string_of_runes_ascii, mask_window_ascii.
  by apply is_ascii_Forall.
Qed.

(** The masked text is ASCII again, has the separators where the input
    has them, and masking its window once more changes nothing. *)
Lemma censorString_ascii_again s lo n :
  is_ascii s = true →
  (lo + n ≤ String.length s)%nat →
  ∃ t,
    censorString s (Z.of_nat lo) (Z.of_nat (lo + n)) = Some t
    ∧ is_ascii t = true
    ∧ String.length t = String.length s
    ∧ (∀ b, kept b = true → same_positions b (bytes_of s) (bytes_of t))
    ∧ censorString t (Z.of_nat lo) (Z.of_nat (lo + n)) = Some t.
Proof.
  intros Hs Hlen. pose proof (proj1 (is_ascii_Forall s) Hs) as Hbs.
  pose proof (mask_window_ascii lo n _ Hbs) as Hms.
  set (t := string_of_bytes (mask_window lo n (bytes_of s))).
  assert (bytes_of t = mask_window lo n (bytes_of s)) as Ht.
  { apply bytes_of_string_of. eapply Forall_impl; [exact Hms|].
    simpl. intros; lia. }
  assert (String.length t = String.length s) as Hl.
  { by rewrite <- !length_bytes_of, Ht, length_mask_window. }
  assert (is_ascii t = true) as Hta by (apply is_ascii_Forall; by rewrite Ht).
  exists t. split; [by apply censorString_ascii|].
  split; [exact Hta|]. split; [exact Hl|]. split.
  - intros b Hb. rewrite Ht. by apply mask_window_same_positions.
  - rewrite censorString_ascii by (done || lia).
    by rewrite Ht, mask_window_idem.
Qed.

(** *** Idempotence on ASCII text *)

Lemma Index_byte s ch :
  Index s (String ch "")
  = match find_first (byte_val ch) (bytes_of s) with
    | Some i => Z.of_nat i
    | None => -1
    end.
Proof. unfold Index. by rewrite index_nat_byte. Qed.

Lemma LastIndex_byte s ch :
  LastIndex s (String ch "")
  = match find_last (byte_val ch) (bytes_of s) with
    | Some i => Z.of_nat i
    | None => -1
    end.
Proof. unfold LastIndex. by rewrite last_index_nat_byte. Qed.

Lemma censorIP_ascii_idempotent s :
  is_ascii s = true → idempotent_at censorIP s.
Proof.
  intros Hs. unfold idempotent_at, censorIP.
  rewrite LastIndex_byte.
  destruct (find_last (byte_val ".") (bytes_of s)) as [i|] eqn:Hi.
  - apply find_last_lt in Hi as Hlt. rewrite length_bytes_of in Hlt.
    destruct (censorString_ascii_again s O i Hs) as (t & H1 & _ & _ & Hp & H2);
      [lia|].
    exists t. split; [exact H1|].
    rewrite LastIndex_byte, <- (find_last_same _ _ _ (Hp (byte_val ".") eq_refl)), Hi.
    exact H2.
  - assert (censorString s 0 (-1) = Some s) as Hsame.
    { rewrite censorString_empty_window by lia.
      by rewrite string_of_runes_of_string. }
    exists s. split; [exact Hsame|].
    by rewrite LastIndex_byte, Hi.
Qed.

Lemma censorNetBlock_ascii_idempotent s :
  is_ascii s = true → idempotent_at censorNetBlock s.
Proof.
  intros Hs. unfold idempotent_at, censorNetBlock.
  rewrite Index_byte.
  destruct (find_first (byte_val "/") (bytes_of s)) as [i|] eqn:Hi.
  - apply find_first_lt in Hi as Hlt. rewrite length_bytes_of in Hlt.
    destruct (censorString_ascii_again s O i Hs) as (t & H1 & _ & _ & Hp & H2);
      [lia|].
    exists t. split; [exact H1|].
    rewrite Index_byte, <- (find_first_same _ _ _ (Hp (byte_val "/") eq_refl)), Hi.
    exact H2.
  - assert (censorString s 0 (-1) = Some s) as Hsame.
    { rewrite censorString_empty_window by lia.
      by rewrite string_of_runes_of_string. }
    exists s. split; [exact Hsame|].
    by rewrite Index_byte, Hi.
Qed.

Lemma censorDomain_ascii_idempotent s :
  is_ascii s = true → Index s "." ≠ -1 → idempotent_at censorDomain s.
Proof.
  intros Hs Hdot. unfold idempotent_at, censorDomain. revert Hdot.
  rewrite Index_byte.
  destruct (find_first (byte_val ".") (bytes_of s)) as [i|] eqn:Hi; [|done].
  intros _. apply find_first_lt in Hi as Hlt. rewrite length_bytes_of in Hlt.
  destruct (censorString_ascii_again s i (String.length s - i) Hs)
    as (t & H1 & _ & Hl & Hp & H2); [lia|].
  replace (i + (String.length s - i))%nat with (String.length s) in H1, H2
    by lia.
  exists t. split; [exact H1|].
  rewrite Index_byte, <- (find_first_same _ _ _ (Hp (byte_val ".") eq_refl)), Hi.
  unfold len. rewrite Hl. exact H2.
Qed.

(** Apart from the panics, the redactors are idempotent on ASCII text:
    [censorIP] and [censorNetBlock] on every ASCII string, [censorDomain]
    on every ASCII string that has a ['.']. *)
Lemma censor_ascii_idempotent s :
  is_ascii s = true →
  idempotent_at censorIP s
  ∧ idempotent_at censorNetBlock s
  ∧ (Index s "." ≠ -1 → idempotent_at censorDomain s).
Proof.
  intros Hs. split; [by apply censorIP_ascii_idempotent|].
  split; [by apply censorNetBlock_ascii_idempotent|].
  by apply censorDomain_ascii_idempotent.
Qed.

(** A byte index used as a rune index: with a character of several
    bytes before the separator the window runs past the runes, and
    [censorDomain] panics on any such character whatever the dots. *)
Lemma multibyte_text_panics :
  censorDomain "é.com" = None ∧ censorIP "ééé.b" = None.
Proof. split; vm_compute; reflexivity. Qed.

(** ** More on the structured path *)

(** The first record of an ASN creates its summary, named by the
    description of that record, with the counter of its netblock at 1. *)
Lemma update_one_new st addr :
  CIDRStr addr ≠ "" →
  asnmap st !! ASN addr = None →
  ∃ st',
    update_one st addr = Some st'
    ∧ summary_of st' (ASN addr)
      = Some {| SName := Description addr;
                Netblocks := Some {[ CIDRStr addr := 1 ]} |}.
Proof.
  intros Hc Hnew. unfold update_one.
  rewrite bool_decide_eq_false_2 by exact Hc. rewrite Hnew.
  cbn [asnmap heap]. rewrite lookup_insert_eq. cbn [mbind option_bind].
  unfold increment. cbn [heap asnmap]. rewrite lookup_insert_eq.
  cbn [mbind option_bind Netblocks SName]. eexists. split; [reflexivity|].
  unfold summary_of. cbn [asnmap heap]. rewrite lookup_insert_eq.
  cbn [mbind option_bind]. rewrite lookup_insert_eq.
  rewrite lookup_empty. reflexivity.
Qed.

(** A later record of the same ASN keeps the name and counts one more
    address in its netblock. *)
Lemma update_one_known st addr l d nb :
  CIDRStr addr ≠ "" →
  asnmap st !! ASN addr = Some (Addr l) →
  heap st !! l = Some d →
  Netblocks d = Some nb →
  ∃ st',
    update_one st addr = Some st'
    ∧ asnmap st' = asnmap st
    ∧ summary_of st' (ASN addr)
      = Some {| SName := SName d;
                Netblocks :=
                  Some (<[CIDRStr addr :=
                            wrap64 (default 0 (nb !! CIDRStr addr) + 1)]> nb) |}.
Proof.
  intros Hc Hasn Hd Hnb. unfold update_one.
  rewrite bool_decide_eq_false_2 by exact Hc. rewrite Hasn.
  unfold increment. rewrite Hd. cbn [mbind option_bind]. rewrite Hnb.
  cbn [mbind option_bind]. eexists. split; [reflexivity|].
  split; [reflexivity|].
  unfold summary_of. cbn [asnmap heap]. rewrite Hasn.
  cbn [mbind option_bind]. by rewrite lookup_insert_eq.
Qed.

(** First seen wins: of two records for one ASN, the description of the
    first names the summary. *)
Lemma first_description_wins a1 a2 :
  CIDRStr a1 ≠ "" → CIDRStr a2 ≠ "" → ASN a2 = ASN a1 →
  ∃ st',
    update_all empty_store [a1; a2] = Some st'
    ∧ SName <$> summary_of st' (ASN a1) = Some (Description a1).
Proof.
  intros H1 H2 Hasn.
  destruct (update_one_new empty_store a1 H1) as (st1 & Hu1 & Hs1);
    [apply lookup_empty|].
  cbn [update_all]. rewrite Hu1. cbn [mbind option_bind].
  unfold summary_of in Hs1.
  destruct (asnmap st1 !! ASN a1) as [[|l]|] eqn:Hl; try discriminate Hs1.
  cbn [mbind option_bind] in Hs1.
  edestruct (update_one_known st1 a2 l) as (st2 & Hu2 & _ & Hs2);
    [exact H2 | by rewrite Hasn | exact Hs1 | reflexivity |].
  rewrite Hu2. cbn [mbind option_bind]. exists st2. split; [reflexivity|].
  rewrite <- Hasn, Hs2. reflexivity.
Qed.

(** Bytes that are not valid UTF-8 come back from [string(runes)] as the
    three bytes of U+FFFD, so the masked output can be longer in bytes
    than in runes: [censorDomain] returns on the input [\xff.a] and
    panics on its own output. *)
Lemma invalid_utf8_output_panics :
  ∃ t, censorDomain (String (byte_of 255) ".a") = Some t
       ∧ censorDomain t = None.
Proof. eexists. split; vm_compute; reflexivity. Qed.

(** ** The record parser as a whole *)

Lemma bare_asn_record_true record :
  bare_asn_record record = true ↔
  ∃ p0 p1 p2 rest,
    Split record " --> " = p0 :: p1 :: p2 :: rest
    ∧ HasSuffix (TrimSpace p2) " (Netblock)" = false
    ∧ TrimSpace p0 = "(ASN)".
Proof.
  unfold bare_asn_record. split.
  - destruct (Split record " --> ") as [|p0 [|p1 [|p2 rest]]];
      try discriminate.
    intros [Hv Hl]%andb_true_iff.
    apply negb_true_iff in Hv. apply bool_decide_eq_true in Hl. eauto 10.
  - intros (p0 & p1 & p2 & rest & -> & Hv & Hl).
    rewrite Hv. simpl. by apply bool_decide_eq_true.
Qed.

Lemma process_record_None_bare st record :
  wf_state st →
  process_record st record = None ↔ bare_asn_record record = true.
Proof.
  intros Hwf. rewrite bare_asn_record_true. by apply process_record_None.
Qed.

Lemma parse_from_None records :
  ∀ st, wf_state st →
        parse_from st records = None ↔
        Exists (λ r, bare_asn_record r = true) records.
Proof.
  induction records as [|r rs IH]; intros st Hwf; simpl.
  - split; [discriminate | by intros ?%Exists_nil].
  - rewrite Exists_cons.
    destruct (process_record st r) as [st1|] eqn:Hr; simpl.
    + rewrite (IH st1) by (by eapply process_record_wf).
      split; [tauto|]. intros [Hb|?]; [|done].
      apply (process_record_None_bare st r Hwf) in Hb. congruence.
    + split; [|done]. intros _. left.
      by apply (process_record_None_bare st r Hwf).
Qed.

(** X1: the parsing loop of [PrintEnumerationSummary] panics exactly when
    some record has at least three segments, the bare tag ["(ASN)"] as
    its trimmed left segment and a value without the Netblock tag; on
    every other list of records it runs to the end. *)
Theorem parser_panics_iff (records : list string) :
  parse_records records = None ↔
  Exists (λ r, bare_asn_record r = true) records.
Proof. apply parse_from_None, wf_state_empty. Qed.

(** X2: in every state the parser reaches, every ASN of the index has its
    three fields with the types the type assertions expect: reading the
    organization, the netblocks or the FQDNs of a known ASN never
    panics. *)
Theorem reachable_summaries_complete
    (records : list string) (st : parser_state) :
  parse_records records = Some st →
  ∀ asnID, asnID ∈ dom (asns st) →
    is_Some (organization_of st asnID)
    ∧ is_Some (netblocks_of st asnID)
    ∧ is_Some (fqdns_of st asnID).
Proof.
  intros Hparse asnID [d Hd]%elem_of_dom.
  apply parse_from_wf in Hparse; [|apply wf_state_empty].
  destruct (Hparse asnID d Hd) as ([o Ho] & [nb Hnb] & [fq Hfq]).
  unfold organization_of, netblocks_of, fqdns_of, strings_of.
  rewrite Hd. simpl. rewrite Ho, Hnb, Hfq. simpl. eauto.
Qed.

Lemma reachable_summaries_complete_witness :
  parse_records report_records = Some report_state
  ∧ ∀ asnID, asnID ∈ dom (asns report_state) →
      is_Some (organization_of report_state asnID)
      ∧ is_Some (netblocks_of report_state asnID)
      ∧ is_Some (fqdns_of report_state asnID).
Proof.
  split; [vm_compute; reflexivity|].
  apply (reachable_summaries_complete report_records report_state).
  vm_compute. reflexivity.
Defined.

Lemma relation_fqdn_index st left value st' :
  wf_state st → fqdn_index_ok st →
  relation st left value = Some st' → fqdn_index_ok st'.
Proof.
  intros Hwf [Hkeys Hattr]. unfold relation.
  destruct (HasSuffix value " (Netblock)") eqn:Hv.
  { rewrite fan_out_netblocks by exact Hwf. intros [= <-].
    split; [exact Hkeys|]. intros asnID l x. unfold fqdns_of. simpl.
    rewrite strings_of_attach, decide_False by discriminate.
    apply Hattr. }
  destruct (HasSuffix left "(ASN)") eqn:Ha.
  { destruct (slice left 0 _) as [asnID|]; [simpl|discriminate].
    destruct (_ && _); intros [= <-]; [|by split].
    split; [exact Hkeys|]. intros asnID' l x.
    unfold fqdns_of, strings_of. simpl. rewrite lookup_insert.
    case_decide as Hk; [|apply Hattr].
    simpl. intros [= <-]. by intros ?%elem_of_nil. }
  destruct (HasSuffix left "(FQDN)") eqn:Hl; [|by intros [= <-]].
  assert (∀ k v, <[left := value]> (fqdns st) !! k = Some v →
                 HasSuffix k "(FQDN)" = true
                 ∧ HasSuffix v " (Netblock)" = false) as Hkeys'.
  { intros k v. rewrite lookup_insert. case_decide as Hk.
    - intros [= <-]. by subst k.
    - apply Hkeys. }
  assert (∀ x, is_Some (fqdns st !! x) →
               is_Some (<[left := value]> (fqdns st) !! x)) as Hmono.
  { intros x Hx. rewrite lookup_insert. by case_decide. }
  destruct (HasSuffix value "(IPAddress)"); simpl.
  - rewrite fan_out_fqdns by exact Hwf. intros [= <-].
    split; [exact Hkeys'|]. intros asnID l x. unfold fqdns_of. simpl.
    rewrite strings_of_attach, decide_True by reflexivity.
    destruct (strings_of (asns st) "fqdns" asnID) as [l0|] eqn:Hl0;
      [simpl|discriminate].
    intros [= <-]. rewrite elem_of_app, list_elem_of_singleton.
    intros [Hin| ->].
    + apply Hmono. by apply (Hattr asnID l0).
    + rewrite lookup_insert_eq. eauto.
  - intros [= <-]. split; [exact Hkeys'|]. intros asnID l x Hl0 Hin.
    apply Hmono. by apply (Hattr asnID l).
Qed.

Lemma parse_from_fqdn_index records :
  ∀ st st', wf_state st → fqdn_index_ok st →
            parse_from st records = Some st' → fqdn_index_ok st'.
Proof.
  induction records as [|r rs IH]; intros st st' Hwf Hinv; simpl.
  - by intros [= <-].
  - destruct (process_record st r) as [st1|] eqn:Hr; [simpl|discriminate].
    apply IH; [by eapply process_record_wf|].
    revert Hr. unfold process_record.
    destruct (_ <? 3); [by intros [= <-]|].
    destruct (_ !! 0%nat); [simpl|discriminate].
    destruct (_ !! 2%nat); [simpl|discriminate].
    by apply relation_fqdn_index.
Qed.

(** X3: in every state the parser reaches, every key of the FQDN
    resolution map ends with the tag ["(FQDN)"], no value of it ends with
    the Netblock tag, and every FQDN attributed to an ASN is a key of the
    map: the report can resolve every FQDN it lists. *)
Theorem fqdn_index_invariant (records : list string) (st : parser_state) :
  parse_records records = Some st →
  (∀ k v, fqdns st !! k = Some v →
          HasSuffix k "(FQDN)" = true
          ∧ HasSuffix v " (Netblock)" = false)
  ∧ (∀ asnID l x, fqdns_of st asnID = Some l → x ∈ l →
                  is_Some (fqdns st !! x)).
Proof.
  intros Hparse.
  apply (parse_from_fqdn_index records empty_state st);
    [apply wf_state_empty| |exact Hparse].
  split.
  - intros k v. simpl. by rewrite lookup_empty.
  - intros asnID l x. unfold fqdns_of, strings_of. simpl.
    by rewrite lookup_empty.
Qed.

Lemma fqdn_index_invariant_witness :
  (∀ k v, fqdns report_state !! k = Some v →
          HasSuffix k "(FQDN)" = true
          ∧ HasSuffix v " (Netblock)" = false)
  ∧ (∀ asnID l x, fqdns_of report_state asnID = Some l → x ∈ l →
                  is_Some (fqdns report_state !! x)).
Proof.
  apply (fqdn_index_invariant report_records report_state).
  vm_compute. reflexivity.
Defined.

Lemma slice_ASN_Some left :
  HasSuffix left "(ASN)" = true →
  left ≠ "(ASN)" →
  slice left 0 (len left - len " (ASN)")
  = Some (str_take (Z.to_nat (len left - 6)) left).
Proof.
  intros Ha Hne.
  destruct (slice left 0 (len left - len " (ASN)")) as [asnID|] eqn:Hs.
  - revert Hs. unfold slice. destruct (_ && _); [|discriminate].
    intros [= <-]. change (len " (ASN)") with 6.
    by rewrite Z.sub_0_r.
  - by apply (slice_ASN_None _ Ha) in Hs.
Qed.

(** X4: an ASN record overwrites.  A record of at least three segments
    whose trimmed left segment ends with ["(ASN)"] (and is more than the
    bare tag) and whose trimmed value holds a space, ends with
    ["(RIROrganization)"] and not with the Netblock tag, stores a fresh
    summary under the left segment without its last six bytes: the
    organization is the value without [" (RIROrganization)"], and the
    netblocks and FQDNs the ASN had collected before are gone.  The other
    ASNs and the FQDN resolution map are untouched. *)
Theorem asn_record_resets_summary
    (st : parser_state) (record p0 p1 p2 : string) (rest : list string) :
  Split record " --> " = p0 :: p1 :: p2 :: rest →
  HasSuffix (TrimSpace p2) " (Netblock)" = false →
  HasSuffix (TrimSpace p0) "(ASN)" = true →
  TrimSpace p0 ≠ "(ASN)" →
  (2 ≤ length (Split (TrimSpace p2) " "))%nat →
  HasSuffix (TrimSpace p2) "(RIROrganization)" = true →
  let asnID := str_take (Z.to_nat (len (TrimSpace p0) - 6)) (TrimSpace p0) in
  ∃ st',
    process_record st record = Some st'
    ∧ organization_of st' asnID
      = Some (TrimSuffix (TrimSpace p2) " (RIROrganization)")
    ∧ netblocks_of st' asnID = Some []
    ∧ fqdns_of st' asnID = Some []
    ∧ (∀ other, other ≠ asnID → asns st' !! other = asns st !! other)
    ∧ fqdns st' = fqdns st.
Proof.
  intros Hsplit Hv Ha Hne Hsp Horg asnID.
  rewrite (process_record_relation _ _ _ _ _ _ Hsplit).
  unfold relation. rewrite Hv, Ha, (slice_ASN_Some _ Ha Hne), Horg.
  cbn [mbind option_bind].
  rewrite (proj2 (Z.leb_le 2 _)) by lia. cbn [andb].
  eexists. split; [reflexivity|].
  unfold organization_of, netblocks_of, fqdns_of, strings_of. cbn [asns fqdns].
  fold asnID. rewrite lookup_insert_eq. cbn [mbind option_bind].
  repeat split.
  intros other Hother. by rewrite lookup_insert_ne.
Qed.

Lemma asn_record_resets_summary_witness :
  netblocks_of akamai_with_netblock "15133" = Some ["93.184.0.0/16"]
  ∧ ∃ st',
      process_record akamai_with_netblock akamai_asn_line = Some st'
      ∧ organization_of st' "15133" = Some "Akamai Technologies"
      ∧ netblocks_of st' "15133" = Some []
      ∧ fqdns_of st' "15133" = Some []
      ∧ (∀ other, other ≠ "15133" →
           asns st' !! other = asns akamai_with_netblock !! other)
      ∧ fqdns st' = fqdns akamai_with_netblock.
Proof.
  split; [vm_compute; reflexivity|].
  apply (asn_record_resets_summary akamai_with_netblock akamai_asn_line
           "15133 (ASN)" "is" "Akamai Technologies (RIROrganization)" []).
  - vm_compute. reflexivity.
  - vm_compute. reflexivity.
  - vm_compute. reflexivity.
  - vm_compute. discriminate.
  - vm_compute. lia.
  - vm_compute. reflexivity.
Defined.

(** X5: relations that arrive while no ASN is known are not attributed
    to any ASN later.  On an empty ASN index a netblock relation leaves
    the state as it is, and an FQDN-to-IP relation only records the
    resolution. *)
Theorem relations_without_asn_are_lost
    (st : parser_state) (record p0 p1 p2 : string) (rest : list string) :
  asns st = ∅ →
  Split record " --> " = p0 :: p1 :: p2 :: rest →
  (HasSuffix (TrimSpace p2) " (Netblock)" = true →
   process_record st record = Some st)
  ∧ (HasSuffix (TrimSpace p2) " (Netblock)" = false →
     HasSuffix (TrimSpace p0) "(FQDN)" = true →
     process_record st record
     = Some {| asns := ∅;
               fqdns := <[TrimSpace p0 := TrimSpace p2]> (fqdns st) |}).
Proof.
  intros Hempty Hsplit.
  assert (wf_state st) as Hwf.
  { unfold wf_state. rewrite Hempty. apply map_Forall_empty. }
  rewrite (process_record_relation _ _ _ _ _ _ Hsplit). split.
  - intros Hv. rewrite (relation_netblock _ _ _ Hwf Hv).
    rewrite Hempty, fmap_empty. destruct st as [a f]. simpl in Hempty.
    by subst a.
  - intros Hv Hl. destruct (HasSuffix (TrimSpace p2) "(IPAddress)") eqn:Hip.
    + rewrite (relation_fqdn_ip _ _ _ Hwf Hv Hl Hip).
      by rewrite Hempty, fmap_empty.
    + rewrite (relation_fqdn_alias _ _ _ Hv Hl Hip). by rewrite Hempty.
Qed.

Lemma relations_without_asn_are_lost_witness :
  process_record empty_state akamai_netblock_line = Some empty_state
  ∧ process_record empty_state www_ip_line
    = Some {| asns := ∅;
              fqdns := <[TrimSpace "www.example.com (FQDN)"
                         := TrimSpace "93.184.216.34 (IPAddress)"]>
                         (fqdns empty_state) |}.
Proof.
  split.
  - apply (relations_without_asn_are_lost empty_state akamai_netblock_line
             "15133 (ASN)" "announces" "93.184.0.0/16 (Netblock)" []).
    + reflexivity.
    + vm_compute. reflexivity.
    + vm_compute. reflexivity.
  - apply (relations_without_asn_are_lost empty_state www_ip_line
             "www.example.com (FQDN)" "a_record"
             "93.184.216.34 (IPAddress)" []).
    + reflexivity.
    + vm_compute. reflexivity.
    + vm_compute. reflexivity.
    + vm_compute. reflexivity.
Defined.

Lemma relation_dom st left value st' :
  wf_state st →
  relation st left value = Some st' →
  dom (asns st) ⊆ dom (asns st') ∧ dom (fqdns st) ⊆ dom (fqdns st').
Proof.
  intros Hwf. unfold relation.
  destruct (HasSuffix value " (Netblock)") eqn:Hv.
  { rewrite fan_out_netblocks by exact Hwf. intros [= <-]. simpl.
    by rewrite dom_fmap_L. }
  destruct (HasSuffix left "(ASN)") eqn:Ha.
  { destruct (slice left 0 _) as [asnID|]; [simpl|discriminate].
    destruct (_ && _); intros [= <-]; [|done]. simpl.
    rewrite dom_insert_L. set_solver. }
  destruct (HasSuffix left "(FQDN)") eqn:Hl; [|by intros [= <-]].
  destruct (HasSuffix value "(IPAddress)"); simpl.
  - rewrite fan_out_fqdns by exact Hwf. intros [= <-]. simpl.
    rewrite dom_fmap_L, dom_insert_L. set_solver.
  - intros [= <-]. simpl. rewrite dom_insert_L. set_solver.
Qed.

(** X6: the parser never forgets a key: from a well-formed state, after
    any list of records that it processes to the end, every ASN that was
    in the index is still in it and every FQDN that had a resolution
    still has one. *)
Theorem parser_never_forgets
    (records : list string) (st st' : parser_state) :
  wf_state st →
  parse_from st records = Some st' →
  dom (asns st) ⊆ dom (asns st') ∧ dom (fqdns st) ⊆ dom (fqdns st').
Proof.
  revert st. induction records as [|r rs IH]; intros st Hwf; simpl.
  - by intros [= <-].
  - destruct (process_record st r) as [st1|] eqn:Hr; [simpl|discriminate].
    intros Hrest.
    destruct (IH st1) as [Ha Hf];
      [by eapply process_record_wf | exact Hrest |].
    assert (dom (asns st) ⊆ dom (asns st1)
            ∧ dom (fqdns st) ⊆ dom (fqdns st1)) as [Ha1 Hf1].
    { revert Hr. unfold process_record.
      destruct (_ <? 3); [by intros [= <-]|].
      destruct (_ !! 0%nat); [simpl|discriminate].
      destruct (_ !! 2%nat); [simpl|discriminate].
      by apply relation_dom. }
    split; [by transitivity (dom (asns st1))
           | by transitivity (dom (fqdns st1))].
Qed.

Lemma parser_never_forgets_witness :
  dom (asns akamai_state) ⊆ dom (asns report_state)
  ∧ dom (fqdns akamai_state) ⊆ dom (fqdns report_state).
Proof.
  apply (parser_never_forgets
           [www_ip_line;
            "64512 (ASN) --> is --> Example Net (RIROrganization)"]).
  - apply wf_akamai_state.
  - vm_compute. reflexivity.
Defined.

(** X7: the order in which [range] visits the ASNs does not matter to the
    fan-out loops: on a well-formed state, visiting the keys of the index
    in any order appends the element to the netblocks (or to the FQDNs)
    of every ASN, once. *)
Theorem fan_out_order_irrelevant
    (st : parser_state) (field x : string) (keys : list string) :
  wf_state st →
  field = "netblocks" ∨ field = "fqdns" →
  keys ≡ₚ range_keys (asns st) →
  range_append field x keys (asns st) = Some (attach field x <$> asns st).
Proof.
  intros Hwf Hfield Hperm. apply range_append_all; [exact Hperm|].
  intros k d Hd. destruct (Hwf k d Hd) as (_ & Hnb & Hfq).
  by destruct Hfield as [-> | ->].
Qed.

Lemma fan_out_order_irrelevant_witness :
  range_append "netblocks" "10.0.0.0/8"
    (reverse (range_keys (asns two_asns))) (asns two_asns)
  = Some (attach "netblocks" "10.0.0.0/8" <$> asns two_asns).
Proof.
  apply (fan_out_order_irrelevant two_asns).
  - apply wf_two_asns.
  - by left.
  - apply reverse_Permutation.
Defined.

(** ** The persisted report: failures *)

Lemma fqdn_lines_app fqdns l1 l2 :
  fqdn_lines fqdns (l1 ++ l2) = fqdn_lines fqdns l1 +:+ fqdn_lines fqdns l2.
Proof.
  induction l1 as [|[fqdn ip] l1 IH]; [reflexivity|].
  cbn [app fqdn_lines]. by rewrite IH, str_app_assoc.
Qed.

(** The inner loop when the device gives up before the last entry: the
    error of the failed write is returned, wrapped, and the lines written
    so far stay in the file. *)
Lemma write_fqdns_fail entries fqdns filename :
  ∀ fs content,
    files fs !! filename = Some content →
    (writes_left fs < length entries)%nat →
    ∃ fs',
      write_fqdns entries fqdns filename fs
      = (fs', Some (Sprintf "failed to write FQDN details: %v"
                      [ArgS (write_error fs)]))
      ∧ files fs' !! filename
        = Some (content
                +:+ fqdn_lines fqdns (take (writes_left fs) entries))
      ∧ writes_left fs' = O.
Proof.
  induction entries as [|[fqdn ip] entries IH]; intros fs content Hc Hq.
  - simpl in Hq. lia.
  - cbn [write_fqdns]. destruct (writes_left fs) as [|n] eqn:Hn.
    + unfold WriteString. rewrite Hn. exists fs.
      split; [reflexivity|]. cbn [take fqdn_lines].
      by rewrite str_app_nil_r.
    + rewrite (WriteString_ok _ _ _ _ Hn), Hc. cbn [default].
      match goal with
      | |- context [write_fqdns entries fqdns filename ?f] =>
        destruct (IH f (content +:+ fqdn_line fqdns fqdn ip))
          as (fs' & Hrun & Hfile & Hleft)
      end.
      { simpl. apply lookup_insert_eq. }
      { simpl in *. lia. }
      exists fs'. split; [exact Hrun|]. split; [|exact Hleft].
      rewrite Hfile. cbn [writes_left take fqdn_lines].
      by rewrite str_app_assoc.
Qed.

(** The outer loop on well-formed summaries: either the device takes all
    the writes and the report is complete, or the loop stops at the first
    failed write with an error, leaving a prefix of the report. *)
Lemma write_asns_outcome range_asns range_fqdns fqdns filename :
  ∀ fs content,
    Forall (λ kd, wf_details kd.2) range_asns →
    files fs !! filename = Some content →
    let whole := report range_asns range_fqdns fqdns (Z.of_nat (size fqdns)) in
    ((report_writes range_asns range_fqdns ≤ writes_left fs)%nat
     ∧ ∃ fs',
         write_asns range_asns range_fqdns fqdns filename fs
         = Some (fs', None)
         ∧ files fs' !! filename = Some (content +:+ whole)
         ∧ (writes_left fs' + report_writes range_asns range_fqdns
            = writes_left fs)%nat)
    ∨ ((writes_left fs < report_writes range_asns range_fqdns)%nat
       ∧ ∃ fs' err written rest,
           write_asns range_asns range_fqdns fqdns filename fs
           = Some (fs', Some err)
           ∧ files fs' !! filename = Some (content +:+ written)
           ∧ whole = written +:+ rest
           ∧ writes_left fs' = O).
Proof.
  induction range_asns as [|[asnID details] range_asns IH];
    intros fs content Hwf Hc whole.
  - left. split; [simpl; lia|]. exists fs. simpl.
    rewrite str_app_nil_r. split; [done|]. split; [done|lia].
  - apply Forall_cons in Hwf as [([org Horg] & [nbs Hnbs] & _) Hwf].
    simpl in Horg, Hnbs.
    rewrite (write_asns_cons _ _ _ _ _ _ _ _ _ Horg Hnbs).
    subst whole. cbn [report report_writes].
    rewrite Horg, Hnbs. cbn [assert_string assert_strings default].
    set (header := asn_header asnID org nbs (Z.of_nat (size fqdns))).
    set (entries := range_fqdns asnID).
    set (tail := report range_asns range_fqdns fqdns (Z.of_nat (size fqdns))).
    destruct (writes_left fs) as [|n] eqn:Hn.
    { right. split; [lia|]. unfold WriteString. rewrite Hn.
      eexists fs, _, "", _. split; [reflexivity|].
      rewrite str_app_nil_r. split; [exact Hc|]. split; [reflexivity|done]. }
    rewrite (WriteString_ok _ _ _ _ Hn), Hc. cbn [default].
    destruct (decide (length entries ≤ n)%nat) as [Hfit|Hover].
    + match goal with
      | |- context [write_fqdns entries fqdns filename ?f] =>
        destruct (write_fqdns_ok entries fqdns filename f
                    (content +:+ header))
          as (fs1 & Hrun1 & Hfile1 & Hleft1)
      end.
      { simpl. apply lookup_insert_eq. }
      { simpl. lia. }
      rewrite Hrun1. simpl in Hleft1.
      destruct (IH fs1 _ Hwf Hfile1)
        as [(Hq & fs' & Hrun & Hfile & Hleft)
           |(Hq & fs' & err & written & rest & Hrun & Hfile & Hrep & Hleft)].
      * left. split; [lia|]. exists fs'. split; [exact Hrun|].
        split; [|lia]. rewrite Hfile. by rewrite !str_app_assoc.
      * right. split; [lia|].
        exists fs', err, (header +:+ fqdn_lines fqdns entries +:+ written),
               rest.
        split; [exact Hrun|]. split; [|split; [|exact Hleft]].
        -- rewrite Hfile. by rewrite !str_app_assoc.
        -- fold tail in Hrep. rewrite Hrep. by rewrite !str_app_assoc.
    + match goal with
      | |- context [write_fqdns entries fqdns filename ?f] =>
        destruct (write_fqdns_fail entries fqdns filename f
                    (content +:+ header))
          as (fs1 & Hrun1 & Hfile1 & Hleft1)
      end.
      { simpl. apply lookup_insert_eq. }
      { simpl. lia. }
      rewrite Hrun1. simpl in Hfile1. right. split; [lia|].
      eexists fs1, _, (header +:+ fqdn_lines fqdns (take n entries)),
             (fqdn_lines fqdns (drop n entries) +:+ tail).
      split; [reflexivity|]. split; [|split; [|exact Hleft1]].
      * rewrite Hfile1. by rewrite str_app_assoc.
      * rewrite <- (take_drop n entries) at 1.
        rewrite fqdn_lines_app. by rewrite !str_app_assoc.
Qed.

Lemma range_asns_wf (asns : gmap string (gmap string iface)) range_asns :
  map_Forall (λ _ d, wf_details d) asns →
  range_asns ≡ₚ map_to_list asns →
  Forall (λ kd, wf_details kd.2) range_asns.
Proof.
  intros Hwf Hperm. rewrite Hperm. apply Forall_forall. intros [k d] Hkd.
  apply elem_of_map_to_list in Hkd. exact (Hwf k d Hkd).
Qed.

Lemma report_writes_size (asns : gmap string (gmap string iface))
    (fqdns : gmap string string) range_asns range_fqdns :
  range_asns ≡ₚ map_to_list asns →
  (∀ asnID, range_fqdns asnID ≡ₚ map_to_list fqdns) →
  report_writes range_asns range_fqdns = (size asns * S (size fqdns))%nat.
Proof.
  intros Hasns Hfqdns.
  rewrite <- (length_map_to_list asns), <- Hasns. clear Hasns.
  induction range_asns as [|[k d] l IH]; [reflexivity|].
  simpl. rewrite IH, (Hfqdns k), length_map_to_list. lia.
Qed.

(** X8: on a well-formed index [SaveASNDetailsToFile] never panics, and
    it returns a nil error exactly when [os.Create] accepts the file name
    and the device takes [size asns * (1 + size fqdns)] writes: one
    header per ASN and, under every ASN, one line per entry of the FQDN
    map. *)
Theorem save_succeeds_iff
    (asns : gmap string (gmap string iface)) (fqdns : gmap string string)
    (range_asns : list (string * gmap string iface))
    (range_fqdns : string → list (string * string))
    (filename : string) (fs : fsys) :
  map_Forall (λ _ d, wf_details d) asns →
  range_asns ≡ₚ map_to_list asns →
  (∀ asnID, range_fqdns asnID ≡ₚ map_to_list fqdns) →
  ∃ fs' err,
    SaveASNDetailsToFile range_asns range_fqdns filename fqdns fs
    = Some (fs', err)
    ∧ (err = None ↔
       create_errors fs !! filename = None
       ∧ (size asns * S (size fqdns) ≤ writes_left fs)%nat).
Proof.
  intros Hwf Hasns Hfqdns.
  rewrite <- (report_writes_size asns fqdns range_asns range_fqdns)
    by assumption.
  unfold SaveASNDetailsToFile, os_Create.
  destruct (create_errors fs !! filename) as [e|] eqn:Hcreate.
  { eexists _, _. split; [reflexivity|]. split; [discriminate|].
    intros [? _]. discriminate. }
  pose proof (range_asns_wf _ _ Hwf Hasns) as Hall.
  match goal with
  | |- context [write_asns range_asns range_fqdns fqdns filename ?f] =>
    destruct (write_asns_outcome range_asns range_fqdns fqdns filename f ""
                Hall (lookup_insert_eq _ _ _))
      as [(Hq & fs' & Hrun & _)|(Hq & fs' & err & w & r & Hrun & _)]
  end.
  - exists fs', None. split; [exact Hrun|]. simpl in Hq. by split.
  - exists fs', (Some err). split; [exact Hrun|]. simpl in Hq.
    split; [discriminate|]. intros [_ ?]. lia.
Qed.

Lemma save_succeeds_iff_witness :
  ∃ fs' err,
    SaveASNDetailsToFile (map_to_list (asns report_state))
      (λ _, map_to_list (fqdns report_state))
      "example.com_2026-11-02.txt" (fqdns report_state) blank_disk
    = Some (fs', err)
    ∧ (err = None ↔
       create_errors blank_disk !! "example.com_2026-11-02.txt" = None
       ∧ (size (asns report_state) * S (size (fqdns report_state))
          ≤ writes_left blank_disk)%nat).
Proof.
  apply (save_succeeds_iff (asns report_state)).
  - exact (parse_records_wf _ _ parse_report_records).
  - reflexivity.
  - intros _. reflexivity.
Defined.

(** X9: a failed write leaves a partial file and is reported.  On a
    well-formed index, when [os.Create] accepts the name and the device
    gives up before the last write, [SaveASNDetailsToFile] returns an
    error and the file holds a prefix of the report: what was written
    before the failed write, nothing after it. *)
Theorem save_write_failure_leaves_prefix
    (asns : gmap string (gmap string iface)) (fqdns : gmap string string)
    (range_asns : list (string * gmap string iface))
    (range_fqdns : string → list (string * string))
    (filename : string) (fs : fsys) :
  map_Forall (λ _ d, wf_details d) asns →
  range_asns ≡ₚ map_to_list asns →
  (∀ asnID, range_fqdns asnID ≡ₚ map_to_list fqdns) →
  create_errors fs !! filename = None →
  (writes_left fs < size asns * S (size fqdns))%nat →
  ∃ fs' err written rest,
    SaveASNDetailsToFile range_asns range_fqdns filename fqdns fs
    = Some (fs', Some err)
    ∧ files fs' !! filename = Some written
    ∧ report range_asns range_fqdns fqdns (Z.of_nat (size fqdns))
      = written +:+ rest.
Proof.
  intros Hwf Hasns Hfqdns Hcreate.
  rewrite <- (report_writes_size asns fqdns range_asns range_fqdns)
    by assumption.
  intros Hquota. unfold SaveASNDetailsToFile, os_Create. rewrite Hcreate.
  pose proof (range_asns_wf _ _ Hwf Hasns) as Hall.
  match goal with
  | |- context [write_asns range_asns range_fqdns fqdns filename ?f] =>
    destruct (write_asns_outcome range_asns range_fqdns fqdns filename f ""
                Hall (lookup_insert_eq _ _ _))
      as [(Hq & _)|(_ & fs' & err & w & r & Hrun & Hfile & Hrep & _)]
  end.
  - simpl in Hq. lia.
  - exists fs', err, w, r. done.
Qed.

Lemma save_write_failure_leaves_prefix_witness :
  ∃ fs' err written rest,
    SaveASNDetailsToFile (map_to_list (asns report_state))
      (λ _, map_to_list (fqdns report_state))
      "example.com_2026-11-02.txt" (fqdns report_state) worn_disk
    = Some (fs', Some err)
    ∧ files fs' !! "example.com_2026-11-02.txt" = Some written
    ∧ report (map_to_list (asns report_state))
        (λ _, map_to_list (fqdns report_state))
        (fqdns report_state) (Z.of_nat (size (fqdns report_state)))
      = written +:+ rest.
Proof.
  apply (save_write_failure_leaves_prefix (asns report_state)).
  - exact (parse_records_wf _ _ parse_report_records).
  - reflexivity.
  - intros _. reflexivity.
  - reflexivity.
  - vm_compute. lia.
Defined.

(** ** [PrintEnumerationSummary], end to end *)

(** X10: [PrintEnumerationSummary] end to end.  When no record is one of
    those the parsing loop panics on, the function does not panic,
    whatever [range] orders the run takes, whatever the colouring is and
    whatever [total] is (the argument is not used).  If moreover
    [os.Create] accepts the name [<target>_<date>.txt] and the device
    takes the writes, the file holds the report of the parsed state, and
    what [color.Green] prints is, in its colour, a line break, the text
    ["[+] Details saved to <target>_<date>.txt"] and the line break that
    [color.Green] appends. *)
Theorem print_enumeration_summary_saves
    (red green : string → string)
    (range_asns : gmap string (gmap string iface)
                  → list (string * gmap string iface))
    (range_fqdns : gmap string string → string → list (string * string))
    (currentDate : string) (total : Z) (records : list string)
    (target : string) (fs : fsys) :
  Forall (λ r, bare_asn_record r = false) records →
  (∀ a, range_asns a ≡ₚ map_to_list a) →
  (∀ f asnID, range_fqdns f asnID ≡ₚ map_to_list f) →
  let filename := target +:+ "_" +:+ currentDate +:+ ".txt" in
  ∃ st fs' msg,
    parse_records records = Some st
    ∧ PrintEnumerationSummary red green range_asns range_fqdns currentDate
        total records target fs
      = Some (fs', msg)
    ∧ (create_errors fs !! filename = None →
       (size (asns st) * S (size (fqdns st)) ≤ writes_left fs)%nat →
       msg = green (nl +:+ "[+] Details saved to " +:+ filename +:+ nl)
       ∧ files fs' !! filename
         = Some (report (range_asns (asns st)) (range_fqdns (fqdns st))
                   (fqdns st) (Z.of_nat (size (fqdns st))))).
Proof.
  intros Hrecords Hasns Hfqdns filename.
  destruct (parse_records records) as [st|] eqn:Hparse; cycle 1.
  { apply (parse_from_None records empty_state wf_state_empty) in Hparse.
    apply Exists_exists in Hparse as (r & Hin & Hr).
    rewrite Forall_forall in Hrecords. specialize (Hrecords r Hin).
    congruence. }
  pose proof (parse_records_wf _ _ Hparse) as Hwf.
  pose proof (range_asns_wf _ _ Hwf (Hasns (asns st))) as Hall.
  unfold PrintEnumerationSummary. rewrite Hparse. cbn [mbind option_bind].
  change (Sprintf "%s_%s.txt" [ArgS target; ArgS currentDate])
    with filename.
  unfold SaveASNDetailsToFile, os_Create.
  destruct (create_errors fs !! filename) as [e|] eqn:Hcreate.
  { eexists st, _, _. split; [reflexivity|]. split; [reflexivity|].
    discriminate. }
  match goal with
  | |- context [write_asns ?ra ?rf (fqdns st) filename ?f] =>
    destruct (write_asns_outcome ra rf (fqdns st) filename f ""
                Hall (lookup_insert_eq _ _ _))
      as [(Hq & fs' & Hrun & Hfile & _)
         |(Hq & fs' & err & w & r & Hrun & _)]
  end.
  - rewrite Hrun. eexists st, fs', _. split; [reflexivity|].
    split; [reflexivity|]. intros _ _. split; [|exact Hfile].
    reflexivity.
  - rewrite Hrun. eexists st, fs', _. split; [reflexivity|].
    split; [reflexivity|]. intros _ Hquota. exfalso.
    rewrite (report_writes_size (asns st) (fqdns st)) in Hq
      by (apply Hasns || apply Hfqdns).
    simpl in Hq. lia.
Qed.

Lemma print_enumeration_summary_saves_witness :
  ∃ st fs' msg,
    parse_records report_records = Some st
    ∧ PrintEnumerationSummary (λ s, s) (λ s, "<green>" +:+ s)
        (λ a, map_to_list a) (λ f _, map_to_list f)
        "2026-11-02" 3 report_records "example.com" blank_disk
      = Some (fs', msg)
    ∧ (create_errors blank_disk !! "example.com_2026-11-02.txt" = None →
       (size (asns st) * S (size (fqdns st)) ≤ writes_left blank_disk)%nat →
       msg = "<green>" +:+ nl +:+ "[+] Details saved to "
               +:+ "example.com_2026-11-02.txt" +:+ nl
       ∧ files fs' !! "example.com_2026-11-02.txt"
         = Some (report (map_to_list (asns st))
                   (λ _, map_to_list (fqdns st))
                   (fqdns st) (Z.of_nat (size (fqdns st))))).
Proof.
  apply (print_enumeration_summary_saves (λ s, s) (λ s, "<green>" +:+ s)
           (λ a, map_to_list a) (λ f _, map_to_list f)
           "2026-11-02" 3 report_records "example.com" blank_disk).
  - repeat constructor.
  - reflexivity.
  - reflexivity.
Defined.

(** ** The structured path on any batch *)

Lemma wrap64_small z : - 2 ^ 63 <= z < 2 ^ 63 → wrap64 z = z.
Proof.
  intros H. unfold wrap64. rewrite Z.mod_small by lia. lia.
Qed.

Lemma wrap64_add_l x y : wrap64 (wrap64 x + y) = wrap64 (x + y).
Proof.
  unfold wrap64. f_equal.
  replace ((x + 2 ^ 63) mod 2 ^ 64 - 2 ^ 63 + y + 2 ^ 63)
    with ((x + 2 ^ 63) mod 2 ^ 64 + y) by lia.
  rewrite Z.add_mod_idemp_l by lia. f_equal. lia.
Qed.

Lemma wf_store_empty : wf_store empty_store.
Proof. intros asn p. simpl. by rewrite lookup_empty. Qed.

Lemma unshared_empty : unshared empty_store.
Proof. intros a1 a2 l. simpl. by rewrite lookup_empty. Qed.

Lemma fresh_heap_None (h : gmap positive ASNSummaryData) :
  h !! fresh (dom h) = None.
Proof. apply not_elem_of_dom, is_fresh. Qed.

(** One record with a CIDR, on a well-formed summary map: no panic, and
    the summary of the record's ASN is bumped.  (With shared summary
    objects other ASNs may see the change too.) *)
Lemma update_one_wf st addr :
  wf_store st →
  CIDRStr addr ≠ "" →
  ∃ st',
    update_one st addr = Some st'
    ∧ wf_store st'
    ∧ summary_of st' (ASN addr) = Some (bump addr (summary_of st (ASN addr)))
    ∧ (∀ asn l, asnmap st !! asn = Some (Addr l) →
                asnmap st' !! asn = Some (Addr l))
    ∧ (∀ asn l, asnmap st' !! asn = Some (Addr l) → asn ≠ ASN addr →
                asnmap st !! asn = Some (Addr l))
    ∧ (∀ l, asnmap st' !! ASN addr ≠ Some (Addr l) →
            heap st' !! l = heap st !! l)
    ∧ (asnmap st !! ASN addr = None →
       asnmap st' !! ASN addr = Some (Addr (fresh (dom (heap st))))).
Proof.
  intros Hwf Hc. unfold update_one.
  rewrite bool_decide_eq_false_2 by exact Hc.
  destruct (asnmap st !! ASN addr) as [p|] eqn:Hasn.
  - destruct (Hwf _ _ Hasn) as (l & d & nb & -> & Hd & Hnb).
    unfold increment. rewrite Hd. cbn [mbind option_bind]. rewrite Hnb.
    cbn [mbind option_bind]. eexists. split; [reflexivity|].
    split; [|split; [|split; [|split; [|split]]]].
    + intros asn p Hp. cbn [asnmap heap] in *.
      destruct (Hwf _ _ Hp) as (l' & d' & nb' & -> & Hd' & Hnb').
      destruct (decide (l' = l)) as [->|Hne].
      * eexists l, _, _. rewrite lookup_insert_eq. done.
      * exists l', d', nb'. by rewrite lookup_insert_ne.
    + unfold summary_of, bump. cbn [asnmap heap]. rewrite Hasn.
      cbn [mbind option_bind]. rewrite lookup_insert_eq, Hd.
      cbn [mbind option_bind fmap option_fmap option_map default].
      by rewrite Hnb.
    + done.
    + done.
    + intros l' Hl'. cbn [asnmap heap] in *.
      rewrite lookup_insert_ne; [done|]. intros <-. by apply Hl'.
    + discriminate.
  - set (l := fresh (dom (heap st))).
    assert (heap st !! l = None) as Hfresh by apply fresh_heap_None.
    cbn [asnmap heap]. rewrite lookup_insert_eq. cbn [mbind option_bind].
    unfold increment. cbn [heap asnmap]. rewrite lookup_insert_eq.
    cbn [mbind option_bind Netblocks SName]. eexists. split; [reflexivity|].
    split; [|split; [|split; [|split; [|split]]]].
    + intros asn p. cbn [asnmap heap]. rewrite lookup_insert.
      case_decide as Hk.
      * intros [= <-]. eexists l, _, _. rewrite lookup_insert_eq. done.
      * intros Hp. destruct (Hwf _ _ Hp) as (l' & d' & nb' & -> & Hd' & Hnb').
        exists l', d', nb'. split; [done|]. split; [|done].
        rewrite !lookup_insert_ne by congruence. done.
    + unfold summary_of, bump. cbn [asnmap heap]. rewrite Hasn.
      rewrite lookup_insert_eq. cbn [mbind option_bind].
      rewrite lookup_insert_eq. reflexivity.
    + intros asn l' Hl'. cbn [asnmap]. rewrite lookup_insert_ne; [done|].
      intros <-. congruence.
    + intros asn l' Hl' Hne. cbn [asnmap] in Hl'.
      by rewrite lookup_insert_ne in Hl' by congruence.
    + intros l' Hl'. cbn [asnmap heap] in *.
      rewrite lookup_insert_eq in Hl'.
      rewrite !lookup_insert_ne; [done|congruence|congruence].
    + intros _. cbn [asnmap]. by rewrite lookup_insert_eq.
Qed.

Lemma update_all_wf addrs :
  ∀ st, wf_store st →
        ∃ st', update_all st addrs = Some st' ∧ wf_store st'.
Proof.
  induction addrs as [|a addrs IH]; intros st Hwf; simpl; [eauto|].
  destruct (decide (CIDRStr a = "")) as [Hc|Hc].
  - rewrite update_one_skip by exact Hc. simpl. by apply IH.
  - destruct (update_one_wf st a Hwf Hc) as (st1 & -> & Hwf1 & _).
    simpl. by apply IH.
Qed.

(** On a made map the loop on an argument is the loop on the store. *)
Lemma update_all_arg_made addrs :
  ∀ st, update_all_arg (made st) addrs = made <$> update_all st addrs.
Proof.
  induction addrs as [|a addrs IH]; intros st; [reflexivity|].
  cbn [update_all_arg update_all]. unfold update_one_arg.
  cbn [made arg_map arg_heap].
  replace {| asnmap := asnmap st; heap := heap st |} with st
    by (by destruct st).
  destruct (update_one st a) as [st1|]; [|reflexivity].
  cbn [fmap option_fmap option_map mbind option_bind]. apply IH.
Qed.

(** On a nil map the loop passes the records without a CIDR and panics
    at the first record that has one. *)
Lemma update_all_arg_nil h addrs :
  update_all_arg {| arg_map := None; arg_heap := h |} addrs
  = if bool_decide (Forall (λ a, CIDRStr a = "") addrs)
    then Some {| arg_map := None; arg_heap := h |} else None.
Proof.
  induction addrs as [|a addrs IH].
  - cbn [update_all_arg]. by rewrite bool_decide_eq_true_2.
  - cbn [update_all_arg]. unfold update_one_arg. cbn [arg_map].
    destruct (decide (CIDRStr a = "")) as [Ha|Ha].
    + rewrite (bool_decide_eq_true_2 _ Ha). cbn [mbind option_bind].
      rewrite IH.
      assert (bool_decide (Forall (λ a, CIDRStr a = "") addrs)
              = bool_decide (Forall (λ a, CIDRStr a = "") (a :: addrs)))
        as ->; [|reflexivity].
      apply bool_decide_ext. split.
      * by constructor.
      * by inversion_clear 1.
    + rewrite (bool_decide_eq_false_2 _ Ha). cbn [mbind option_bind].
      rewrite bool_decide_eq_false_2; [done|]. by inversion_clear 1.
Qed.

(** X11: [UpdateSummaryData] and the map it is given.  On a made
    (non-nil) map in which every pointer refers to a summary with a made
    [Netblocks] map (an empty map is one), the function never panics,
    whatever the batch, and leaves such a map behind.  On a nil map it
    returns, with the map still nil, when no record of the batch has a
    CIDR, and panics otherwise. *)
Theorem update_summary_data_safe (output : Output) (arg : summary_arg) :
  (∀ m, arg_map arg = Some m →
        wf_store {| asnmap := m; heap := arg_heap arg |} →
        ∃ st', UpdateSummaryDataArg output arg = Some (made st')
               ∧ UpdateSummaryData output
                   {| asnmap := m; heap := arg_heap arg |} = Some st'
               ∧ wf_store st')
  ∧ (arg_map arg = None →
     UpdateSummaryDataArg output arg
     = if bool_decide (Forall (λ a, CIDRStr a = "") (Addresses output))
       then Some arg else None).
Proof.
  destruct arg as [[m|] h]; cbn [arg_map arg_heap]; split; try done.
  - intros m' [= <-] Hwf.
    destruct (update_all_wf (Addresses output) _ Hwf) as (st' & Hrun & Hwf').
    exists st'. split; [|by split].
    unfold UpdateSummaryDataArg.
    change {| arg_map := Some m; arg_heap := h |}
      with (made {| asnmap := m; heap := h |}).
    by rewrite update_all_arg_made, Hrun.
  - intros _. apply update_all_arg_nil.
Qed.

Lemma update_summary_data_safe_witness :
  (∃ st',
     UpdateSummaryDataArg mixed_output (made empty_store) = Some (made st')
     ∧ UpdateSummaryData mixed_output empty_store = Some st'
     ∧ wf_store st')
  ∧ UpdateSummaryDataArg mixed_output {| arg_map := None; arg_heap := ∅ |}
    = None.
Proof.
  split.
  - apply (update_summary_data_safe mixed_output (made empty_store));
      [reflexivity|apply wf_store_empty].
  - apply (proj2 (update_summary_data_safe mixed_output
                    {| arg_map := None; arg_heap := ∅ |})).
    reflexivity.
Defined.

(** X12: nil in the caller's map is fatal.  When the record at the head
    of the batch has a CIDR and the map holds, for the ASN of the record,
    a nil pointer or a summary whose [Netblocks] map is nil,
    [UpdateSummaryData] panics. *)
Theorem update_summary_data_nil_panics
    (name : string) (addr : AddressInfo) (rest : list AddressInfo)
    (st : store) :
  CIDRStr addr ≠ "" →
  asnmap st !! ASN addr = Some Nil
  ∨ (∃ l d, asnmap st !! ASN addr = Some (Addr l)
            ∧ heap st !! l = Some d ∧ Netblocks d = None) →
  UpdateSummaryData {| Name := name; Addresses := addr :: rest |} st = None.
Proof.
  intros Hc Hnil. unfold UpdateSummaryData. cbn [Addresses update_all].
  unfold update_one. rewrite bool_decide_eq_false_2 by exact Hc.
  destruct Hnil as [->|(l & d & -> & Hd & Hnb)]; [reflexivity|].
  unfold increment. rewrite Hd. cbn [mbind option_bind]. by rewrite Hnb.
Qed.

Lemma update_summary_data_nil_panics_witness :
  UpdateSummaryData
    {| Name := "www.example.com";
       Addresses := [private_addr [10; 0; 0; 1] "Example Net"] |}
    nil_store
  = None.
Proof.
  apply (update_summary_data_nil_panics "www.example.com"
           (private_addr [10; 0; 0; 1] "Example Net") [] nil_store).
  - discriminate.
  - left. reflexivity.
Defined.

Lemma update_one_unshared st addr :
  wf_store st → unshared st →
  CIDRStr addr ≠ "" →
  ∃ st',
    update_one st addr = Some st'
    ∧ wf_store st' ∧ unshared st'
    ∧ ∀ asn, summary_of st' asn
             = if decide (asn = ASN addr)
               then Some (bump addr (summary_of st asn))
               else summary_of st asn.
Proof.
  intros Hwf Hun Hc.
  destruct (update_one_wf st addr Hwf Hc)
    as (st' & Hrun & Hwf' & Hsum & Hfwd & Hbwd & Hheap & Hnew).
  assert (unshared st') as Hun'.
  { assert (∀ a l, asnmap st' !! ASN addr = Some (Addr l) →
                   asnmap st' !! a = Some (Addr l) → a ≠ ASN addr → False)
      as Hmain.
    { intros a l Hl Ha Hne. apply (Hbwd _ _) in Ha; [|exact Hne].
      destruct (asnmap st !! ASN addr) as [p|] eqn:Hold.
      - destruct (Hwf _ _ Hold) as (l0 & _ & _ & -> & _).
        pose proof (Hfwd _ _ Hold) as Hl0. rewrite Hl in Hl0.
        injection Hl0 as ->. apply Hne. by apply (Hun a (ASN addr) l0).
      - rewrite (Hnew eq_refl) in Hl. injection Hl as <-.
        destruct (Hwf _ _ Ha) as (l0 & d & _ & [= <-] & Hd & _).
        by rewrite fresh_heap_None in Hd. }
    intros a1 a2 l H1 H2.
    destruct (decide (a1 = ASN addr)) as [->|Hn1];
      destruct (decide (a2 = ASN addr)) as [->|Hn2]; try done.
    - exfalso. by apply (Hmain a2 l).
    - exfalso. by apply (Hmain a1 l).
    - apply (Hun a1 a2 l); by apply Hbwd. }
  exists st'. split; [exact Hrun|]. split; [exact Hwf'|].
  split; [exact Hun'|]. intros asn.
  destruct (decide (asn = ASN addr)) as [->|Hne]; [exact Hsum|].
  unfold summary_of.
  destruct (asnmap st' !! asn) as [p|] eqn:Hp.
  - destruct (Hwf' _ _ Hp) as (l & _ & _ & -> & _).
    rewrite (Hbwd _ _ Hp Hne). cbn [mbind option_bind].
    apply Hheap. intros Hl. apply Hne. by apply (Hun' asn (ASN addr) l).
  - destruct (asnmap st !! asn) as [p|] eqn:Hold; [|reflexivity].
    destruct (Hwf _ _ Hold) as (l & _ & _ & -> & _).
    apply Hfwd in Hold. congruence.
Qed.

Lemma netblock_count_bump st st' addr asn cidr :
  summary_of st' asn = Some (bump addr (summary_of st asn)) →
  netblock_count st' asn cidr
  = if decide (cidr = CIDRStr addr)
    then Some (wrap64 (default 0 (netblock_count st asn cidr) + 1))
    else netblock_count st asn cidr.
Proof.
  intros Hs. unfold netblock_count. rewrite Hs.
  cbn [mbind option_bind bump Netblocks]. rewrite lookup_insert.
  destruct (summary_of st asn) as [[n [nb|]]|];
    cbn [mbind option_bind Netblocks default];
    rewrite ?lookup_empty;
    destruct (decide (cidr = CIDRStr addr)) as [->|Hne];
    rewrite ?decide_True by reflexivity;
    rewrite ?decide_False by congruence; reflexivity.
Qed.

Lemma occurrences_cons asn cidr a addrs :
  occurrences asn cidr (a :: addrs)
  = ((if decide (ASN a = asn ∧ CIDRStr a = cidr) then 1 else 0)
     + occurrences asn cidr addrs)%nat.
Proof.
  unfold occurrences. rewrite filter_cons. by case_decide.
Qed.

Lemma first_description_cons asn a addrs :
  first_description asn (a :: addrs)
  = if decide (ASN a = asn ∧ CIDRStr a ≠ "")
    then Some (Description a)
    else first_description asn addrs.
Proof.
  unfold first_description. rewrite filter_cons. by case_decide.
Qed.

(** The counters and the names after a batch, on a summary map without
    shared objects. *)
Lemma update_all_summary addrs :
  ∀ st,
    wf_store st → unshared st →
    ∃ st',
      update_all st addrs = Some st'
      ∧ (∀ asn cidr,
           cidr ≠ "" →
           netblock_count st' asn cidr
           = match occurrences asn cidr addrs with
             | O => netblock_count st asn cidr
             | S _ =>
               Some (wrap64 (default 0 (netblock_count st asn cidr)
                             + Z.of_nat (occurrences asn cidr addrs)))
             end)
      ∧ (∀ asn,
           SName <$> summary_of st' asn
           = match SName <$> summary_of st asn with
             | Some n => Some n
             | None => first_description asn addrs
             end).
Proof.
  induction addrs as [|a addrs IH]; intros st Hwf Hun.
  - exists st. split; [reflexivity|]. split; [done|].
    intros asn. by destruct (SName <$> summary_of st asn).
  - cbn [update_all]. destruct (decide (CIDRStr a = "")) as [Hc|Hc].
    + rewrite update_one_skip by exact Hc. cbn [mbind option_bind].
      destruct (IH st Hwf Hun) as (st' & Hrun & Hcount & Hname).
      exists st'. split; [exact Hrun|]. split.
      * intros asn cidr Hcidr. rewrite occurrences_cons.
        rewrite decide_False by (intros [_ ?]; congruence).
        by apply Hcount.
      * intros asn. rewrite first_description_cons.
        rewrite decide_False by (intros [_ ?]; congruence).
        apply Hname.
    + destruct (update_one_unshared st a Hwf Hun Hc)
        as (st1 & -> & Hwf1 & Hun1 & Hsum).
      cbn [mbind option_bind].
      destruct (IH st1 Hwf1 Hun1) as (st' & Hrun & Hcount & Hname).
      exists st'. split; [exact Hrun|]. split.
      * intros asn cidr Hcidr. rewrite (Hcount asn cidr Hcidr).
        rewrite occurrences_cons. specialize (Hsum asn).
        destruct (decide (asn = ASN a)) as [->|Hasn].
        -- rewrite (netblock_count_bump st st1 a _ cidr Hsum).
           destruct (decide (cidr = CIDRStr a)) as [->|Hcd].
           ++ rewrite decide_True by done.
              destruct (occurrences (ASN a) (CIDRStr a) addrs) as [|n];
                cbn [default Nat.add].
              ** reflexivity.
              ** unfold id. rewrite wrap64_add_l. do 2 f_equal. lia.
           ++ rewrite decide_False by (intros [_ ?]; congruence).
              reflexivity.
        -- rewrite decide_False by (intros [? _]; congruence).
           unfold netblock_count. by rewrite Hsum.
      * intros asn. rewrite (Hname asn), first_description_cons.
        specialize (Hsum asn).
        destruct (decide (asn = ASN a)) as [->|Hasn].
        -- rewrite Hsum. rewrite decide_True by done.
           cbn [fmap option_fmap option_map bump SName].
           by destruct (summary_of st (ASN a)).
        -- rewrite decide_False by (intros [? _]; congruence).
           by rewrite Hsum.
Qed.

(** X13: the counters count.  After a batch fed to an empty summary map,
    the counter of a netblock under an ASN is the number of records of
    the batch with that ASN and that CIDR, wrapped to 64 bits; with no
    such record there is no counter. *)
Theorem counters_count_records
    (output : Output) (asn : Z) (cidr : string) :
  cidr ≠ "" →
  ∃ st',
    UpdateSummaryData output empty_store = Some st'
    ∧ netblock_count st' asn cidr
      = match occurrences asn cidr (Addresses output) with
        | O => None
        | S _ =>
          Some (wrap64 (Z.of_nat (occurrences asn cidr (Addresses output))))
        end.
Proof.
  intros Hcidr.
  destruct (update_all_summary (Addresses output) empty_store
              wf_store_empty unshared_empty) as (st' & Hrun & Hcount & _).
  exists st'. split; [exact Hrun|]. rewrite (Hcount asn cidr Hcidr).
  destruct (occurrences asn cidr (Addresses output)); reflexivity.
Qed.

Lemma counters_count_records_witness :
  ∃ st',
    UpdateSummaryData
      {| Name := "www.example.com";
         Addresses := [private_addr [10; 0; 0; 1] "Example Net";
                       private_addr [10; 0; 0; 2] "Example Net"] |}
      empty_store
    = Some st'
    ∧ netblock_count st' 64512 "10.0.0.0/24" = Some (wrap64 2).
Proof.
  apply (counters_count_records
           {| Name := "www.example.com";
              Addresses := [private_addr [10; 0; 0; 1] "Example Net";
                            private_addr [10; 0; 0; 2] "Example Net"] |}
           64512 "10.0.0.0/24").
  discriminate.
Defined.

(** X14: first seen wins.  After a batch fed to an empty summary map, an
    ASN has a summary exactly when some record of the batch with that ASN
    has a CIDR, and the summary is named by the description of the first
    such record; later descriptions are ignored. *)
Theorem first_description_names_summary (output : Output) (asn : Z) :
  ∃ st',
    UpdateSummaryData output empty_store = Some st'
    ∧ SName <$> summary_of st' asn
      = first_description asn (Addresses output).
Proof.
  destruct (update_all_summary (Addresses output) empty_store
              wf_store_empty unshared_empty) as (st' & Hrun & _ & Hname).
  exists st'. split; [exact Hrun|]. by rewrite (Hname asn).
Qed.

(** The counters do not depend on the order of the records: two
    batches that are permutations of one another, each fed to an empty
    summary map, give the same counter for every ASN and netblock. *)
Theorem counters_ignore_order
    (output1 output2 : Output) (asn : Z) (cidr : string) :
  Addresses output1 ≡ₚ Addresses output2 →
  cidr ≠ "" →
  ∃ st1 st2,
    UpdateSummaryData output1 empty_store = Some st1
    ∧ UpdateSummaryData output2 empty_store = Some st2
    ∧ netblock_count st1 asn cidr = netblock_count st2 asn cidr.
Proof.
  intros Hperm Hcidr.
  destruct (update_all_summary (Addresses output1) empty_store
              wf_store_empty unshared_empty) as (st1 & Hrun1 & Hcount1 & _).
  destruct (update_all_summary (Addresses output2) empty_store
              wf_store_empty unshared_empty) as (st2 & Hrun2 & Hcount2 & _).
  exists st1, st2. split; [exact Hrun1|]. split; [exact Hrun2|].
  rewrite (Hcount1 asn cidr Hcidr), (Hcount2 asn cidr Hcidr).
  assert (occurrences asn cidr (Addresses output1)
          = occurrences asn cidr (Addresses output2)) as ->; [|reflexivity].
  unfold occurrences. by rewrite Hperm.
Qed.

Lemma counters_ignore_order_witness :
  ∃ st1 st2,
    UpdateSummaryData
      {| Name := "a.example.com";
         Addresses := [private_addr [10; 0; 0; 1] "Example Net";
                       private_addr [10; 0; 0; 2] "Other Name"] |}
      empty_store = Some st1
    ∧ UpdateSummaryData
        {| Name := "b.example.com";
           Addresses := [private_addr [10; 0; 0; 2] "Other Name";
                         private_addr [10; 0; 0; 1] "Example Net"] |}
        empty_store = Some st2
    ∧ netblock_count st1 64512 "10.0.0.0/24"
      = netblock_count st2 64512 "10.0.0.0/24".
Proof.
  apply (counters_ignore_order
           {| Name := "a.example.com";
              Addresses := [private_addr [10; 0; 0; 1] "Example Net";
                            private_addr [10; 0; 0; 2] "Other Name"] |}
           {| Name := "b.example.com";
              Addresses := [private_addr [10; 0; 0; 2] "Other Name";
                            private_addr [10; 0; 0; 1] "Example Net"] |}
           64512 "10.0.0.0/24").
  - apply perm_swap.
  - discriminate.
Defined.

(** X15: summary objects are shared through their pointers.  When the
    caller's map holds the same pointer under two ASNs, a record for one
    of them, processed alone, gives both the same bumped counter. *)
Theorem shared_summary_counts_for_both
    (name : string) (addr : AddressInfo) (other : Z) (l : positive)
    (st : store) :
  wf_store st →
  CIDRStr addr ≠ "" →
  asnmap st !! ASN addr = Some (Addr l) →
  asnmap st !! other = Some (Addr l) →
  ∃ st',
    UpdateSummaryData {| Name := name; Addresses := [addr] |} st = Some st'
    ∧ netblock_count st' (ASN addr) (CIDRStr addr)
      = Some (wrap64 (default 0 (netblock_count st other (CIDRStr addr)) + 1))
    ∧ netblock_count st' other (CIDRStr addr)
      = netblock_count st' (ASN addr) (CIDRStr addr).
Proof.
  intros Hwf Hc Hl Hother.
  destruct (update_one_wf st addr Hwf Hc)
    as (st' & Hrun & _ & Hsum & Hfwd & _).
  unfold UpdateSummaryData. cbn [Addresses update_all]. rewrite Hrun.
  exists st'. split; [reflexivity|].
  assert (summary_of st other = summary_of st (ASN addr)) as Hsame.
  { unfold summary_of. by rewrite Hl, Hother. }
  assert (summary_of st' other = summary_of st' (ASN addr)) as Hsame'.
  { unfold summary_of. by rewrite (Hfwd _ _ Hl), (Hfwd _ _ Hother). }
  split.
  - rewrite (netblock_count_bump st st' addr _ _ Hsum).
    rewrite decide_True by reflexivity.
    unfold netblock_count. by rewrite Hsame.
  - unfold netblock_count. by rewrite Hsame'.
Qed.

Lemma shared_summary_counts_for_both_witness :
  ∃ st',
    UpdateSummaryData
      {| Name := "www.example.com";
         Addresses := [private_addr [10; 0; 0; 1] "Example Net"] |}
      shared_store = Some st'
    ∧ netblock_count st' 64512 "10.0.0.0/24"
      = Some (wrap64 (default 0 (netblock_count shared_store 64513
                                   "10.0.0.0/24") + 1))
    ∧ netblock_count st' 64513 "10.0.0.0/24"
      = netblock_count st' 64512 "10.0.0.0/24".
Proof.
  apply (shared_summary_counts_for_both "www.example.com"
           (private_addr [10; 0; 0; 1] "Example Net") 64513 1%positive
           shared_store).
  - intros asn p. unfold shared_store. cbn [asnmap heap].
    rewrite lookup_insert. case_decide.
    + intros [= <-]. eexists 1%positive, _, _. done.
    + rewrite lookup_singleton. case_decide; [|discriminate].
      intros [= <-]. eexists 1%positive, _, _. done.
  - discriminate.
  - reflexivity.
  - reflexivity.
Defined.

(** ** The redactor: when it returns *)

Lemma censor_loop_None n :
  ∀ i rs,
    (0 < n)%nat →
    i < 0 ∨ Z.of_nat (length rs) < i + Z.of_nat n →
    censor_loop n i rs = None.
Proof.
  induction n as [|n IH]; intros i rs Hn Hout; [lia|].
  cbn [censor_loop]. unfold rune_at.
  destruct (i <? 0) eqn:Hi; [reflexivity|]. apply Z.ltb_ge in Hi.
  destruct (rs !! Z.to_nat i) as [r|] eqn:Hr; [|reflexivity].
  cbn [mbind option_bind].
  apply lookup_lt_Some in Hr.
  assert (0 < n)%nat as Hn' by lia.
  destruct (kept r); apply IH; try exact Hn'; right;
    rewrite ?length_insert; lia.
Qed.

Lemma censor_loop_is_Some n i rs :
  is_Some (censor_loop n i rs) ↔
  n = O ∨ (0 <= i ∧ i + Z.of_nat n <= Z.of_nat (length rs)).
Proof.
  split.
  - intros Hsome. destruct n as [|n]; [by left|]. right.
    destruct (decide (0 <= i ∧ i + Z.of_nat (S n) <= Z.of_nat (length rs)))
      as [?|Hout]; [done|].
    rewrite censor_loop_None in Hsome by lia. by destruct Hsome.
  - intros [->|[Hi Hn]]; [by eexists|].
    rewrite <- (Z2Nat.id i) by exact Hi.
    rewrite censor_loop_spec by lia. by eexists.
Qed.

Lemma censorString_is_Some input start end_ :
  is_Some (censorString input start end_) ↔
  end_ <= start
  ∨ (0 <= start ∧ end_ <= Z.of_nat (length (runes_of_string input))).
Proof.
  unfold censorString. rewrite fmap_is_Some, censor_loop_is_Some. lia.
Qed.

(** X16: [censorString] returns exactly when the window is empty or lies
    within the runes of the input: [end <= start], or [0 <= start] and
    [end] is at most the number of runes.  In every other case it panics
    with an index out of range.  The window is counted in runes while the
    callers pass byte offsets. *)
Theorem censorString_returns_iff (input : string) (start end_ : Z) :
  is_Some (censorString input start end_) ↔
  end_ <= start
  ∨ (0 <= start ∧ end_ <= Z.of_nat (length (runes_of_string input))).
Proof. apply censorString_is_Some. Qed.

Lemma length_str_drop n s :
  String.length (str_drop n s) = (String.length s - n)%nat.
Proof.
  revert s. induction n as [|n IH]; intros s; simpl; [lia|].
  destruct s as [|c s]; simpl; [reflexivity|]. apply IH.
Qed.

Lemma DecodeRuneInString_size c s r size :
  utf8.DecodeRuneInString (String c s) = (r, size) → 1 <= size <= 4.
Proof.
  unfold utf8.DecodeRuneInString.
  repeat case_match; intros [= <- <-]; lia.
Qed.

(** A string has at most as many runes as bytes. *)
Lemma length_decode_runes fuel :
  ∀ s, (length (decode_runes fuel s) ≤ String.length s)%nat.
Proof.
  induction fuel as [|fuel IH]; intros s; [simpl; lia|].
  destruct s as [|c s]; [simpl; lia|].
  cbn [decode_runes].
  destruct (utf8.DecodeRuneInString (String c s)) as [r size] eqn:Hd.
  apply DecodeRuneInString_size in Hd.
  cbn [length]. specialize (IH (str_drop (Z.to_nat size) (String c s))).
  rewrite length_str_drop in IH. simpl in *. lia.
Qed.

Lemma Index_byte_range s ch :
  Index s (String ch "") = -1
  ∨ 0 <= Index s (String ch "") < len s.
Proof.
  rewrite Index_byte.
  destruct (find_first (byte_val ch) (bytes_of s)) as [i|] eqn:Hi;
    [right|by left].
  apply find_first_lt in Hi. rewrite length_bytes_of in Hi.
  unfold len. lia.
Qed.

(** X17: [censorDomain] returns exactly on the inputs that have a ['.']
    and as many runes as bytes, that is no character encoded in more than
    one byte; on every other input it panics. *)
Theorem censorDomain_returns_iff (input : string) :
  is_Some (censorDomain input) ↔
  Index input "." ≠ -1
  ∧ length (runes_of_string input) = String.length input.
Proof.
  unfold censorDomain. rewrite censorString_is_Some.
  pose proof (length_decode_runes (String.length input) input) as Hle.
  fold (runes_of_string input) in Hle.
  pose proof (Index_byte_range input ".") as Hrange.
  unfold len in *. lia.
Qed.

(** ** The redactor on ASCII text: what is masked *)

Lemma mask_window_nil lo n : mask_window lo n [] = [].
Proof. reflexivity. Qed.

Lemma mask_window_cons_S lo n x l :
  mask_window (S lo) n (x :: l) = x :: mask_window lo n l.
Proof.
  unfold mask_window. rewrite imap_cons. cbn beta.
  rewrite decide_False by lia. f_equal.
  apply imap_ext. intros k r _. simpl.
  repeat case_decide; try reflexivity; lia.
Qed.

Lemma mask_window_cons_0 n x l :
  mask_window 0 (S n) (x :: l) = mask x :: mask_window 0 n l.
Proof.
  unfold mask_window. rewrite imap_cons. cbn beta.
  rewrite decide_True by lia. f_equal.
  apply imap_ext. intros k r _. simpl.
  repeat case_decide; try reflexivity; lia.
Qed.

Lemma mask_window_none lo l : mask_window lo 0 l = l.
Proof.
  apply list_eq. intros k. rewrite mask_window_lookup.
  destruct (l !! k); simpl; [|reflexivity].
  by rewrite decide_False by lia.
Qed.

(** The masked window, cut out. *)
Lemma mask_window_split l :
  ∀ lo n,
    mask_window lo n l
    = take lo l ++ (mask <$> take n (drop lo l)) ++ drop (lo + n) l.
Proof.
  induction l as [|x l IH]; intros lo n.
  - by rewrite mask_window_nil, take_nil, !drop_nil, take_nil.
  - destruct lo as [|lo].
    + destruct n as [|n].
      * by rewrite mask_window_none.
      * rewrite mask_window_cons_0, IH. reflexivity.
    + rewrite mask_window_cons_S, IH. reflexivity.
Qed.

Lemma bytes_of_str_drop n s : bytes_of (str_drop n s) = drop n (bytes_of s).
Proof.
  revert s. induction n as [|n IH]; intros s; [reflexivity|].
  destruct s as [|c s]; [reflexivity|]. apply IH.
Qed.

Lemma bytes_of_str_take n s : bytes_of (str_take n s) = take n (bytes_of s).
Proof.
  revert s. induction n as [|n IH]; intros s; [reflexivity|].
  destruct s as [|c s]; [reflexivity|]. simpl. by rewrite IH.
Qed.

Lemma bytes_of_inj s1 s2 : bytes_of s1 = bytes_of s2 → s1 = s2.
Proof.
  intros H. rewrite <- (string_of_bytes_of s1), <- (string_of_bytes_of s2).
  by rewrite H.
Qed.

Lemma bytes_of_masked s lo n :
  is_ascii s = true →
  bytes_of (string_of_bytes (mask_window lo n (bytes_of s)))
  = mask_window lo n (bytes_of s).
Proof.
  intros Hs%is_ascii_Forall. apply bytes_of_string_of.
  eapply Forall_impl; [by apply mask_window_ascii|]. simpl. lia.
Qed.

(** A window from the start of the text. *)
Lemma censorString_ascii_prefix s i :
  is_ascii s = true →
  (i ≤ String.length s)%nat →
  ∃ t,
    censorString s 0 (Z.of_nat i) = Some t
    ∧ bytes_of t = (mask <$> take i (bytes_of s)) ++ drop i (bytes_of s)
    ∧ str_drop i t = str_drop i s.
Proof.
  intros Hs Hi.
  pose proof (censorString_ascii s O i Hs) as Hrun.
  rewrite Nat.add_0_l in Hrun. specialize (Hrun Hi).
  eexists. split; [exact Hrun|].
  assert (bytes_of (string_of_bytes (mask_window 0 i (bytes_of s)))
          = (mask <$> take i (bytes_of s)) ++ drop i (bytes_of s)) as Hb.
  { rewrite bytes_of_masked by exact Hs. by rewrite mask_window_split. }
  split; [exact Hb|]. apply bytes_of_inj.
  rewrite !bytes_of_str_drop, Hb.
  rewrite drop_app_length'; [reflexivity|].
  rewrite length_fmap, length_take, length_bytes_of. lia.
Qed.

(** X18: what [censorNetBlock] masks.  On ASCII text with a ['/'] at
    byte [i] (the first one) it returns; the bytes before [i] are each
    replaced by ['x'] unless they are ['.'], ['/'], ['-'] or [' '], and
    the text from the ['/'] on, the prefix length, is kept verbatim. *)
Theorem censorNetBlock_keeps_prefix_length (s : string) (i : nat) :
  is_ascii s = true →
  Index s "/" = Z.of_nat i →
  ∃ t,
    censorNetBlock s = Some t
    ∧ bytes_of t = (mask <$> take i (bytes_of s)) ++ drop i (bytes_of s)
    ∧ str_drop i t = str_drop i s.
Proof.
  intros Hs Hi. unfold censorNetBlock. rewrite Hi.
  apply censorString_ascii_prefix; [exact Hs|].
  pose proof (Index_byte_range s "/") as Hr. unfold len in Hr. lia.
Qed.

Lemma censorNetBlock_keeps_prefix_length_witness :
  ∃ t,
    censorNetBlock "93.184.216.0/24" = Some t
    ∧ bytes_of t
      = (mask <$> take 12 (bytes_of "93.184.216.0/24"))
        ++ drop 12 (bytes_of "93.184.216.0/24")
    ∧ str_drop 12 t = str_drop 12 "93.184.216.0/24".
Proof.
  apply (censorNetBlock_keeps_prefix_length "93.184.216.0/24" 12).
  - vm_compute. reflexivity.
  - vm_compute. reflexivity.
Defined.

(** X19: what [censorIP] masks.  On ASCII text whose last ['.'] is at
    byte [i] it returns; the bytes before [i] are masked (the dots and
    the other separators stay) and the text from the last ['.'] on, the
    last octet, is kept verbatim. *)
Theorem censorIP_keeps_last_octet (s : string) (i : nat) :
  is_ascii s = true →
  LastIndex s "." = Z.of_nat i →
  ∃ t,
    censorIP s = Some t
    ∧ bytes_of t = (mask <$> take i (bytes_of s)) ++ drop i (bytes_of s)
    ∧ str_drop i t = str_drop i s.
Proof.
  intros Hs Hi. unfold censorIP. rewrite Hi.
  apply censorString_ascii_prefix; [exact Hs|].
  revert Hi. rewrite LastIndex_byte.
  destruct (find_last (byte_val ".") (bytes_of s)) as [j|] eqn:Hj; [|lia].
  apply find_last_lt in Hj. rewrite length_bytes_of in Hj. lia.
Qed.

Lemma censorIP_keeps_last_octet_witness :
  ∃ t,
    censorIP "192.168.1.10" = Some t
    ∧ bytes_of t
      = (mask <$> take 9 (bytes_of "192.168.1.10"))
        ++ drop 9 (bytes_of "192.168.1.10")
    ∧ str_drop 9 t = str_drop 9 "192.168.1.10".
Proof.
  apply (censorIP_keeps_last_octet "192.168.1.10" 9).
  - vm_compute. reflexivity.
  - vm_compute. reflexivity.
Defined.

(** X20: what [censorDomain] masks.  On ASCII text with a ['.'] at byte
    [i] (the first one) it returns; the first label, the text before that
    ['.'], is kept verbatim and every byte after it is masked, the dots
    and the other separators staying in place.  It is the leftmost label
    that stays readable, not the top-level one. *)
Theorem censorDomain_keeps_first_label (s : string) (i : nat) :
  is_ascii s = true →
  Index s "." = Z.of_nat i →
  ∃ t,
    censorDomain s = Some t
    ∧ bytes_of t = take i (bytes_of s) ++ (mask <$> drop i (bytes_of s))
    ∧ str_take i t = str_take i s.
Proof.
  intros Hs Hi. unfold censorDomain. rewrite Hi.
  assert (i < String.length s)%nat as Hlt.
  { pose proof (Index_byte_range s ".") as Hr. unfold len in Hr. lia. }
  pose proof (censorString_ascii s i (String.length s - i) Hs) as Hrun.
  replace (i + (String.length s - i))%nat with (String.length s) in Hrun
    by lia.
  specialize (Hrun (le_n _)). unfold len.
  eexists. split; [exact Hrun|].
  assert (bytes_of (string_of_bytes
                      (mask_window i (String.length s - i) (bytes_of s)))
          = take i (bytes_of s) ++ (mask <$> drop i (bytes_of s))) as Hb.
  { rewrite bytes_of_masked by exact Hs. rewrite mask_window_split.
    rewrite (take_ge (drop i (bytes_of s)))
      by (rewrite length_drop, length_bytes_of; lia).
    rewrite (drop_ge (bytes_of s) (i + (String.length s - i)))
      by (rewrite length_bytes_of; lia).
    by rewrite app_nil_r. }
  split; [exact Hb|]. apply bytes_of_inj.
  rewrite !bytes_of_str_take, Hb.
  rewrite take_app_length'; [reflexivity|].
  rewrite length_take, length_bytes_of. lia.
Qed.

Lemma censorDomain_keeps_first_label_witness :
  ∃ t,
    censorDomain "www.example.com" = Some t
    ∧ bytes_of t
      = take 3 (bytes_of "www.example.com")
        ++ (mask <$> drop 3 (bytes_of "www.example.com"))
    ∧ str_take 3 t = str_take 3 "www.example.com".
Proof.
  apply (censorDomain_keeps_first_label "www.example.com" 3).
  - vm_compute. reflexivity.
  - vm_compute. reflexivity.
Defined.

(** X21: without its separator nothing is masked.  [censorIP] returns
    ASCII text that has no ['.'] as it is (an IPv6 address in its usual
    notation is shown in full in demo mode), and [censorNetBlock] returns
    ASCII text that has no ['/'] as it is. *)
Theorem censor_without_separator_is_identity (s : string) :
  is_ascii s = true →
  (LastIndex s "." = -1 → censorIP s = Some s)
  ∧ (Index s "/" = -1 → censorNetBlock s = Some s).
Proof.
  intros Hs. split; intros Hsep.
  - unfold censorIP. rewrite Hsep.
    rewrite censorString_empty_window by lia.
    by rewrite string_of_runes_of_string.
  - unfold censorNetBlock. rewrite Hsep.
    rewrite censorString_empty_window by lia.
    by rewrite string_of_runes_of_string.
Qed.

Lemma censor_without_separator_is_identity_witness :
  censorIP "2001:db8::1" = Some "2001:db8::1"
  ∧ censorNetBlock "93.184.216.0" = Some "93.184.216.0".
Proof.
  split.
  - apply (censor_without_separator_is_identity "2001:db8::1");
      vm_compute; reflexivity.
  - apply (censor_without_separator_is_identity "93.184.216.0");
      vm_compute; reflexivity.
Defined.

Lemma censorDomain_Some_has_dot s t :
  censorDomain s = Some t → Index s "." ≠ -1.
Proof.
  intros Hrun Hdot.
  assert (is_Some (censorDomain s)) as Hsome by eauto.
  unfold censorDomain in Hsome. rewrite Hdot in Hsome.
  apply censorString_is_Some in Hsome. unfold len in Hsome. lia.
Qed.

(** X22: re-masking is a no-op where masking returns.  For ASCII text
    [s], whenever one of [censorDomain], [censorIP] and [censorNetBlock]
    returns a masked text [t], the same function applied to [t] returns
    [t] again. *)
Theorem remasking_is_noop (s t : string) :
  is_ascii s = true →
  (censorDomain s = Some t → censorDomain t = Some t)
  ∧ (censorIP s = Some t → censorIP t = Some t)
  ∧ (censorNetBlock s = Some t → censorNetBlock t = Some t).
Proof.
  intros Hs. split; [|split]; intros Hrun.
  - destruct (censorDomain_ascii_idempotent s Hs) as (t' & H1 & H2).
    + by eapply censorDomain_Some_has_dot.
    + congruence.
  - destruct (censorIP_ascii_idempotent s Hs) as (t' & H1 & H2). congruence.
  - destruct (censorNetBlock_ascii_idempotent s Hs) as (t' & H1 & H2).
    congruence.
Qed.

Lemma remasking_is_noop_witness :
  censorDomain "www.xxxxxxx.xxx" = Some "www.xxxxxxx.xxx".
Proof.
  destruct (remasking_is_noop "www.example.com" "www.xxxxxxx.xxx")
    as (Hdomain & _ & _).
  - vm_compute. reflexivity.
  - apply Hdomain. vm_compute. reflexivity.
Defined.

(** ** [OutputLineParts] *)

Lemma Join_cons_cons e e' rest sep :
  Join (e :: e' :: rest) sep = e +:+ sep +:+ Join (e' :: rest) sep.
Proof. reflexivity. Qed.

(** The loop joins the texts with commas; it panics when one of the
    texts cannot be had. *)
Lemma ips_loop_later IPString demo addrs :
  ∀ i ips,
    ips_loop IPString demo (S i) ips addrs
    = l ← ip_texts IPString demo addrs;
      Some (match l with
            | [] => ips
            | _ :: _ => ips +:+ "," +:+ Join l ","
            end).
Proof.
  induction addrs as [|a addrs IH]; intros i ips; [reflexivity|].
  cbn [ips_loop ip_texts].
  rewrite bool_decide_eq_true_2 by lia.
  destruct (if demo then censorIP (IPString (Address a))
            else Some (IPString (Address a))) as [s|]; [|reflexivity].
  cbn [mbind option_bind]. rewrite IH.
  destruct (ip_texts IPString demo addrs) as [[|s' l]|];
    cbn [mbind option_bind]; [| |reflexivity].
  - by rewrite str_app_assoc.
  - rewrite Join_cons_cons. by rewrite !str_app_assoc.
Qed.

Lemma ips_loop_Join IPString demo addrs :
  ips_loop IPString demo 0 "" addrs
  = l ← ip_texts IPString demo addrs; Some (Join l ",").
Proof.
  destruct addrs as [|a addrs]; [reflexivity|].
  cbn [ips_loop ip_texts].
  rewrite bool_decide_eq_false_2 by lia.
  destruct (if demo then censorIP (IPString (Address a))
            else Some (IPString (Address a))) as [s|]; [|reflexivity].
  cbn [mbind option_bind]. rewrite ips_loop_later.
  destruct (ip_texts IPString demo addrs) as [[|s' l]|];
    cbn [mbind option_bind]; reflexivity.
Qed.

Lemma ip_texts_plain IPString addrs :
  ip_texts IPString false addrs = Some (IPString ∘ Address <$> addrs).
Proof.
  induction addrs as [|a addrs IH]; [reflexivity|].
  cbn [ip_texts mbind option_bind]. by rewrite IH.
Qed.

(** X23: without demo mode [OutputLineParts] never panics: it returns
    the name as it is and, when addresses are asked for, their texts
    joined by commas, with no comma at either end; when they are not
    asked for, the empty string. *)
Theorem output_line_parts_plain
    (IPString : list Z → string) (out : Output) (addrs : bool) :
  OutputLineParts IPString out addrs false
  = Some (Name out,
          if addrs then Join (IPString ∘ Address <$> Addresses out) ","
          else "").
Proof.
  unfold OutputLineParts. destruct addrs; [|reflexivity].
  by rewrite ips_loop_Join, ip_texts_plain.
Qed.

(** X24: in demo mode [OutputLineParts] panics on every name that has no
    ['.'], whether addresses are asked for or not: the panic of
    [censorDomain] reaches the callers that print a line. *)
Theorem output_line_parts_demo_panics
    (IPString : list Z → string) (out : Output) (addrs : bool) :
  Index (Name out) "." = -1 →
  OutputLineParts IPString out addrs true = None.
Proof.
  intros Hdot. unfold OutputLineParts.
  assert (censorDomain (Name out) = None) as ->.
  { destruct (censorDomain (Name out)) as [t|] eqn:Hrun; [|reflexivity].
    by apply censorDomain_Some_has_dot in Hrun. }
  by destruct (if addrs then _ else _).
Qed.

Lemma output_line_parts_demo_panics_witness :
  OutputLineParts sample_IPString
    {| Name := "localhost"; Addresses := [] |} false true = None.
Proof.
  apply (output_line_parts_demo_panics sample_IPString
           {| Name := "localhost"; Addresses := [] |} false).
  vm_compute. reflexivity.
Defined.

Lemma ip_texts_demo_ascii IPString addrs :
  Forall (λ a, is_ascii (IPString (Address a)) = true) addrs →
  ∃ l, ip_texts IPString true addrs = Some l
       ∧ Forall2 (λ a t, censorIP (IPString (Address a)) = Some t) addrs l.
Proof.
  induction 1 as [|a addrs Ha _ (l & IH & Hl)].
  - exists []. by split.
  - destruct (censorIP_ascii_idempotent _ Ha) as (t & Ht & _).
    exists (t :: l). cbn [ip_texts]. rewrite Ht, IH. split; [reflexivity|].
    by constructor.
Qed.

(** X25: in demo mode, on a name of ASCII text with a ['.'] and
    addresses whose texts are ASCII, [OutputLineParts] returns: the name
    masked by [censorDomain] and the texts of the addresses, each masked
    by [censorIP], joined by commas. *)
Theorem output_line_parts_demo_ascii
    (IPString : list Z → string) (out : Output) :
  is_ascii (Name out) = true →
  Index (Name out) "." ≠ -1 →
  Forall (λ a, is_ascii (IPString (Address a)) = true) (Addresses out) →
  ∃ name l,
    censorDomain (Name out) = Some name
    ∧ Forall2 (λ a t, censorIP (IPString (Address a)) = Some t)
        (Addresses out) l
    ∧ OutputLineParts IPString out true true = Some (name, Join l ",")
    ∧ OutputLineParts IPString out false true = Some (name, "").
Proof.
  intros Hname Hdot Haddrs.
  destruct (censorDomain_ascii_idempotent _ Hname Hdot) as (name & Hn & _).
  destruct (ip_texts_demo_ascii IPString _ Haddrs) as (l & Hl & Hall).
  exists name, l. split; [exact Hn|]. split; [exact Hall|].
  unfold OutputLineParts. rewrite ips_loop_Join, Hl, Hn. by split.
Qed.

Lemma output_line_parts_demo_ascii_witness :
  ∃ name l,
    censorDomain (Name sample_output) = Some name
    ∧ Forall2 (λ a t, censorIP (sample_IPString (Address a)) = Some t)
        (Addresses sample_output) l
    ∧ OutputLineParts sample_IPString sample_output true true
      = Some (name, Join l ",")
    ∧ OutputLineParts sample_IPString sample_output false true
      = Some (name, "").
Proof.
  apply (output_line_parts_demo_ascii sample_IPString sample_output).
  - vm_compute. reflexivity.
  - vm_compute. discriminate.
  - repeat constructor.
Defined.

(** X26: [OutputLinePartsOld] is [OutputLineParts] with two additions: a
    source column, the first source in brackets padded to 18 runes, for
    which it panics when [src] is set and the output has no source; and
    the text ["N/A"] in place of an empty list of addresses, so that with
    [addrs] set the third result is never the empty string. *)
Theorem output_line_parts_old_extends
    (IPString : list Z → string) (sources : list string) (out : Output)
    (src addrs demo : bool) :
  OutputLinePartsOld IPString sources out src addrs demo
  = source ← (if src
              then (λ s0, pad_right 18 ("[" +:+ s0 +:+ "] ")) <$> head sources
              else Some "");
    parts ← OutputLineParts IPString out addrs demo;
    Some (source, parts.1,
          if addrs && bool_decide (parts.2 = "") then "N/A" else parts.2).
Proof.
  unfold OutputLinePartsOld, OutputLineParts.
  assert (sources !! 0%nat = head sources) as -> by (by destruct sources).
  destruct src; [destruct (head sources) as [s0|]|]; cbn [mbind option_bind fmap option_fmap option_map];
    try reflexivity;
    (destruct addrs;
     [destruct (ips_loop IPString demo 0 "" (Addresses out)) as [ips|]|];
     cbn [mbind option_bind]; try reflexivity;
     destruct (if demo then censorDomain (Name out) else Some (Name out));
     cbn [mbind option_bind fst snd andb]; reflexivity).
Qed.

(** ** [DesiredAddrTypes] *)

Lemma desired_loop_filter IsIPv4 IsIPv6 ipv4 ipv6 addrs :
  ∀ kept,
    desired_loop IsIPv4 IsIPv6 ipv4 ipv6 kept addrs
    = kept ++ filter (λ a, desired IsIPv4 IsIPv6 ipv4 ipv6 a = true) addrs.
Proof.
  induction addrs as [|a addrs IH]; intros kept.
  - by rewrite filter_nil, app_nil_r.
  - cbn [desired_loop].
    destruct (ipv4 && IsIPv4 (Address a)) eqn:H4.
    + rewrite IH, filter_cons_True by (unfold desired; by rewrite H4).
      by rewrite <- app_assoc.
    + destruct (ipv6 && IsIPv6 (Address a)) eqn:H6.
      * rewrite IH, filter_cons_True by (unfold desired; by rewrite H4, H6).
        by rewrite <- app_assoc.
      * rewrite IH, filter_cons_False; [reflexivity|].
        unfold desired. by rewrite H4, H6.
Qed.

(** X27: [DesiredAddrTypes] keeps exactly the addresses of a wanted
    type, in their order: the result is the input filtered by "IPv4 is
    wanted and the address is IPv4, or IPv6 is wanted and the address is
    IPv6".  Nothing is added, duplicated or reordered. *)
Theorem desired_addr_types_filter
    (IsIPv4 IsIPv6 : list Z → bool) (addrs : list AddressInfo)
    (ipv4 ipv6 : bool) :
  DesiredAddrTypes IsIPv4 IsIPv6 addrs ipv4 ipv6
  = filter (λ a, desired IsIPv4 IsIPv6 ipv4 ipv6 a = true) addrs.
Proof. unfold DesiredAddrTypes. by rewrite desired_loop_filter. Qed.

(** [DesiredAddrTypes] is idempotent, and with neither type wanted
    it returns no address at all. *)
Theorem desired_addr_types_idempotent
    (IsIPv4 IsIPv6 : list Z → bool) (addrs : list AddressInfo)
    (ipv4 ipv6 : bool) :
  DesiredAddrTypes IsIPv4 IsIPv6
    (DesiredAddrTypes IsIPv4 IsIPv6 addrs ipv4 ipv6) ipv4 ipv6
  = DesiredAddrTypes IsIPv4 IsIPv6 addrs ipv4 ipv6
  ∧ DesiredAddrTypes IsIPv4 IsIPv6 addrs false false = [].
Proof.
  unfold DesiredAddrTypes. rewrite !desired_loop_filter. simpl. split.
  - by rewrite list_filter_filter_l.
  - induction addrs as [|a addrs IH]; [reflexivity|].
    rewrite filter_cons. by rewrite decide_False by done.
Qed.

(** ** [FprintEnumerationSummary] *)

(** X28: on an empty summary map [FprintEnumerationSummary] prints the
    header and the line with the number of names and nothing else, in
    demo mode or not: no divider and no ASN block follow, and nothing
    can panic. *)
Theorem empty_summary_prints_header_only
    (pal : palette) (range_asns : list (Z * ptr))
    (range_netblocks : Z → list (string * Z))
    (out : string) (total : Z) (st : store) (demo : bool) :
  asnmap st = ∅ →
  FprintEnumerationSummary pal range_asns range_netblocks out total st demo
  = Some (summary_header pal total out).
Proof.
  intros Hempty. unfold FprintEnumerationSummary.
  by rewrite Hempty, map_size_empty.
Qed.

Lemma empty_summary_prints_header_only_witness :
  FprintEnumerationSummary no_colour [] (λ _, []) "" 0 empty_store true
  = Some (summary_header no_colour 0 "").
Proof.
  apply (empty_summary_prints_header_only no_colour [] (λ _, []) "" 0
           empty_store true).
  reflexivity.
Defined.

Lemma netblock_lines_plain pal entries :
  ∀ out, is_Some (netblock_lines pal false entries out).
Proof.
  induction entries as [|[cidr ips] entries IH]; intros out; [by eexists|].
  cbn [netblock_lines mbind option_bind]. apply IH.
Qed.

Lemma asn_blocks_plain pal st range_asns range_netblocks :
  Forall (λ kp, is_Some (deref st kp.2)) range_asns →
  ∀ out, is_Some (asn_blocks pal false st range_asns range_netblocks out).
Proof.
  induction 1 as [|[asn data] range_asns [d Hd] _ IH]; intros out;
    [by eexists|].
  cbn [asn_blocks]. simpl in Hd. rewrite Hd.
  cbn [mbind option_bind andb fst snd].
  match goal with
  | |- context [netblock_lines pal false ?e ?o] =>
    destruct (netblock_lines_plain pal e o) as [out' ->]
  end.
  cbn [mbind option_bind]. apply IH.
Qed.

Lemma range_asns_deref st range_asns :
  pointers_valid st →
  range_asns ≡ₚ map_to_list (asnmap st) →
  Forall (λ kp, is_Some (deref st kp.2)) range_asns.
Proof.
  intros Hvalid Hperm. rewrite Hperm. apply Forall_forall.
  intros [asn p] Hin. apply elem_of_map_to_list in Hin.
  exact (Hvalid _ _ Hin).
Qed.

(** A map built by [UpdateSummaryData] is one that can be read. *)
Lemma wf_store_pointers_valid st : wf_store st → pointers_valid st.
Proof.
  intros Hwf asn p Hp.
  destruct (Hwf _ _ Hp) as (l & d & _ & -> & Hd & _). simpl. eauto.
Qed.

(** X29: without demo mode [FprintEnumerationSummary] never panics on a
    summary map, nil or made, in which every pointer is non-nil and
    refers to a summary, whatever orders [range] takes: no redactor is
    called, and nothing is asked of the [Netblocks] maps, which may be
    nil (a nil map has no entries and length zero). *)
Theorem plain_summary_never_panics
    (pal : palette) (range_asns : list (Z * ptr))
    (range_netblocks : Z → list (string * Z))
    (out : string) (total : Z) (st : store) :
  pointers_valid st →
  range_asns ≡ₚ map_to_list (asnmap st) →
  is_Some (FprintEnumerationSummary pal range_asns range_netblocks out total
             st false).
Proof.
  intros Hvalid Hperm. unfold FprintEnumerationSummary.
  case_bool_decide; [by eexists|].
  apply asn_blocks_plain. by apply range_asns_deref.
Qed.

Lemma plain_summary_never_panics_witness :
  is_Some (FprintEnumerationSummary no_colour
             (map_to_list (asnmap unmade_netblocks_store)) (λ _, []) "" 1
             unmade_netblocks_store false).
Proof.
  apply (plain_summary_never_panics no_colour).
  - intros asn p. unfold unmade_netblocks_store. cbn [asnmap heap].
    rewrite lookup_singleton. case_decide; [|discriminate].
    intros [= <-]. by eexists.
  - reflexivity.
Defined.

Lemma asn_blocks_demo_panics pal st range_asns range_netblocks
    asn l d :
  (asn, Addr l) ∈ range_asns →
  heap st !! l = Some d →
  0 < asn →
  (length (runes_of_string (SName d)) < String.length (SName d))%nat →
  ∀ out, asn_blocks pal true st range_asns range_netblocks out = None.
Proof.
  intros Hin Hd Hasn Hname.
  assert (censorString (SName d) 0 (len (SName d)) = None) as Hpanic.
  { destruct (censorString (SName d) 0 (len (SName d))) as [t|] eqn:Hrun;
      [|reflexivity].
    assert (is_Some (censorString (SName d) 0 (len (SName d)))) as Hsome
      by eauto.
    apply censorString_is_Some in Hsome. unfold len in Hsome. lia. }
  induction range_asns as [|[asn' data'] range_asns IH]; intros out.
  - by apply elem_of_nil in Hin.
  - cbn [asn_blocks]. apply elem_of_cons in Hin as [[= <- <-]|Hin].
    + cbn [deref]. rewrite Hd. cbn [mbind option_bind andb].
      rewrite (proj2 (Z.ltb_lt 0 asn) Hasn), Hpanic.
      by destruct (censorString (Itoa asn) 0 (len (Itoa asn))).
    + destruct (deref st data') as [d'|]; [|reflexivity].
      cbn [mbind option_bind].
      destruct (if true && (0 <? asn') then _ else _) as [strs|];
        [|reflexivity].
      cbn [mbind option_bind].
      destruct (netblock_lines _ _ _ _) as [out'|]; [|reflexivity].
      cbn [mbind option_bind]. by apply IH.
Qed.

(** X30: in demo mode [FprintEnumerationSummary] panics whenever the
    summary map holds, under a positive ASN, an organization whose name
    has a character of more than one byte: [censorString] is given the
    length of the name in bytes as the end of a window counted in
    runes. *)
Theorem demo_summary_panics_on_multibyte_name
    (pal : palette) (range_asns : list (Z * ptr))
    (range_netblocks : Z → list (string * Z))
    (out : string) (total : Z) (st : store)
    (asn : Z) (l : positive) (d : ASNSummaryData) :
  range_asns ≡ₚ map_to_list (asnmap st) →
  asnmap st !! asn = Some (Addr l) →
  heap st !! l = Some d →
  0 < asn →
  (length (runes_of_string (SName d)) < String.length (SName d))%nat →
  FprintEnumerationSummary pal range_asns range_netblocks out total st true
  = None.
Proof.
  intros Hperm Hasn Hd Hpos Hname. unfold FprintEnumerationSummary.
  rewrite bool_decide_eq_false_2.
  - apply (asn_blocks_demo_panics pal st range_asns range_netblocks asn l d);
      try done.
    rewrite Hperm. by apply elem_of_map_to_list.
  - intros Hsize. apply map_size_empty_inv in Hsize.
    by rewrite Hsize, lookup_empty in Hasn.
Qed.

Lemma demo_summary_panics_on_multibyte_name_witness :
  FprintEnumerationSummary no_colour (map_to_list (asnmap accent_store))
    (λ _, []) "" 1 accent_store true
  = None.
Proof.
  apply (demo_summary_panics_on_multibyte_name no_colour
           (map_to_list (asnmap accent_store)) (λ _, []) "" 1 accent_store
           3215 1%positive
           {| SName := "France Télécom"; Netblocks := Some ∅ |}).
  - reflexivity.
  - reflexivity.
  - reflexivity.
  - lia.
  - vm_compute. lia.
Defined.
